(** * NotDataAnalyst: tiered memory and orchestration graph

    A shallow embedding of the memory tiers ([utils/memory_manager.py]),
    the worker loop ([agents/base_agent.py]) and the routing graph
    ([agents/router.py]), with the properties stated about them, and of
    what these rest on: the code scanner and the installer
    ([tools/expert_crew_tools.py]), the archive
    ([utils/qdrant_setup.py]), the model manager
    ([utils/model_manager.py]) and the Contextor's history
    ([agents/contextor.py]).

    Conventions.
    - A Python [str] is a list of Unicode code points ([list N]); ASCII
      literals are written [py "..."].
    - Python objects that travel through JSON are the type [value].
    - External capabilities (clock, LLM providers, tools, the JSON repair
      library) are fields of an environment record and are quantified
      over; every call to them is explicit in the state that is threaded
      through. *)

From Stdlib Require Import ZArith NArith String Ascii List Lia Bool.
From Stdlib Require Import DecimalFacts DecimalPos DecimalN.
From stdpp Require Import base option list gmap.
Import ListNotations.

Local Open Scope N_scope.

(** ** Python strings *)

Definition str := list N.

Definition py (s : string) : str := map N_of_ascii (list_ascii_of_string s).

Coercion py : string >-> str.

Definition str_eqb (a b : str) : bool := bool_decide (a = b).

(** [prefix] is how [s] starts. *)
Fixpoint starts_with (prefix s : str) : bool :=
  match prefix, s with
  | [], _ => true
  | a :: p', b :: s' => (a =? b) && starts_with p' s'
  | _ :: _, [] => false
  end.

(** [needle in s] for two strings. *)
Fixpoint contains (needle s : str) : bool :=
  starts_with needle s ||
  match s with
  | [] => false
  | _ :: s' => contains needle s'
  end.

(** [str.lower] and [str.upper], as far as this program looks at their
    result, which it only compares with ASCII words ([user], the tool
    names, [RETRY], [FAIL], [WARN]).  Besides the ASCII letters, the
    Kelvin sign lowers to [k], and dotless i and long s raise to [I] and
    [S].  The other characters with an ASCII image raise to [SS], [FF],
    [FI], [FL], [FFI], [FFL] or [ST] (sharp s and the Latin ligatures),
    none of which occurs in those words.  Every other character is left
    as it is here: its image is not ASCII either, so each comparison is
    decided as Python decides it. *)
Definition lower_char (c : N) : N :=
  if (65 <=? c) && (c <=? 90) then c + 32 else
  if c =? 8490 then 107 else c.

Definition upper_char (c : N) : N :=
  if (97 <=? c) && (c <=? 122) then c - 32 else
  if c =? 305 then 73 else
  if c =? 383 then 83 else c.

Definition lower (s : str) : str := map lower_char s.
Definition upper (s : str) : str := map upper_char s.

(** The characters [str.isspace] accepts. *)
Definition is_space (c : N) : bool :=
  ((9 <=? c) && (c <=? 13)) || ((28 <=? c) && (c <=? 32)) ||
  (c =? 133) || (c =? 160) || (c =? 5760) ||
  ((8192 <=? c) && (c <=? 8202)) || (c =? 8232) || (c =? 8233) ||
  (c =? 8239) || (c =? 8287) || (c =? 12288).

Fixpoint lstrip (s : str) : str :=
  match s with
  | c :: r => if is_space c then lstrip r else s
  | [] => []
  end.

(** [s.strip()]. *)
Definition strip (s : str) : str := rev (lstrip (rev (lstrip s))).

(** [l[start:]] for a possibly negative [start]; Redis [LRANGE start -1]
    selects the same elements. *)
Definition slice_from {A} (start : Z) (l : list A) : list A :=
  let len := Z.of_nat (length l) in
  drop (Z.to_nat (if (start <? 0)%Z then Z.max 0 (len + start) else start)) l.

(** ** JSON: the standard [json] module on the JSON data model *)

Module Json.

(** Python objects of the JSON data model.  A float is carried by the
    literal that denotes it; no statement below compares floats. *)
#[warnings="-register-all"]
Inductive value : Type :=
| VNull
| VBool (b : bool)
| VInt (n : Z)
| VFloat (lit : str)
| VStr (s : str)
| VList (l : list value)
| VDict (d : list (str * value)).

(** Truth value of an object ([if x:], [not x], [x or y]). *)
Definition truthy (v : value) : bool :=
  match v with
  | VNull => false
  | VBool b => b
  | VInt n => negb (n =? 0)%Z
  | VFloat _ => true
  | VStr s => negb (bool_decide (s = []))
  | VList l => match l with [] => false | _ => true end
  | VDict d => match d with [] => false | _ => true end
  end.

(** [d.get(k)] on the association list of a dict. *)
Fixpoint dict_get (d : list (str * value)) (k : str) : option value :=
  match d with
  | [] => None
  | (k', v) :: d' => if bool_decide (k' = k) then Some v else dict_get d' k
  end.

(** [d[k] = v]: overwrite in place, or append a new key. *)
Fixpoint dict_set (d : list (str * value)) (k : str) (v : value) : list (str * value) :=
  match d with
  | [] => [(k, v)]
  | (k', v') :: d' =>
      if bool_decide (k' = k) then (k', v) :: d' else (k', v') :: dict_set d' k v
  end.

(** [del d[k]] for a key that may be absent. *)
Fixpoint dict_del (d : list (str * value)) (k : str) : list (str * value) :=
  match d with
  | [] => []
  | (k', v') :: d' => if bool_decide (k' = k) then d' else (k', v') :: dict_del d' k
  end.

(** [dict(pairs)]. *)
Definition dict_of_pairs (ps : list (str * value)) : list (str * value) :=
  fold_left (fun d kv => dict_set d (fst kv) (snd kv)) ps [].

(** *** Encoder ([json.dumps], default settings: [ensure_ascii=True],
    separators [", "] and [": "]) *)

Definition digit_char (d : N) : N := 48 + d.

Fixpoint uint_chars (u : Decimal.uint) : str :=
  match u with
  | Decimal.Nil => []
  | Decimal.D0 u => digit_char 0 :: uint_chars u
  | Decimal.D1 u => digit_char 1 :: uint_chars u
  | Decimal.D2 u => digit_char 2 :: uint_chars u
  | Decimal.D3 u => digit_char 3 :: uint_chars u
  | Decimal.D4 u => digit_char 4 :: uint_chars u
  | Decimal.D5 u => digit_char 5 :: uint_chars u
  | Decimal.D6 u => digit_char 6 :: uint_chars u
  | Decimal.D7 u => digit_char 7 :: uint_chars u
  | Decimal.D8 u => digit_char 8 :: uint_chars u
  | Decimal.D9 u => digit_char 9 :: uint_chars u
  end.

(** [int.__repr__]. *)
Definition int_repr (z : Z) : str :=
  match z with
  | Z0 => py "0"
  | Zpos p => uint_chars (Pos.to_uint p)
  | Zneg p => 45 :: uint_chars (Pos.to_uint p)
  end.

Definition hex_digit (n : N) : N := if n <? 10 then 48 + n else 87 + n.

(** ['{0:04x}'.format(n)] for [n < 0x10000]. *)
Definition hex4 (n : N) : str :=
  [hex_digit (n / 4096); hex_digit (n / 256 mod 16);
   hex_digit (n / 16 mod 16); hex_digit (n mod 16)].

Definition u_escape (n : N) : str := 92 :: 117 :: hex4 n.

(** The replacement of one character by [py_encode_basestring_ascii]:
    the short escapes, [\uXXXX] for everything outside [' '..'~'], and a
    surrogate pair above the basic plane. *)
Definition escape_char (c : N) : str :=
  if c =? 34 then [92; 34] else
  if c =? 92 then py "\\" else
  if c =? 8 then py "\b" else
  if c =? 12 then py "\f" else
  if c =? 10 then py "\n" else
  if c =? 13 then py "\r" else
  if c =? 9 then py "\t" else
  if (32 <=? c) && (c <=? 126) then [c] else
  if c <? 65536 then u_escape c else
  let n := c - 65536 in
  u_escape (N.lor 55296 (N.land (N.shiftr n 10) 1023)) ++
  u_escape (N.lor 56320 (N.land n 1023)).

Definition encode_string (s : str) : str :=
  34 :: flat_map escape_char s ++ [34].

(** [sep.join(parts)]. *)
Fixpoint join (sep : str) (parts : list str) : str :=
  match parts with
  | [] => []
  | x :: rest => x ++ match rest with [] => [] | _ => sep ++ join sep rest end
  end.

Fixpoint dumps (v : value) : str :=
  match v with
  | VNull => py "null"
  | VBool true => py "true"
  | VBool false => py "false"
  | VInt n => int_repr n
  | VFloat lit => lit
  | VStr s => encode_string s
  | VList l => 91 :: join (py ", ") (map dumps l) ++ [93]
  | VDict d =>
      123 :: join (py ", ")
               (map (fun kv => encode_string (fst kv) ++ py ": " ++ dumps (snd kv)) d)
          ++ [125]
  end.

(** *** Decoder ([json.loads], the C scanner's behaviour) *)

Definition is_ws (c : N) : bool :=
  (c =? 32) || (c =? 9) || (c =? 10) || (c =? 13).

Fixpoint skip_ws (s : str) : str :=
  match s with
  | c :: r => if is_ws c then skip_ws r else s
  | [] => []
  end.

Definition is_digit (c : N) : bool := (48 <=? c) && (c <=? 57).

Definition digit_of (c : N) : option (Decimal.uint -> Decimal.uint) :=
  if c =? 48 then Some Decimal.D0 else
  if c =? 49 then Some Decimal.D1 else
  if c =? 50 then Some Decimal.D2 else
  if c =? 51 then Some Decimal.D3 else
  if c =? 52 then Some Decimal.D4 else
  if c =? 53 then Some Decimal.D5 else
  if c =? 54 then Some Decimal.D6 else
  if c =? 55 then Some Decimal.D7 else
  if c =? 56 then Some Decimal.D8 else
  if c =? 57 then Some Decimal.D9 else None.

(** The longest run of decimal digits at the front of the text. *)
Fixpoint scan_digits (s : str) : Decimal.uint * str :=
  match s with
  | c :: r =>
      match digit_of c with
      | Some d => let '(u, r') := scan_digits r in (d u, r')
      | None => (Decimal.Nil, s)
      end
  | [] => (Decimal.Nil, [])
  end.

(** The fraction (a dot and at least one digit) when present: its text
    and what follows. *)
Definition scan_frac (s : str) : str * str :=
  match s with
  | dot :: c :: r =>
      if (dot =? 46) && is_digit c then
        let '(u, r') := scan_digits (c :: r) in (46 :: uint_chars u, r')
      else ([], s)
  | _ => ([], s)
  end.

(** The exponent ([e] or [E], an optional sign, at least one digit)
    when present. *)
Definition scan_exp (s : str) : str * str :=
  match s with
  | e :: r =>
      if (e =? 101) || (e =? 69) then
        match r with
        | sg :: c :: r' =>
            if ((sg =? 45) || (sg =? 43)) && is_digit c then
              let '(u, r'') := scan_digits (c :: r') in (e :: sg :: uint_chars u, r'')
            else if is_digit sg then
              let '(u, r'') := scan_digits r in (e :: uint_chars u, r'')
            else ([], s)
        | [c] =>
            if is_digit c then (e :: [c], []) else ([], s)
        | [] => ([], s)
        end
      else ([], s)
  | [] => ([], s)
  end.

(** After the integer part [ipart] (with its sign): an integer unless a
    fraction or an exponent follows. *)
Definition finish_number (neg : bool) (u : Decimal.uint) (r : str) : value * str :=
  let '(frac, r1) := scan_frac r in
  let '(ex, r2) := scan_exp r1 in
  match frac, ex with
  | [], [] =>
      let n := Z.of_N (N.of_uint u) in
      (VInt (if neg then (- n)%Z else n), r2)
  | _, _ =>
      (VFloat ((if neg then [45] else []) ++ uint_chars u ++ frac ++ ex), r2)
  end.

(** An optional sign, then [0] or a digit run with no leading zero, and
    what [finish_number] makes of the rest. *)
Definition scan_number (s : str) : option (value * str) :=
  let '(neg, s1) := match s with
                    | c :: r => if c =? 45 then (true, r) else (false, s)
                    | [] => (false, s)
                    end in
  match s1 with
  | c :: r =>
      if c =? 48 then Some (finish_number neg (Decimal.D0 Decimal.Nil) r)
      else if is_digit c then
        let '(u, r') := scan_digits s1 in Some (finish_number neg u r')
      else None
  | [] => None
  end.

Definition hex_val (c : N) : option N :=
  if (48 <=? c) && (c <=? 57) then Some (c - 48) else
  if (97 <=? c) && (c <=? 102) then Some (c - 87) else
  if (65 <=? c) && (c <=? 70) then Some (c - 55) else None.

Definition hex4_val (a b c d : N) : option N :=
  match hex_val a, hex_val b, hex_val c, hex_val d with
  | Some x, Some y, Some z, Some w => Some (((x * 16 + y) * 16 + z) * 16 + w)
  | _, _, _, _ => None
  end.

Definition is_high_surrogate (c : N) : bool := (55296 <=? c) && (c <=? 56319).
Definition is_low_surrogate (c : N) : bool := (56320 <=? c) && (c <=? 57343).
Definition join_surrogates (hi lo : N) : N :=
  65536 + N.lor (N.shiftl (N.land hi 1023) 10) (N.land lo 1023).

(** The character a one-letter escape stands for. *)
Definition simple_escape (e : N) : option N :=
  if e =? 34 then Some 34 else
  if e =? 92 then Some 92 else
  if e =? 47 then Some 47 else
  if e =? 98 then Some 8 else
  if e =? 102 then Some 12 else
  if e =? 110 then Some 10 else
  if e =? 114 then Some 13 else
  if e =? 116 then Some 9 else None.

Definition push (c : N) (k : option (str * str)) : option (str * str) :=
  match k with
  | Some (s, r) => Some (c :: s, r)
  | None => None
  end.

(** [scanstring] from just after the opening quote (strict mode: a raw
    control character is an error): the decoded string and the text
    after the closing quote. *)
Fixpoint scanstring (s : str) : option (str * str) :=
  match s with
  | [] => None
  | c :: r =>
      if c =? 34 then Some ([], r)
      else if c =? 92 then
        match r with
        | [] => None
        | e :: r1 =>
            if e =? 117 then
              match r1 with
              | a :: b :: c3 :: d :: r2 =>
                  match hex4_val a b c3 d with
                  | None => None
                  | Some u =>
                      match r2 with
                      | bs :: uu :: a' :: b' :: c' :: d' :: r3 =>
                          if is_high_surrogate u && (bs =? 92) && (uu =? 117) then
                            match hex4_val a' b' c' d' with
                            | None => None
                            | Some u2 =>
                                if is_low_surrogate u2
                                then push (join_surrogates u u2) (scanstring r3)
                                else push u (scanstring r2)
                            end
                          else push u (scanstring r2)
                      | _ => push u (scanstring r2)
                      end
                  end
              | _ => None
              end
            else
              match simple_escape e with
              | Some x => push x (scanstring r1)
              | None => None
              end
        end
      else if c <? 32 then None
      else push c (scanstring r)
  end.

(** [s.startswith(lit)], returning the rest. *)
Fixpoint strip_prefix (lit s : str) : option str :=
  match lit, s with
  | [], _ => Some s
  | a :: lit', b :: s' => if a =? b then strip_prefix lit' s' else None
  | _ :: _, [] => None
  end.

(** [scan_once] at a position where white space has been skipped.  The
    recursion follows the nesting of the document; [fuel] bounds it. *)
Fixpoint parse_value (fuel : nat) (s : str) {struct fuel} : option (value * str) :=
  match fuel with
  | O => None
  | S fuel' =>
      match s with
      | [] => None
      | c :: r =>
          if c =? 34 then
            match scanstring r with
            | Some (k, r') => Some (VStr k, r')
            | None => None
            end
          else if c =? 123 then
            match skip_ws r with
            | c' :: r' =>
                if c' =? 125 then Some (VDict [], r')
                else match parse_members fuel' (c' :: r') with
                     | Some (ms, r'') => Some (VDict (dict_of_pairs ms), r'')
                     | None => None
                     end
            | [] => None
            end
          else if c =? 91 then
            match skip_ws r with
            | c' :: r' =>
                if c' =? 93 then Some (VList [], r')
                else match parse_elems fuel' (c' :: r') with
                     | Some (vs, r'') => Some (VList vs, r'')
                     | None => None
                     end
            | [] => None
            end
          else if c =? 110 then
            match strip_prefix (py "ull") r with
            | Some r' => Some (VNull, r') | None => None end
          else if c =? 116 then
            match strip_prefix (py "rue") r with
            | Some r' => Some (VBool true, r') | None => None end
          else if c =? 102 then
            match strip_prefix (py "alse") r with
            | Some r' => Some (VBool false, r') | None => None end
          else if c =? 78 then
            match strip_prefix (py "aN") r with
            | Some r' => Some (VFloat (py "NaN"), r') | None => None end
          else if c =? 73 then
            match strip_prefix (py "nfinity") r with
            | Some r' => Some (VFloat (py "Infinity"), r') | None => None end
          else
            match strip_prefix (py "-Infinity") s with
            | Some r' => Some (VFloat (py "-Infinity"), r')
            | None => scan_number s
            end
      end
  end

with parse_elems (fuel : nat) (s : str) {struct fuel} : option (list value * str) :=
  match fuel with
  | O => None
  | S fuel' =>
      match parse_value fuel' s with
      | None => None
      | Some (v, r) =>
          match skip_ws r with
          | c :: r' =>
              if c =? 93 then Some ([v], r')
              else if c =? 44 then
                match parse_elems fuel' (skip_ws r') with
                | Some (vs, r'') => Some (v :: vs, r'')
                | None => None
                end
              else None
          | [] => None
          end
      end
  end

with parse_members (fuel : nat) (s : str) {struct fuel}
  : option (list (str * value) * str) :=
  match fuel with
  | O => None
  | S fuel' =>
      match s with
      | c :: r =>
          if c =? 34 then
            match scanstring r with
            | None => None
            | Some (k, r1) =>
                match skip_ws r1 with
                | c1 :: r2 =>
                    if c1 =? 58 then
                      match parse_value fuel' (skip_ws r2) with
                      | None => None
                      | Some (v, r3) =>
                          match skip_ws r3 with
                          | c3 :: r4 =>
                              if c3 =? 125 then Some ([(k, v)], r4)
                              else if c3 =? 44 then
                                match parse_members fuel' (skip_ws r4) with
                                | Some (ms, r5) => Some ((k, v) :: ms, r5)
                                | None => None
                                end
                              else None
                          | [] => None
                          end
                      end
                    else None
                | [] => None
                end
            end
          else None
      | [] => None
      end
  end.

(** [json.loads(s)]: one document between optional white space; [None]
    stands for [JSONDecodeError]. *)
Definition loads (s : str) : option value :=
  match parse_value (S (length s)) (skip_ws s) with
  | Some (v, r) => match skip_ws r with [] => Some v | _ => None end
  | None => None
  end.

(** *** The values the encoder and the decoder agree on *)

(** A Unicode scalar value: a code point that is not a surrogate. *)
Definition scalar (c : N) : bool :=
  (c <? 55296) || ((57344 <=? c) && (c <? 1114112)).

(** Well-formed text: every character is a scalar value. *)
Definition text (s : str) : bool := forallb scalar s.

Fixpoint distinct (ks : list str) : bool :=
  match ks with
  | [] => true
  | k :: ks' => negb (bool_decide (k ∈ ks')) && distinct ks'
  end.

(** A value of the data model proper: no float, dict keys pairwise
    different (as in any Python dict), strings of scalar values. *)
Fixpoint wf (v : value) : bool :=
  match v with
  | VNull | VBool _ | VInt _ => true
  | VFloat _ => false
  | VStr s => text s
  | VList l => forallb wf l
  | VDict d =>
      distinct (map fst d) && forallb (fun kv => text (fst kv) && wf (snd kv)) d
  end.

(** Nesting budget the decoder needs for the encoding of a value. *)
Fixpoint need (v : value) : nat :=
  match v with
  | VList l => S (fold_right (fun x acc => S (need x) + acc)%nat 0%nat l)
  | VDict d => S (fold_right (fun kv acc => S (need (snd kv)) + acc)%nat 0%nat d)
  | _ => 1%nat
  end.

(** The text after a value inside a document: nothing, or a separator
    or closing bracket. *)
Definition delimited (r : str) : bool :=
  match r with
  | [] => true
  | c :: _ => (c =? 44) || (c =? 93) || (c =? 125)
  end.

(** A text that does not continue a number. *)
Definition ends_number (r : str) : bool :=
  match r with
  | [] => true
  | c :: _ => negb (is_digit c) && negb (c =? 46) && negb (c =? 101) && negb (c =? 69)
  end.

End Json.

Export Json.

(** ** Outcomes, the world and the environment *)

(** What a call can raise: [KeyboardInterrupt] (not an [Exception]), or
    an instance of an [Exception] subclass with its class name and
    [str(e)]. *)
Inductive exn : Type :=
| KeyboardInterrupt
| Exception (cls : str) (msg : str).

(** How a call ends.  [OutOfFuel] marks a loop cut short by the budget
    of the model; no handler catches it. *)
Inductive Result (A : Type) : Type :=
| Ok (a : A)
| Raise (e : exn)
| OutOfFuel.

Arguments Ok {A} a.
Arguments Raise {A} e.
Arguments OutOfFuel {A}.

(** [warm_memory_dump.json]: absent, present but not loadable, or
    holding a JSON object. *)
Inductive DumpFile : Type :=
| Absent
| Unreadable
| Holds (store : list (str * value)).

(** [hot_memory.json], likewise; [Stored ctx] is a file whose
    [global_project_context] is [ctx]. *)
Inductive HotFile : Type :=
| NoHotFile
| BadHotFile
| Stored (ctx : str).

(** Everything outside the Python objects themselves.  [redis_lists] and
    [redis_hashes] are the keys of the Redis database by type;
    [archiver_inbox] collects the batches handed to archival threads, in
    the order the threads were started; [tool_rounds] counts the
    iterations of the tool loop of [run_task] (it is not read by the
    program). *)
Record World : Type := {
  clock_reads : nat;
  llm_attempts : nat;
  tool_runs : nat;
  tool_rounds : nat;
  redis_lists : gmap str (list str);
  redis_hashes : gmap str (gmap str str);
  dump_file : DumpFile;
  dump_writable : bool;
  hot_file : HotFile;
  hot_writable : bool;
  archiver_inbox : list (list value)
}.

(** A tool call requested by a response. *)
Record ToolCall : Type := {
  tc_name : str;
  tc_args : value;
  tc_id : str
}.

(** A part of a list-valued content: a dict with a ['text'] entry, or
    anything else. *)
Inductive Part : Type :=
| TextPart (t : str)
| OtherPart.

Inductive Content : Type :=
| Text (s : str)
| Parts (ps : list Part).

(** One message of a LangChain conversation. *)
Inductive Message : Type :=
| SystemMessage (c : str)
| HumanMessage (c : str)
| AIMessage (c : Content) (tool_calls : list ToolCall)
| ToolMessage (c : str) (tool_call_id : str).

(** An entry of the orchestration transcript ([HumanMessage] or
    [AIMessage] with a text content). *)
Inductive Entry : Type :=
| Human (c : str)
| AI (c : str).

(** Which model an invocation goes to: the one currently bound, or the
    one obtained by [switch_to_provider(p)] and a refresh. *)
Inductive Target : Type :=
| Current
| Provider (p : str).

Inductive Reply (A : Type) : Type :=
| Returned (a : A)
| Failed (e : exn).

Arguments Returned {A} a.
Arguments Failed {A} e.

(** The external capabilities.  Each oracle is indexed by the number of
    earlier calls, so that its answers may depend on everything that
    happened before.
    - [now n]: [datetime.now().isoformat()] at the [n]-th reading;
    - [llm n t msgs]: the [n]-th model invocation, sent to [t];
    - [tool n name args]: the [n]-th tool execution;
    - [router_llm n prompt]: [router_llm.invoke] and the [content] of
      its response;
    - [repair_json s]: [json_repair.repair_json(s, return_objects=True)];
    - [show v]: [str(v)] for an object that is not a string;
    - [show_entry m]: [str(m)] for a transcript message;
    - [system_prompt name]: the formatted system prompt of an agent;
    - [router_system_prompt]: the constant [ROUTER_SYSTEM_PROMPT];
    - [redis_up]: whether the [ping] at construction succeeded. *)
Record Env : Type := {
  now : nat -> str;
  llm : nat -> Target -> list Message -> Reply (Content * list ToolCall);
  tool : nat -> str -> value -> Reply str;
  router_llm : nat -> list (str * str) -> Reply str;
  repair_json : str -> Reply value;
  show : value -> str;
  show_entry : Entry -> str;
  system_prompt : str -> str;
  router_system_prompt : str;
  redis_up : bool
}.

(** ** The monad of effectful code *)

Definition M (A : Type) : Type := World -> Result A * World.

Definition ret {A} (a : A) : M A := fun w => (Ok a, w).

Definition bind {A B} (m : M A) (k : A -> M B) : M B :=
  fun w =>
    match m w with
    | (Ok a, w') => k a w'
    | (Raise e, w') => (Raise e, w')
    | (OutOfFuel, w') => (OutOfFuel, w')
    end.

Definition raise {A} (e : exn) : M A := fun w => (Raise e, w).

Definition out_of_fuel {A} : M A := fun w => (OutOfFuel, w).

(** [try: m  except Exception as e: h e]. *)
Definition try_except {A} (m : M A) (h : str -> str -> M A) : M A :=
  fun w =>
    match m w with
    | (Raise (Exception cls msg), w') => h cls msg w'
    | r => r
    end.

(** [try: m  except KeyboardInterrupt: h]. *)
Definition try_interrupt {A} (m : M A) (h : M A) : M A :=
  fun w =>
    match m w with
    | (Raise KeyboardInterrupt, w') => h w'
    | r => r
    end.

Definition modify (f : World -> World) : M unit := fun w => (Ok tt, f w).

Definition gets {A} (f : World -> A) : M A := fun w => (Ok (f w), w).

Declare Scope prog_scope.
Delimit Scope prog_scope with prog.
Notation "x <- c1 ;; c2" := (bind c1 (fun x => c2))
  (at level 100, c1 at next level, right associativity) : prog_scope.
Notation "c1 ;;; c2" := (bind c1 (fun _ => c2))
  (at level 100, right associativity) : prog_scope.
Local Open Scope prog_scope.

(** Setters for the fields of the world. *)
Definition set_clock_reads (n : nat) (w : World) : World :=
  {| clock_reads := n; llm_attempts := llm_attempts w; tool_runs := tool_runs w;
     tool_rounds := tool_rounds w; redis_lists := redis_lists w;
     redis_hashes := redis_hashes w; dump_file := dump_file w;
     dump_writable := dump_writable w; hot_file := hot_file w;
     hot_writable := hot_writable w; archiver_inbox := archiver_inbox w |}.

Definition set_llm_attempts (n : nat) (w : World) : World :=
  {| clock_reads := clock_reads w; llm_attempts := n; tool_runs := tool_runs w;
     tool_rounds := tool_rounds w; redis_lists := redis_lists w;
     redis_hashes := redis_hashes w; dump_file := dump_file w;
     dump_writable := dump_writable w; hot_file := hot_file w;
     hot_writable := hot_writable w; archiver_inbox := archiver_inbox w |}.

Definition set_tool_runs (n : nat) (w : World) : World :=
  {| clock_reads := clock_reads w; llm_attempts := llm_attempts w; tool_runs := n;
     tool_rounds := tool_rounds w; redis_lists := redis_lists w;
     redis_hashes := redis_hashes w; dump_file := dump_file w;
     dump_writable := dump_writable w; hot_file := hot_file w;
     hot_writable := hot_writable w; archiver_inbox := archiver_inbox w |}.

Definition set_tool_rounds (n : nat) (w : World) : World :=
  {| clock_reads := clock_reads w; llm_attempts := llm_attempts w;
     tool_runs := tool_runs w; tool_rounds := n; redis_lists := redis_lists w;
     redis_hashes := redis_hashes w; dump_file := dump_file w;
     dump_writable := dump_writable w; hot_file := hot_file w;
     hot_writable := hot_writable w; archiver_inbox := archiver_inbox w |}.

Definition set_redis_lists (m : gmap str (list str)) (w : World) : World :=
  {| clock_reads := clock_reads w; llm_attempts := llm_attempts w;
     tool_runs := tool_runs w; tool_rounds := tool_rounds w; redis_lists := m;
     redis_hashes := redis_hashes w; dump_file := dump_file w;
     dump_writable := dump_writable w; hot_file := hot_file w;
     hot_writable := hot_writable w; archiver_inbox := archiver_inbox w |}.

Definition set_redis_hashes (m : gmap str (gmap str str)) (w : World) : World :=
  {| clock_reads := clock_reads w; llm_attempts := llm_attempts w;
     tool_runs := tool_runs w; tool_rounds := tool_rounds w;
     redis_lists := redis_lists w; redis_hashes := m; dump_file := dump_file w;
     dump_writable := dump_writable w; hot_file := hot_file w;
     hot_writable := hot_writable w; archiver_inbox := archiver_inbox w |}.

Definition set_dump_file (f : DumpFile) (w : World) : World :=
  {| clock_reads := clock_reads w; llm_attempts := llm_attempts w;
     tool_runs := tool_runs w; tool_rounds := tool_rounds w;
     redis_lists := redis_lists w; redis_hashes := redis_hashes w; dump_file := f;
     dump_writable := dump_writable w; hot_file := hot_file w;
     hot_writable := hot_writable w; archiver_inbox := archiver_inbox w |}.

Definition set_hot_file (f : HotFile) (w : World) : World :=
  {| clock_reads := clock_reads w; llm_attempts := llm_attempts w;
     tool_runs := tool_runs w; tool_rounds := tool_rounds w;
     redis_lists := redis_lists w; redis_hashes := redis_hashes w;
     dump_file := dump_file w; dump_writable := dump_writable w; hot_file := f;
     hot_writable := hot_writable w; archiver_inbox := archiver_inbox w |}.

Definition set_archiver_inbox (i : list (list value)) (w : World) : World :=
  {| clock_reads := clock_reads w; llm_attempts := llm_attempts w;
     tool_runs := tool_runs w; tool_rounds := tool_rounds w;
     redis_lists := redis_lists w; redis_hashes := redis_hashes w;
     dump_file := dump_file w; dump_writable := dump_writable w;
     hot_file := hot_file w; hot_writable := hot_writable w; archiver_inbox := i |}.

(** ** Hot memory ([utils/memory_manager.py], class [HotMemory]) *)

Module Hot.

Record HotMemory : Type := { _global_context : str }.

Definition _load_context_from_file : M str :=
  f <- gets hot_file ;;
  match f with
  | NoHotFile => ret []
  | BadHotFile => ret []
  | Stored ctx => ret ctx
  end.

(** [HotMemory()]. *)
Definition init : M HotMemory :=
  ctx <- _load_context_from_file ;;
  ret {| _global_context := ctx |}.

(** A failed write is reported and swallowed. *)
Definition _save_context_to_file (context_text : str) : M unit :=
  ok <- gets hot_writable ;;
  if ok then modify (set_hot_file (Stored context_text)) else ret tt.

Definition set_context (self : HotMemory) (context_text : str) : M HotMemory :=
  let self := {| _global_context := context_text |} in
  _save_context_to_file context_text ;;;
  ret self.

Definition NO_CONTEXT : str := py "No global context set. Please run Contextor first.".

Definition get_context (self : HotMemory) : str :=
  if negb (truthy (VStr (_global_context self))) then NO_CONTEXT
  else _global_context self.

End Hot.

(** ** Warm memory ([utils/memory_manager.py], class [WarmMemory]) *)

Module Warm.

Record WarmMemory : Type := {
  session_id : str;
  use_redis : bool
}.

Definition chat_key (self : WarmMemory) : str := py "chat:" ++ session_id self.
Definition meta_key (self : WarmMemory) : str := py "meta:" ++ session_id self.
Definition ARCHIVE_THRESHOLD : nat := 10.
Definition ARCHIVE_BATCH_SIZE : nat := 1.

(** [WarmMemory(session_id)]: Redis when the ping succeeds, the dump
    file otherwise.  The load of the dump file at construction is
    repeated at the start of every operation and is left to them. *)
Definition init (E : Env) (sid : str) : WarmMemory :=
  {| session_id := sid; use_redis := redis_up E |}.

(** [_save_local_store]: a failed write is reported and swallowed. *)
Definition _save_local_store (store : list (str * value)) : M unit :=
  ok <- gets dump_writable ;;
  if ok then modify (set_dump_file (Holds store)) else ret tt.

(** [_ensure_local_store]: the store the operation then works on. *)
Definition _ensure_local_store : M (list (str * value)) :=
  f <- gets dump_file ;;
  match f with
  | Absent => _save_local_store [] ;;; ret []
  | Unreadable => ret []
  | Holds store => ret store
  end.

(** *** Redis commands, through the client *)

Definition rpush (key : str) (x : str) : M unit :=
  modify (fun w =>
    set_redis_lists (<[key := default [] (redis_lists w !! key) ++ [x]]> (redis_lists w)) w).

Definition llen (key : str) : M nat :=
  gets (fun w => length (default [] (redis_lists w !! key))).

(** [LPOP key count]: [None] for a missing key; a list emptied by the
    pop is removed. *)
Definition lpop (key : str) (count : nat) : M (option (list str)) :=
  l <- gets (fun w => redis_lists w !! key) ;;
  match l with
  | None => ret None
  | Some xs =>
      modify (fun w =>
        set_redis_lists
          (match drop count xs with
           | [] => delete key (redis_lists w)
           | rest => <[key := rest]> (redis_lists w)
           end) w) ;;;
      ret (Some (take count xs))
  end.

Definition lrange_to_end (key : str) (start : Z) : M (list str) :=
  gets (fun w => slice_from start (default [] (redis_lists w !! key))).

(** What the client sends for a field value: text as it is, a number by
    its digits; [None] and booleans are refused with [DataError]. *)
Definition redis_encode (v : value) : M str :=
  match v with
  | VStr s => ret s
  | VInt n => ret (int_repr n)
  | VFloat lit => ret lit
  | _ => raise (Exception (py "DataError") (py "Invalid input"))
  end.

Definition hset (key field : str) (v : value) : M unit :=
  x <- redis_encode v ;;
  modify (fun w =>
    set_redis_hashes
      (<[key := <[field := x]> (default ∅ (redis_hashes w !! key))]> (redis_hashes w)) w).

Definition hget (key field : str) : M (option str) :=
  gets (fun w => default ∅ (redis_hashes w !! key) !! field).

(** [[json.loads(m) for m in raw]]. *)
Fixpoint loads_all (raw : list str) : M (list value) :=
  match raw with
  | [] => ret []
  | m :: rest =>
      match loads m with
      | None => raise (Exception (py "JSONDecodeError") (py "Expecting value"))
      | Some v => vs <- loads_all rest ;; ret (v :: vs)
      end
  end.

(** *** Structured metadata *)

Definition save_metadata (self : WarmMemory) (key : str) (v : value) : M unit :=
  let v := match v with
           | VDict _ | VList _ => VStr (dumps v)
           | _ => v
           end in
  if use_redis self then hset (meta_key self) key v
  else
    store <- _ensure_local_store ;;
    let store := match dict_get store (meta_key self) with
                 | None => dict_set store (meta_key self) (VDict [])
                 | Some _ => store
                 end in
    match dict_get store (meta_key self) with
    | Some (VDict meta) =>
        _save_local_store (dict_set store (meta_key self) (VDict (dict_set meta key v)))
    | _ => raise (Exception (py "TypeError") (py "object does not support item assignment"))
    end.

Definition get_metadata (self : WarmMemory) (key : str) : M value :=
  val <-
    (if use_redis self then
       x <- hget (meta_key self) key ;;
       ret (match x with Some s => VStr s | None => VNull end)
     else
       store <- _ensure_local_store ;;
       match default (VDict []) (dict_get store (meta_key self)) with
       | VDict meta => ret (default VNull (dict_get meta key))
       | _ => raise (Exception (py "AttributeError") (py "object has no attribute 'get'"))
       end) ;;
  match val with
  | VNull => ret VNull
  | VStr s =>
      match loads s with
      | Some v => ret v
      | None => ret val
      end
  | _ => ret val
  end.

(** *** Chat history *)

Definition msg_obj (role content timestamp : str) : value :=
  VDict [(py "role", VStr role); (py "content", VStr content);
         (py "timestamp", VStr timestamp)].

Definition read_clock (E : Env) : M str :=
  n <- gets clock_reads ;;
  modify (set_clock_reads (S n)) ;;;
  ret (now E n).

Definition _pop_oldest_sync (self : WarmMemory) : M (list value) :=
  if use_redis self then
    old_msgs_raw <- lpop (chat_key self) ARCHIVE_BATCH_SIZE ;;
    match old_msgs_raw with
    | None | Some [] => ret []
    | Some raw => loads_all raw
    end
  else
    store <- _ensure_local_store ;;
    match default (VList []) (dict_get store (chat_key self)) with
    | VList all_msgs =>
        let msgs := take ARCHIVE_BATCH_SIZE all_msgs in
        _save_local_store
          (dict_set store (chat_key self) (VList (drop ARCHIVE_BATCH_SIZE all_msgs))) ;;;
        ret msgs
    | _ => raise (Exception (py "TypeError") (py "unhashable type: 'slice'"))
    end.

(** Starting the archival thread: the batch is handed over and the
    caller goes on. *)
Definition start_archiver (msgs : list value) : M unit :=
  modify (fun w => set_archiver_inbox (archiver_inbox w ++ [msgs]) w).

Definition add_message (E : Env) (self : WarmMemory) (role content : str) : M unit :=
  ts <- read_clock E ;;
  let m := msg_obj role content ts in
  current_len <-
    (if use_redis self then
       rpush (chat_key self) (dumps m) ;;;
       llen (chat_key self)
     else
       store <- _ensure_local_store ;;
       let store := match dict_get store (chat_key self) with
                    | None => dict_set store (chat_key self) (VList [])
                    | Some _ => store
                    end in
       match dict_get store (chat_key self) with
       | Some (VList l) =>
           _save_local_store (dict_set store (chat_key self) (VList (l ++ [m]))) ;;;
           ret (length (l ++ [m]))
       | _ => raise (Exception (py "AttributeError") (py "object has no attribute 'append'"))
       end) ;;
  if (ARCHIVE_THRESHOLD <? current_len)%nat then
    msgs_to_archive <- _pop_oldest_sync self ;;
    match msgs_to_archive with
    | [] => ret tt
    | _ => start_archiver msgs_to_archive
    end
  else ret tt.

Definition get_recent_messages (self : WarmMemory) (limit : Z) : M (list value) :=
  if use_redis self then
    raw_msgs <- lrange_to_end (chat_key self) (- limit) ;;
    loads_all raw_msgs
  else
    store <- _ensure_local_store ;;
    match default (VList []) (dict_get store (chat_key self)) with
    | VList l => ret (slice_from (- limit) l)
    | _ => raise (Exception (py "TypeError") (py "unhashable type: 'slice'"))
    end.

Definition clear_session (self : WarmMemory) : M unit :=
  if use_redis self then
    modify (fun w => set_redis_lists (delete (chat_key self) (redis_lists w)) w) ;;;
    modify (fun w => set_redis_hashes (delete (meta_key self) (redis_hashes w)) w)
  else
    store <- _ensure_local_store ;;
    _save_local_store (dict_del (dict_del store (chat_key self)) (meta_key self)).

(** *** Vocabulary of the properties *)

(** The JSON object [_ensure_local_store] loads. *)
Definition store_of (f : DumpFile) : list (str * value) :=
  match f with
  | Holds store => store
  | Absent | Unreadable => []
  end.

(** The queue a session holds: the Redis list is the encoding of [q],
    or the writable dump file has [q] under the chat key (no entry
    stands for the empty queue). *)
Definition held (self : WarmMemory) (w : World) (q : list value) : Prop :=
  if use_redis self then
    default [] (redis_lists w !! chat_key self) = map dumps q
  else
    dump_writable w = true /\
    default (VList []) (dict_get (store_of (dump_file w)) (chat_key self)) = VList q.

(** On Redis every queued message is well formed, so that reading it
    back gives the message. *)
Definition decodable (self : WarmMemory) (q : list value) : Prop :=
  use_redis self = true -> forallb wf q = true.

(** The session is at rest with queue [q]. *)
Definition at_rest (self : WarmMemory) (w : World) (q : list value) : Prop :=
  held self w q /\ decodable self q.

(** The last [n] elements, and what comes before them. *)
Definition lastn {A} (n : nat) (l : list A) : list A := drop (length l - n) l.

Definition window (q : list value) : list value :=
  if (ARCHIVE_THRESHOLD <? length q)%nat then drop ARCHIVE_BATCH_SIZE q else q.

Definition overflow (q : list value) : list (list value) :=
  if (ARCHIVE_THRESHOLD <? length q)%nat then [take ARCHIVE_BATCH_SIZE q] else [].

Definition front {A} (n : nat) (l : list A) : list A := take (length l - n) l.

(** A sequence of [add_message] calls, and the messages it creates when
    the clock has been read [t] times before. *)
Fixpoint add_messages (E : Env) (self : WarmMemory) (calls : list (str * str)) : M unit :=
  match calls with
  | [] => ret tt
  | (role, content) :: rest =>
      add_message E self role content ;;; add_messages E self rest
  end.

Fixpoint stamped (E : Env) (t : nat) (calls : list (str * str)) : list value :=
  match calls with
  | [] => []
  | (role, content) :: rest => msg_obj role content (now E t) :: stamped E (S t) rest
  end.

(** The store is ready for the metadata of a session: on the file
    backend the dump file is writable and the session's entry, when
    there is one, is a dict. *)
Definition meta_ready (self : WarmMemory) (w : World) : Prop :=
  if use_redis self then True
  else dump_writable w = true /\
       exists meta,
         default (VDict []) (dict_get (store_of (dump_file w)) (meta_key self)) = VDict meta.

Definition structured (v : value) : bool :=
  match v with
  | VList _ | VDict _ => true
  | _ => false
  end.

(** What [get_metadata] makes of a stored text. *)
Definition decoded (s : str) : value := default (VStr s) (loads s).

End Warm.

(** ** Workers ([agents/base_agent.py], class [BaseAgent]) *)

Module Agent.

Import Warm.

Record BaseAgent : Type := {
  agent_name : str;
  formatted_system_prompt : str;
  warm_memory : WarmMemory;
  tools_map : list str
}.

(** The tools every agent is given: the expert tools and the chat-log
    search. *)
Definition all_tools : list str :=
  [py "python_interpreter"; py "install_package"; py "chat_log_search"].

(** [BaseAgent(agent_name, template, session_id)], with the system
    prompt as the environment formats it. *)
Definition init (E : Env) (name : str) (sid : str) : BaseAgent :=
  {| agent_name := name;
     formatted_system_prompt := system_prompt E name;
     warm_memory := Warm.init E sid;
     tools_map := all_tools |}.

(** One invocation of a model: the attempt counter advances and the
    environment answers. *)
Definition invoke (E : Env) (t : Target) (messages : list Message)
  : M (Content * list ToolCall) :=
  n <- gets llm_attempts ;;
  modify (set_llm_attempts (S n)) ;;;
  match llm E n t messages with
  | Returned r => ret r
  | Failed e => raise e
  end.

Definition TOOL_ERROR_REPLY : str :=
  py "I encountered a tool error. The requested tool is not available. Please use only: python_interpreter, install_package, or chat_log_search.".

Definition ALL_FAILED : str :=
  py "All LLM providers failed. Please check your API keys or connection.".

Definition providers : list str := [py "gemini"; py "groq"; py "openrouter"].

(** The [for provider in providers] loop of [_robust_invoke]. *)
Fixpoint fallback (E : Env) (ps : list str) (messages : list Message)
  : M (Content * list ToolCall) :=
  match ps with
  | [] => raise (Exception (py "RuntimeError") ALL_FAILED)
  | p :: rest =>
      try_except (invoke E (Provider p) messages)
                 (fun _ _ => fallback E rest messages)
  end.

Definition _robust_invoke (E : Env) (messages : list Message)
  : M (Content * list ToolCall) :=
  try_except (invoke E Current messages)
    (fun _ error_str =>
       if contains (py "tool call validation failed") error_str
          || contains (py "not in request.tools") error_str
       then ret (Text TOOL_ERROR_REPLY, [])
       else fallback E providers messages).

(** The field of a stored message, which must be a string for the
    methods called on it. *)
Definition str_field (msg : value) (k : str) : M str :=
  match msg with
  | VDict d =>
      match dict_get d k with
      | Some (VStr s) => ret s
      | _ => raise (Exception (py "AttributeError") (py "object has no attribute 'lower'"))
      end
  | _ => raise (Exception (py "AttributeError") (py "object has no attribute 'get'"))
  end.

Definition history_entry (msg : value) : M Message :=
  role <- str_field msg (py "role") ;;
  content <- str_field msg (py "content") ;;
  let content :=
    if (3000 <? length content)%nat then take 3000 content ++ py "... [TRUNCATED]"
    else content in
  if bool_decide (lower role = py "user") then ret (HumanMessage content)
  else ret (AIMessage (Text (py "[" ++ role ++ py "]: " ++ content)) []).

Fixpoint history_entries (msgs : list value) : M (list Message) :=
  match msgs with
  | [] => ret []
  | m :: rest =>
      x <- history_entry m ;;
      xs <- history_entries rest ;;
      ret (x :: xs)
  end.

Definition _build_history (self : BaseAgent) : M (list Message) :=
  recent_chat <- get_recent_messages (warm_memory self) 30 ;;
  entries <- history_entries recent_chat ;;
  ret (SystemMessage (formatted_system_prompt self) :: entries).

Definition MAX_LOOPS : nat := 5.

(** [tools_map.get(name) or tools_map.get(name.lower())]. *)
Definition select_tool (self : BaseAgent) (tool_name : str) : option str :=
  if bool_decide (tool_name ∈ tools_map self) then Some tool_name
  else if bool_decide (lower tool_name ∈ tools_map self) then Some (lower tool_name)
  else None.

(** The execution of one requested tool call, as the text fed back. *)
Definition run_tool (E : Env) (self : BaseAgent) (tc : ToolCall) : M str :=
  match select_tool self (tc_name tc) with
  | Some t =>
      try_except
        (n <- gets tool_runs ;;
         modify (set_tool_runs (S n)) ;;;
         match tool E n t (tc_args tc) with
         | Returned out => ret out
         | Failed e => raise e
         end)
        (fun _ e => ret (py "Error executing tool: " ++ e))
  | None => ret (py "Error: Tool " ++ tc_name tc ++ py " not found.")
  end.

(** [for tool_call in ai_msg.tool_calls]: the tool messages appended. *)
Fixpoint run_tools (E : Env) (self : BaseAgent) (tcs : list ToolCall)
  : M (list Message) :=
  match tcs with
  | [] => ret []
  | tc :: rest =>
      tool_output <- run_tool E self tc ;;
      outs <- run_tools E self rest ;;
      ret (ToolMessage tool_output (tc_id tc) :: outs)
  end.

(** The [while ai_msg.tool_calls and loop_count < MAX_LOOPS] loop. *)
Fixpoint tool_loop (E : Env) (fuel : nat) (self : BaseAgent)
    (ai_msg : Content * list ToolCall) (messages : list Message) (loop_count : nat)
  : M (Content * list ToolCall) :=
  if negb (bool_decide (snd ai_msg = [])) && (loop_count <? MAX_LOOPS)%nat then
    match fuel with
    | O => out_of_fuel
    | S fuel' =>
        let loop_count := S loop_count in
        modify (fun w => set_tool_rounds (S (tool_rounds w)) w) ;;;
        outs <- run_tools E self (snd ai_msg) ;;
        let messages := messages ++ outs in
        ai_msg <- _robust_invoke E messages ;;
        let messages := messages ++ [AIMessage (fst ai_msg) (snd ai_msg)] in
        tool_loop E fuel' self ai_msg messages loop_count
    end
  else ret ai_msg.

(** The text of the parts that carry one. *)
Definition part_texts (ps : list Part) : list str :=
  flat_map (fun p => match p with TextPart t => [t] | OtherPart => [] end) ps.

Definition final_text (c : Content) : str :=
  match c with
  | Text s => s
  | Parts ps => join [10] (part_texts ps)
  end.

Definition CROSS_MARK : str := [10060].

Definition run_task (E : Env) (fuel : nat) (self : BaseAgent) (task : str) : M str :=
  add_message E (warm_memory self) (py "User") task ;;;
  messages <- _build_history self ;;
  try_except
    (ai_msg <- _robust_invoke E messages ;;
     let messages := messages ++ [AIMessage (fst ai_msg) (snd ai_msg)] in
     ai_msg <- tool_loop E fuel self ai_msg messages 0 ;;
     let final := final_text (fst ai_msg) in
     add_message E (warm_memory self) (agent_name self) final ;;;
     ret final)
    (fun _ e => ret (CROSS_MARK ++ py " Agent Error: " ++ e)).

(** *** Vocabulary of the properties *)

(** The two outcomes a handler of [Exception] lets through. *)
Inductive Escape : Type := Interrupt | Timeout.

Definition escapes {A} (k : Escape) (r : Result A) : Prop :=
  match k, r with
  | Interrupt, Raise KeyboardInterrupt => True
  | Timeout, OutOfFuel => True
  | _, _ => False
  end.

(** [m] never ends that way. *)
Definition avoids {A} (k : Escape) (m : M A) : Prop :=
  forall w, ~ escapes k (fst (m w)).

(** The world after [m] is related to the world before. *)
Definition preserves {A} (R : World -> World -> Prop) (m : M A) : Prop :=
  forall w, R w (snd (m w)).

(** The relations the frame lemmas are used with. *)
Definition same_rounds (w w' : World) : Prop := tool_rounds w' = tool_rounds w.

Definition same_store (w w' : World) : Prop :=
  redis_lists w' = redis_lists w /\ redis_hashes w' = redis_hashes w /\
  dump_file w' = dump_file w /\ dump_writable w' = dump_writable w /\
  clock_reads w' = clock_reads w /\ archiver_inbox w' = archiver_inbox w.

(** No model invocation and no tool execution is interrupted. *)
Definition calm (E : Env) : Prop :=
  (forall n t msgs, llm E n t msgs <> Failed KeyboardInterrupt) /\
  (forall n name args, tool E n name args <> Failed KeyboardInterrupt).

(** A stored message [_build_history] can read: a dict whose role and
    content are strings. *)
Definition readable (v : value) : bool :=
  match v with
  | VDict d =>
      match dict_get d (py "role"), dict_get d (py "content") with
      | Some (VStr _), Some (VStr _) => true
      | _, _ => false
      end
  | _ => false
  end.

(** The agent's session is at rest and every queued message is
    readable. *)
Definition ready (self : BaseAgent) (w : World) : Prop :=
  exists q, at_rest (warm_memory self) w q /\ forallb readable q = true.

(** The clock returns well-formed text. *)
Definition legible (E : Env) : Prop := forall n, text (now E n) = true.

(** The body of the [try] of [run_task]. *)
Definition task_body (E : Env) (fuel : nat) (self : BaseAgent) (messages : list Message)
  : M str :=
  ai_msg <- _robust_invoke E messages ;;
  let messages := messages ++ [AIMessage (fst ai_msg) (snd ai_msg)] in
  ai_msg <- tool_loop E fuel self ai_msg messages 0 ;;
  let final := final_text (fst ai_msg) in
  add_message E (warm_memory self) (agent_name self) final ;;;
  ret final.

(** The text of an error that [_robust_invoke] answers itself. *)
Definition validation_error (error_str : str) : bool :=
  contains (py "tool call validation failed") error_str
  || contains (py "not in request.tools") error_str.

(** From attempt [n] on, the bound model fails with an error that is not
    a tool-validation error and so does each fallback provider in turn. *)
Definition all_fail (E : Env) (n : nat) (msgs : list Message) : Prop :=
  (exists cls msg, llm E n Current msgs = Failed (Exception cls msg) /\
                   validation_error msg = false) /\
  (exists cls msg, llm E (n + 1) (Provider (py "gemini")) msgs = Failed (Exception cls msg)) /\
  (exists cls msg, llm E (n + 2) (Provider (py "groq")) msgs = Failed (Exception cls msg)) /\
  (exists cls msg,
      llm E (n + 3) (Provider (py "openrouter")) msgs = Failed (Exception cls msg)).

(** Every invocation of every provider fails, and not with a
    tool-validation error. *)
Definition unreachable (E : Env) : Prop :=
  forall n t msgs, exists cls msg,
    llm E n t msgs = Failed (Exception cls msg) /\ validation_error msg = false.

(** Every invocation is answered, whatever the answer. *)
Definition responsive (E : Env) : Prop :=
  forall n t msgs, exists r, llm E n t msgs = Returned r.

(** Every invocation succeeds and asks for at least one tool call. *)
Definition insistent (E : Env) : Prop :=
  forall n t msgs, exists c tcs, llm E n t msgs = Returned (c, tcs) /\ tcs <> [].

End Agent.

(** ** The orchestration graph ([agents/router.py]) *)

Module Router.

Import Agent.

(** [AgentState], each field as [state.get] sees it: [None] for a key
    that is absent.  The fields have the types the [TypedDict] declares;
    a task value of the Router's JSON that is not a string does not
    inhabit them and is read as absent ([as_task]). *)
Record AgentState : Type := {
  user_request : str;
  cleaner_task : option str;
  fe_task : option str;
  viz_task : option str;
  trainer_task : option str;
  messages : list Entry;
  last_agent : option str;
  watcher_status : option str;
  watcher_feedback : option str
}.

(** [if state.get(k):] for a string field. *)
Definition present (t : option str) : bool :=
  match t with
  | Some s => truthy (VStr s)
  | None => false
  end.

(** [f"{x}"] for a string field that may be [None]. *)
Definition fmt (t : option str) : str := default (py "None") t.

(** [str(v)]. *)
Definition py_str (E : Env) (v : value) : str :=
  match v with
  | VStr s => s
  | _ => show E v
  end.

Definition as_task (v : option value) : option str :=
  match v with
  | Some (VStr s) => Some s
  | _ => None
  end.

Definition SHARED_SESSION_ID : str := py "shared_session_v1".

Definition cleaner_agent (E : Env) := Agent.init E (py "Cleaner") SHARED_SESSION_ID.
Definition fe_agent (E : Env) := Agent.init E (py "Feature_Engineer") SHARED_SESSION_ID.
Definition viz_agent (E : Env) := Agent.init E (py "Visualizer") SHARED_SESSION_ID.
Definition trainer_agent (E : Env) := Agent.init E (py "Trainer") SHARED_SESSION_ID.
Definition watcher_agent (E : Env) := Agent.init E (py "Watcher") SHARED_SESSION_ID.

Definition nl : str := [10].
Definition WARNING_SIGN : str := [9888; 65039].
Definition CHECK_MARK : str := [9989].

Definition fail_context (failed_agent watcher_feedback : str) : str :=
  nl ++ py "### " ++ WARNING_SIGN ++ py " CRITICAL: WATCHER FAIL VERDICT" ++ nl ++
  py "The Watcher agent flagged the previous work as FAILED." ++ nl ++
  py "- Failed Agent: " ++ failed_agent ++ nl ++
  py "- Feedback: " ++ watcher_feedback ++ nl ++ nl ++
  py "YOU MUST reassign the task to " ++ failed_agent ++ py " with corrections." ++ nl ++
  py "DO NOT say " ++ [34] ++ py "already complete" ++ [34] ++
  py ". The Watcher verdict OVERRIDES your judgment." ++ nl.

(** The state after the framework has merged what a node returned: a
    returned key replaces the old value, [messages] is extended. *)
Definition with_tasks (st : AgentState) (c f v t : option str) (new : list Entry)
  : AgentState :=
  {| user_request := user_request st;
     cleaner_task := c; fe_task := f; viz_task := v; trainer_task := t;
     messages := messages st ++ new;
     last_agent := last_agent st;
     watcher_status := watcher_status st;
     watcher_feedback := watcher_feedback st |}.

Definition with_result (st : AgentState) (new : list Entry) (last : option str)
  : AgentState :=
  {| user_request := user_request st;
     cleaner_task := cleaner_task st; fe_task := fe_task st;
     viz_task := viz_task st; trainer_task := trainer_task st;
     messages := messages st ++ new;
     last_agent := last;
     watcher_status := watcher_status st;
     watcher_feedback := watcher_feedback st |}.

Definition with_verdict (st : AgentState) (status feedback : str) : AgentState :=
  {| user_request := user_request st;
     cleaner_task := cleaner_task st; fe_task := fe_task st;
     viz_task := viz_task st; trainer_task := trainer_task st;
     messages := messages st;
     last_agent := last_agent st;
     watcher_status := Some status;
     watcher_feedback := Some feedback |}.

(** The two messages [router_node] sends to the Router model. *)
Definition router_prompt (E : Env) (state : AgentState) : list (str * str) :=
  let request := user_request state in
  let watcher_feedback := default [] (watcher_feedback state) in
  let failed_agent := default (py "unknown") (last_agent state) in
  let fail_context :=
    if bool_decide (watcher_status state = Some (py "FAIL"))
    then fail_context failed_agent watcher_feedback else [] in
  let history := join nl (map (show_entry E) (messages state)) in
  let system_prompt :=
    router_system_prompt E ++ fail_context ++ nl ++ nl ++
    py "CRITICAL: YOU MUST WRAP YOUR OUTPUT IN ```json ... ```" in
  [(py "system", system_prompt);
   (py "user",
    py "Request: " ++ request ++ nl ++ nl ++
    py "Existing Execution History (Do NOT re-run completed tasks unless failed):" ++
    nl ++ history)].

(** [router_node].  Besides the merged state, the result carries the
    [chat_response] the node prints. *)
Definition router_node (E : Env) (state : AgentState) : M (value * AgentState) :=
  n <- gets llm_attempts ;;
  modify (set_llm_attempts (S n)) ;;;
  content <- match router_llm E n (router_prompt E state) with
             | Returned c => ret c
             | Failed e => raise e
             end ;;
  parsed <-
    try_except
      (match repair_json E content with
       | Returned (VDict tasks) =>
           ret (default (VStr (CHECK_MARK ++ py " Task delegated or completed."))
                        (dict_get tasks (py "chat_response")),
                dict_del tasks (py "chat_response"))
       | Returned (VList _) =>
           raise (Exception (py "TypeError") (py "pop expected at most 1 argument, got 2"))
       | Returned _ =>
           raise (Exception (py "AttributeError") (py "object has no attribute 'pop'"))
       | Failed e => raise e
       end)
      (fun _ _ => ret (VStr (strip content), [])) ;;
  let '(chat_response, tasks) := parsed in
  ret (chat_response,
       with_tasks state
         (as_task (dict_get tasks (py "cleaner_task")))
         (as_task (dict_get tasks (py "fe_task")))
         (as_task (dict_get tasks (py "viz_task")))
         (as_task (dict_get tasks (py "trainer_task")))
         [AI (py "Router Decision: " ++ show E (VDict tasks))]).

Definition INTERRUPTED_TASK : str := py "Task interrupted by user.".

(** [run_agent_safely(agent_func, task, state)]. *)
Definition run_agent_safely (agent_func : str -> M str) (task : str)
    (state : AgentState) : M str :=
  try_interrupt
    (let task :=
       if bool_decide (watcher_status state = Some (py "RETRY"))
       then py "FEEDBACK_FROM_WATCHER: " ++ fmt (watcher_feedback state) ++ nl ++ nl ++
            py "ORIGINAL_TASK: " ++ task
       else task in
     agent_func task)
    (ret INTERRUPTED_TASK).

(** The task a node runs: [None] when [if not task: return {}] fires. *)
Definition runnable (t : option str) : option str :=
  if present t then t else None.

Definition cleaner_node (E : Env) (fuel : nat) (state : AgentState) : M AgentState :=
  match runnable (cleaner_task state) with
  | None => ret state
  | Some task =>
      result <- run_agent_safely (run_task E fuel (cleaner_agent E)) task state ;;
      ret (with_result state [AI (py "Cleaner: " ++ result)] (Some (py "cleaner")))
  end.

Definition fe_node (E : Env) (fuel : nat) (state : AgentState) : M AgentState :=
  match runnable (fe_task state) with
  | None => ret state
  | Some task =>
      result <- run_agent_safely (run_task E fuel (fe_agent E)) task state ;;
      ret (with_result state [AI (py "FE: " ++ result)] (Some (py "feature_engineer")))
  end.

Definition viz_node (E : Env) (fuel : nat) (state : AgentState) : M AgentState :=
  match runnable (viz_task state) with
  | None => ret state
  | Some task =>
      result <- run_agent_safely (run_task E fuel (viz_agent E)) task state ;;
      ret (with_result state [AI (py "Visualizer: " ++ result)] (last_agent state))
  end.

Definition trainer_node (E : Env) (fuel : nat) (state : AgentState) : M AgentState :=
  match runnable (trainer_task state) with
  | None => ret state
  | Some task =>
      result <- run_agent_safely (run_task E fuel (trainer_agent E)) task state ;;
      ret (with_result state [AI (py "Trainer: " ++ result)] (last_agent state))
  end.

Definition entry_content (m : Entry) : str :=
  match m with
  | Human c => c
  | AI c => c
  end.

Definition UNPARSEABLE_NOTE : str :=
  py "Watcher output unparseable, defaulting to PASS.".

(** The content of the last transcript entry, which the Watcher reviews. *)
Definition last_agent_output (state : AgentState) : str :=
  match last (messages state) with
  | Some m => entry_content m
  | None => []
  end.

(** [watcher_node].  [watcher_feedback] is a field declared [str]: a
    feedback of another type is kept as its text. *)
Definition watcher_node (E : Env) (fuel : nat) (state : AgentState) : M AgentState :=
  review <-
    try_interrupt
      (r <- run_task E fuel (watcher_agent E)
              (py "Review this output: " ++ last_agent_output state) ;;
       ret (Some r))
      (ret None) ;;
  match review with
  | None =>
      ret (with_verdict state (py "INTERRUPTED") (py "Watcher interrupted by user."))
  | Some review =>
      cleaned_review <-
        try_except
          (match repair_json E review with
           | Returned v => ret (Some v)
           | Failed e => raise e
           end)
          (fun _ _ => ret None) ;;
      match cleaned_review with
      | None => ret (with_verdict state (py "PASS") UNPARSEABLE_NOTE)
      | Some (VDict d) =>
          status <-
            match dict_get d (py "status") with
            | None => ret (upper (py "PASS"))
            | Some (VStr s) => ret (upper s)
            | Some _ =>
                raise (Exception (py "AttributeError") (py "object has no attribute 'upper'"))
            end ;;
          let feedback :=
            py_str E (default (VStr (py "No feedback provided.")) (dict_get d (py "feedback"))) in
          let status := if bool_decide (status = py "RETRY") then py "FAIL" else status in
          if bool_decide (status = py "FAIL") then ret (with_verdict state (py "FAIL") feedback)
          else if bool_decide (status = py "WARN") then
            ret (with_verdict state (py "WARN") feedback)
          else ret (with_verdict state (py "PASS") feedback)
      | Some _ =>
          raise (Exception (py "AttributeError") (py "object has no attribute 'get'"))
      end
  end.

(** *** Edges *)

(** What a routing function returns: one node name, or a list of them. *)
Inductive Route : Type :=
| Goto (node : str)
| FanOut (nodes : list str).

Definition END : str := py "__end__".

Definition route_after_router (state : AgentState) : Route :=
  if present (cleaner_task state) then Goto (py "cleaner")
  else if present (fe_task state) then Goto (py "feature_engineer")
  else if present (viz_task state) then Goto (py "visualizer")
  else if present (trainer_task state) then Goto (py "trainer")
  else Goto END.

Definition route_after_watcher (state : AgentState) : Route :=
  let watcher_status := watcher_status state in
  let last := last_agent state in
  if bool_decide (watcher_status = Some (py "FAIL")) then Goto (py "router")
  else if bool_decide (last = Some (py "cleaner")) && present (fe_task state)
  then Goto (py "feature_engineer")
  else if bool_decide (last = Some (py "cleaner"))
          || bool_decide (last = Some (py "feature_engineer"))
  then
    let next_nodes :=
      (if present (viz_task state) then [py "visualizer"] else []) ++
      (if present (trainer_task state) then [py "trainer"] else []) in
    match next_nodes with
    | [] => Goto END
    | _ => FanOut next_nodes
    end
  else Goto END.

(** *** Vocabulary of the properties *)

(** The node names a route schedules. *)
Definition scheduled (r : Route) : list str :=
  match r with
  | Goto n => [n]
  | FanOut ns => ns
  end.

(** A worker run on the task as it stands. *)
Definition run_bare (agent_func : str -> M str) (task : str) : M str :=
  try_interrupt (agent_func task) (ret INTERRUPTED_TASK).

(** The task with the Watcher's feedback in front of it. *)
Definition wrapped (feedback : option str) (task : str) : str :=
  py "FEEDBACK_FROM_WATCHER: " ++ fmt feedback ++ nl ++ nl ++ py "ORIGINAL_TASK: " ++ task.

(** The verdicts [watcher_node] writes into the state. *)
Definition VERDICTS : list str := [py "INTERRUPTED"; py "PASS"; py "FAIL"; py "WARN"].

(** The repair gave no task object: it raised an exception, or what it
    returned is not a dict. *)
Definition unparsed (r : Reply value) : bool :=
  match r with
  | Returned (VDict _) => false
  | Returned _ => true
  | Failed (Exception _ _) => true
  | Failed KeyboardInterrupt => false
  end.

End Router.

(** ** Sample environments and states *)

Module Samples.

Import Warm Agent Router.

(** A clock that always reads the same instant. *)
Definition fixed_clock (n : nat) : str := py "2025-01-01T00:00:00".

(** [json_repair] reduced to the strict decoder: it raises on any text
    that is not a JSON document. *)
Definition strict_repair (s : str) : Reply value :=
  match loads s with
  | Some v => Returned v
  | None => Failed (Exception (py "ValueError") (py "no JSON found"))
  end.

Definition sample_entry_text (m : Entry) : str :=
  match m with
  | Human c => py "human: " ++ c
  | AI c => py "ai: " ++ c
  end.

Definition sample_call : ToolCall :=
  {| tc_name := py "python_interpreter";
     tc_args := VDict [(py "code", VStr (py "print(df.shape)"))];
     tc_id := py "call_1" |}.

(** Every provider is unreachable; the Router answers in prose. *)
Definition offline : Env :=
  {| now := fixed_clock;
     llm := fun _ _ _ => Failed (Exception (py "ConnectionError") (py "connection refused"));
     tool := fun _ _ _ => Returned (py "(100, 4)");
     router_llm := fun _ _ => Returned (py " Hello there ");
     repair_json := strict_repair;
     show := dumps;
     show_entry := sample_entry_text;
     system_prompt := fun name => py "You are " ++ name;
     router_system_prompt := py "You are the Router";
     redis_up := true |}.

(** A model that asks for a tool call in every response. *)
Definition tool_hungry : Env :=
  {| now := fixed_clock;
     llm := fun n _ _ => Returned (Text (py "round " ++ int_repr (Z.of_nat n)), [sample_call]);
     tool := fun _ _ _ => Returned (py "(100, 4)");
     router_llm := fun _ _ => Returned (py " Hello there ");
     repair_json := strict_repair;
     show := dumps;
     show_entry := sample_entry_text;
     system_prompt := fun name => py "You are " ++ name;
     router_system_prompt := py "You are the Router";
     redis_up := false |}.

(** A model that answers in prose and asks for nothing. *)
Definition plain_spoken : Env :=
  {| now := fixed_clock;
     llm := fun _ _ _ => Returned (Text (py "Looks fine to me."), []);
     tool := fun _ _ _ => Returned (py "(100, 4)");
     router_llm := fun _ _ => Returned (py " Hello there ");
     repair_json := strict_repair;
     show := dumps;
     show_entry := sample_entry_text;
     system_prompt := fun name => py "You are " ++ name;
     router_system_prompt := py "You are the Router";
     redis_up := true |}.

(** Nothing stored anywhere, every file writable. *)
Definition fresh : World :=
  {| clock_reads := 0; llm_attempts := 0; tool_runs := 0; tool_rounds := 0;
     redis_lists := ∅; redis_hashes := ∅;
     dump_file := Absent; dump_writable := true;
     hot_file := NoHotFile; hot_writable := true;
     archiver_inbox := [] |}.

Definition redis_session : WarmMemory := {| session_id := py "s1"; use_redis := true |}.
Definition file_session : WarmMemory := {| session_id := py "s1"; use_redis := false |}.

(** Eleven calls [add_message("User", "m0")] ... [add_message("User", "m10")]. *)
Definition eleven_calls : list (str * str) :=
  map (fun c => (py "User", c))
      [py "m0"; py "m1"; py "m2"; py "m3"; py "m4"; py "m5";
       py "m6"; py "m7"; py "m8"; py "m9"; py "m10"].

Definition sample_message (content : str) : value :=
  msg_obj (py "User") content (py "2025-01-01T00:00:00").

Definition failed_state : AgentState :=
  {| user_request := py "plot sales";
     cleaner_task := Some (py "drop nulls");
     fe_task := Some (py "add ratio");
     viz_task := Some (py "bar chart");
     trainer_task := Some (py "fit model");
     messages := [Human (py "plot sales"); AI (py "Cleaner: Traceback")];
     last_agent := Some (py "cleaner");
     watcher_status := Some (py "FAIL");
     watcher_feedback := Some (py "traceback present") |}.

(** The Cleaner has just passed review while the Feature Engineer, the
    Visualizer and the Trainer all have a task. *)
Definition cleaner_passed_state : AgentState :=
  {| user_request := py "plot sales";
     cleaner_task := Some (py "drop nulls");
     fe_task := Some (py "add ratio");
     viz_task := Some (py "bar chart");
     trainer_task := Some (py "fit model");
     messages := [Human (py "plot sales"); AI (py "Cleaner: saved clean_data.parquet")];
     last_agent := Some (py "cleaner");
     watcher_status := Some (py "PASS");
     watcher_feedback := Some (py "ok") |}.

Definition fe_passed_state : AgentState :=
  {| user_request := py "plot sales";
     cleaner_task := Some (py "drop nulls");
     fe_task := Some (py "add ratio");
     viz_task := Some (py "bar chart");
     trainer_task := Some (py "fit model");
     messages := [Human (py "plot sales"); AI (py "FE: saved engineered_data.parquet")];
     last_agent := Some (py "feature_engineer");
     watcher_status := Some (py "PASS");
     watcher_feedback := Some (py "ok") |}.

(** A request that has just entered the graph. *)
Definition initial_state : AgentState :=
  {| user_request := py "hello";
     cleaner_task := None; fe_task := None; viz_task := None; trainer_task := None;
     messages := [Human (py "hello")];
     last_agent := None;
     watcher_status := Some (py "PASS");
     watcher_feedback := Some [] |}.

End Samples.
(** ** Vocabulary of the further properties *)

Module Sessions.

Import Warm.

(** What an operation on the queue of [self] leaves alone: every other
    Redis list, every Redis hash, every other entry of the dump file,
    and the hot-memory file. *)
Definition elsewhere (self : WarmMemory) (w w' : World) : Prop :=
  (forall k, k <> chat_key self -> redis_lists w' !! k = redis_lists w !! k) /\
  redis_hashes w' = redis_hashes w /\
  (forall k, k <> chat_key self ->
     dict_get (store_of (dump_file w')) k = dict_get (store_of (dump_file w)) k) /\
  dump_writable w' = dump_writable w /\
  hot_file w' = hot_file w.

(** The dump file, when the session uses it, is writable and holds an
    object (whose keys are distinct). *)
Definition file_ready (self : WarmMemory) (w : World) : Prop :=
  use_redis self = false ->
  dump_writable w = true /\ distinct (map fst (store_of (dump_file w))) = true.

End Sessions.

Module Workers.

Import Warm Agent.

(** A history entry as [_build_history] cuts it: at most 3000
    characters of the stored content and the 15 of the mark, after the
    label of the role for a message that is not the user's. *)
Definition clipped (m : Message) : Prop :=
  match m with
  | HumanMessage c => (length c <= 3015)%nat
  | AIMessage (Text c) [] =>
      exists role body, c = py "[" ++ role ++ py "]: " ++ body /\ (length body <= 3015)%nat
  | _ => False
  end.

(** The target of the [j]-th attempt of [_robust_invoke]: the bound
    model, then the providers in their order. *)
Definition target_of (j : nat) : Target :=
  match j with
  | O => Current
  | S i => Provider (nth i providers [])
  end.

(** The [j]-th attempt, counted from attempt [n], fails with an
    exception. *)
Definition fails_at (E : Env) (n : nat) (msgs : list Message) (j : nat) : Prop :=
  exists cls msg, llm E (n + j) (target_of j) msgs = Failed (Exception cls msg).

(** The two messages a completed [run_task] logs. *)
Definition user_entry (E : Env) (task : str) (w : World) : value :=
  msg_obj (py "User") task (now E (clock_reads w)).

Definition agent_entry (E : Env) (self : BaseAgent) (answer : str) (w : World) : value :=
  msg_obj (agent_name self) answer (now E (S (clock_reads w))).

End Workers.

Module Graph.

Import Warm Agent Router.

(** The system message of the Router's prompt. *)
Definition router_system_message (E : Env) (st : AgentState) : str :=
  match router_prompt E st with
  | (_, system_prompt) :: _ => system_prompt
  | [] => []
  end.

(** The nodes an edge out of the Watcher can name. *)
Definition AFTER_WATCHER : list str :=
  [py "router"; py "feature_engineer"; py "visualizer"; py "trainer"; END].

(** The nodes an edge out of the Router can name. *)
Definition AFTER_ROUTER : list str :=
  [py "cleaner"; py "feature_engineer"; py "visualizer"; py "trainer"; END].

(** The verdict [watcher_node] derives from the status of a parsed
    review. *)
Inductive Verdict : Type := Pass | Warn | Fail.

Definition verdict_name (v : Verdict) : str :=
  match v with
  | Pass => py "PASS"
  | Warn => py "WARN"
  | Fail => py "FAIL"
  end.

(** The review the Watcher is asked for. *)
Definition review_task (st : AgentState) : str :=
  py "Review this output: " ++ last_agent_output st.

(** The result is anything but an interrupt. *)
Definition uninterrupted {A} (r : Result A) : bool :=
  match r with
  | Raise KeyboardInterrupt => false
  | _ => true
  end.

End Graph.

(** ** The code guard and the installer ([tools/expert_crew_tools.py]) *)

Module Tools.

(** What [validate_code] reads of a node of the syntax tree:
    - [KImport names]: an [ast.Import] and the names it imports;
    - [KImportFrom module]: an [ast.ImportFrom] and its [module], [None]
      for a relative import without one;
    - [KCall attr]: an [ast.Call]; [attr] is [node.func.attr] when
      [node.func] is an [ast.Attribute];
    - [KKeyword arg is_true]: an [ast.keyword], its [arg] ([None] for
      [**kwargs]) and whether [node.value.value is True];
    - [KOther]: any other node. *)
Inductive Kind : Type :=
| KImport (names : list str)
| KImportFrom (module : option str)
| KCall (attr : option str)
| KKeyword (arg : option str) (is_true : bool)
| KOther.

(** A node with its child nodes, in the order of
    [ast.iter_child_nodes]. *)
#[warnings="-register-all"] Inductive Node : Type :=
| Nd (kind : Kind) (children : list Node).

Definition kind_of (n : Node) : Kind := match n with Nd k _ => k end.
Definition children_of (n : Node) : list Node := match n with Nd _ cs => cs end.

(** How [ast.parse] ends: a tree, a [SyntaxError] (or a subclass of
    it), or another exception. *)
Inductive Parse : Type :=
| Parsed (tree : Node)
| SyntaxError (msg : str)
| Crashed (e : exn).

Fixpoint size (t : Node) : nat :=
  match t with
  | Nd _ cs => S ((fix sizes (l : list Node) : nat :=
                     match l with
                     | [] => 0%nat
                     | c :: r => (size c + sizes r)%nat
                     end) cs)
  end.

(** [ast.walk]: the node at the head of the queue is yielded and its
    children join the queue at the back.  The budget counts the nodes
    still to yield. *)
Fixpoint walk_fuel (fuel : nat) (todo : list Node) : list Node :=
  match fuel, todo with
  | S fuel', node :: rest => node :: walk_fuel fuel' (rest ++ children_of node)
  | _, _ => []
  end.

Definition walk (tree : Node) : list Node := walk_fuel (size tree) [tree].

Definition FORBIDDEN_MODULES : list str :=
  [py "os"; py "subprocess"; py "shutil"; py "sys"].

Definition DESTRUCTIVE_KEYWORDS : list str :=
  [py "drop"; py "delete"; py "remove"; py "truncate"].

(** [module.split('.')[0]]. *)
Fixpoint before_dot (s : str) : str :=
  match s with
  | [] => []
  | c :: r => if c =? 46 then [] else c :: before_dot r
  end.

(** [module and module.split('.')[0] in FORBIDDEN_MODULES]. *)
Definition restricted (module : option str) : bool :=
  match module with
  | Some m => negb (bool_decide (m = [])) && bool_decide (before_dot m ∈ FORBIDDEN_MODULES)
  | None => false
  end.

Definition NO_ENTRY : str := [128683].
Definition WARNING : str := [9888; 65039].

(** [for module in modules]: the answer for the first restricted one. *)
Fixpoint check_modules (modules : list (option str)) : option (bool * str) :=
  match modules with
  | [] => None
  | module :: rest =>
      if restricted module then
        Some (false, NO_ENTRY ++ py " Security Violation: Importing '" ++
                     default [] module ++ py "' is restricted.")
      else check_modules rest
  end.

(** The body of the loop over the nodes: [Some] answer when the node
    makes [validate_code] return. *)
Definition check_node (allow_destructive : bool) (node : Node) : option (bool * str) :=
  match kind_of node with
  | KImport names => check_modules (map Some names)
  | KImportFrom module => check_modules [module]
  | KCall (Some attr) =>
      if negb allow_destructive && bool_decide (attr ∈ DESTRUCTIVE_KEYWORDS)
      then Some (true, WARNING ++ py " Potential mutation detected: '" ++ attr ++ py "'")
      else None
  | KKeyword arg is_true =>
      if bool_decide (arg = Some (py "inplace")) && is_true
      then Some (true, WARNING ++ py " 'inplace=True' detected")
      else None
  | _ => None
  end.

Fixpoint scan (allow_destructive : bool) (nodes : list Node) : option (bool * str) :=
  match nodes with
  | [] => None
  | node :: rest =>
      match check_node allow_destructive node with
      | Some answer => Some answer
      | None => scan allow_destructive rest
      end
  end.

(** [validate_code(code, allow_destructive)], over the parser. *)
Definition validate_code (parse : str -> Parse) (code : str) (allow_destructive : bool)
  : Reply (bool * str) :=
  match parse code with
  | SyntaxError e => Returned (false, py "Syntax Error: " ++ e)
  | Crashed e => Failed e
  | Parsed tree =>
      match scan allow_destructive (walk tree) with
      | Some answer => Returned answer
      | None =>
          if contains (py "exec(") code || contains (py "eval(") code
          then Returned (false, NO_ENTRY ++
                         py " Security Violation: 'exec' and 'eval' are strictly forbidden.")
          else Returned (true, [])
      end
  end.

(** *** [install_package] *)

(** The terminal and the package installer: [user_input n] is the
    [n]-th [input()], [pip package n] is the [n]-th
    [subprocess.check_call] of [pip install package]. *)
Record Shell : Type := {
  user_input : nat -> Reply str;
  pip : nat -> str -> Reply unit
}.

Record Desk : Type := {
  inputs_read : nat;
  pip_runs : list str
}.

Definition install_package (sh : Shell) (package_name : str) (d : Desk)
  : Result str * Desk :=
  let d1 := {| inputs_read := S (inputs_read d); pip_runs := pip_runs d |} in
  match user_input sh (inputs_read d) with
  | Failed e => (Raise e, d1)
  | Returned answer =>
      let user_confirm := lower (strip answer) in
      if negb (bool_decide (user_confirm = py "y")) then
        (Ok (py "User denied installation of package '" ++ package_name ++ py "'."), d1)
      else
        let d2 := {| inputs_read := inputs_read d1;
                     pip_runs := pip_runs d1 ++ [package_name] |} in
        match pip sh (length (pip_runs d1)) package_name with
        | Returned _ => (Ok (py "Successfully installed '" ++ package_name ++ py "'."), d2)
        | Failed KeyboardInterrupt => (Raise KeyboardInterrupt, d2)
        | Failed (Exception cls e) =>
            if bool_decide (cls = py "CalledProcessError")
            then (Ok (py "Failed to install '" ++ package_name ++ py "'. Error: " ++ e), d2)
            else (Ok (py "Error installing package: " ++ e), d2)
        end
  end.

(** *** Vocabulary of the properties *)

(** Every node of a tree, the root first. *)
Fixpoint nodes (t : Node) : list Node :=
  match t with
  | Nd _ cs => t :: (fix all (l : list Node) : list Node :=
                       match l with
                       | [] => []
                       | c :: r => nodes c ++ all r
                       end) cs
  end.

(** The node imports a restricted module. *)
Definition imports_restricted (n : Node) : bool :=
  match kind_of n with
  | KImport names => existsb (fun m => restricted (Some m)) names
  | KImportFrom module => restricted module
  | _ => false
  end.

(** The node is a call of a method with a destructive name. *)
Definition calls_destructive (n : Node) : bool :=
  match kind_of n with
  | KCall (Some attr) => bool_decide (attr ∈ DESTRUCTIVE_KEYWORDS)
  | _ => false
  end.

(** The node is the keyword argument [inplace=True]. *)
Definition sets_inplace (n : Node) : bool :=
  match kind_of n with
  | KKeyword arg is_true => bool_decide (arg = Some (py "inplace")) && is_true
  | _ => false
  end.

End Tools.

(** ** Effects over any state *)

(** The monad of effectful code again, for the components whose state
    is not the [World] of the memory tiers. *)
Module Eff.

Definition St (S A : Type) : Type := S -> Result A * S.

Definition pure {S A} (a : A) : St S A := fun s => (Ok a, s).

Definition and_then {S A B} (m : St S A) (k : A -> St S B) : St S B :=
  fun s =>
    match m s with
    | (Ok a, s') => k a s'
    | (Raise e, s') => (Raise e, s')
    | (OutOfFuel, s') => (OutOfFuel, s')
    end.

Definition throw {S A} (e : exn) : St S A := fun s => (Raise e, s).

(** [try: m  except Exception as e: h e]. *)
Definition rescue {S A} (m : St S A) (h : str -> str -> St S A) : St S A :=
  fun s =>
    match m s with
    | (Raise (Exception cls msg), s') => h cls msg s'
    | r => r
    end.

Definition peek {S A} (f : S -> A) : St S A := fun s => (Ok (f s), s).

Definition poke {S} (f : S -> S) : St S unit := fun s => (Ok tt, f s).

Declare Scope eff_scope.
Delimit Scope eff_scope with eff.
Notation "x <- c1 ;; c2" := (and_then c1 (fun x => c2))
  (at level 100, c1 at next level, right associativity) : eff_scope.
Notation "c1 ;;; c2" := (and_then c1 (fun _ => c2))
  (at level 100, right associativity) : eff_scope.

End Eff.

(** ** Cold memory ([utils/qdrant_setup.py] and the archiver of
    [utils/memory_manager.py]) *)

Module Cold.

Import Json Eff.
Local Open Scope eff_scope.

(** An element of the [content] of an MCP result: one with a [text]
    attribute, or anything else, known by its [str()]. *)
Inductive Item : Type :=
| TextItem (text : str)
| OtherItem (shown : str).

(** What [run_tool_sync] returns: its [content] when it has one that is
    a list, and its [str()]. *)
Record McpResult : Type := {
  content : option (list Item);
  shown : str
}.

(** The services the archiver talks to: [mcp n tool arguments] is the
    [n]-th [mcp_wrapper.run_tool_sync], [logger n prompt] the content of
    the response to the [n]-th [Logger.invoke], [stamp n] the [n]-th
    [datetime.now().isoformat()], [render v] is [str(v)] for an object
    that is not a string, [shout s] is [s.lower().upper()] for a string
    with a character outside ASCII. *)
Record Cloud : Type := {
  mcp : nat -> str -> value -> Reply McpResult;
  logger : nat -> str -> Reply value;
  stamp : nat -> str;
  render : value -> str;
  shout : str -> str
}.

(** The calls made so far. *)
Record Vault : Type := {
  mcp_calls : list (str * value);
  logger_calls : nat;
  stamps_read : nat
}.

Definition run_tool_sync (cl : Cloud) (tool_name : str) (arguments : value)
  : St Vault McpResult :=
  n <- peek (fun v => length (mcp_calls v)) ;;
  poke (fun v => {| mcp_calls := mcp_calls v ++ [(tool_name, arguments)];
                    logger_calls := logger_calls v; stamps_read := stamps_read v |}) ;;;
  match mcp cl n tool_name arguments with
  | Returned r => pure r
  | Failed e => throw e
  end.

Definition invoke_logger (cl : Cloud) (prompt : str) : St Vault value :=
  n <- peek logger_calls ;;
  poke (fun v => {| mcp_calls := mcp_calls v; logger_calls := S n;
                    stamps_read := stamps_read v |}) ;;;
  match logger cl n prompt with
  | Returned r => pure r
  | Failed e => throw e
  end.

Definition now_isoformat (cl : Cloud) : St Vault str :=
  n <- peek stamps_read ;;
  poke (fun v => {| mcp_calls := mcp_calls v; logger_calls := logger_calls v;
                    stamps_read := S n |}) ;;;
  pure (stamp cl n).

(** [msg.get(k, default)]. *)
Definition get_or (msg : value) (k : str) (fallback : value) : St Vault value :=
  match msg with
  | VDict d => pure (default fallback (dict_get d k))
  | _ => throw (Exception (py "AttributeError") (py "object has no attribute 'get'"))
  end.

(** The receiver of [v.lower()]: a string. *)
Definition as_text (v : value) : St Vault str :=
  match v with
  | VStr s => pure s
  | _ => throw (Exception (py "AttributeError") (py "object has no attribute 'lower'"))
  end.

(** [role.upper()] for [role = raw.lower()]. *)
Definition tag_of (cl : Cloud) (raw : str) : str :=
  if forallb (fun c => c <? 128) raw then upper (lower raw) else shout cl raw.

(** [msg[k] = v]. *)
Definition set_item (msg : value) (k : str) (v : value) : St Vault value :=
  match msg with
  | VDict d => pure (VDict (dict_set d k v))
  | _ => throw (Exception (py "TypeError") (py "object does not support item assignment"))
  end.

(** An object inside an f-string. *)
Definition fmt_value (cl : Cloud) (v : value) : str :=
  match v with
  | VStr s => s
  | _ => render cl v
  end.

Definition AGENT_ROLES : list str :=
  [py "ai"; py "assistant"; py "contextor"; py "analyst"].

Definition CHAT_LOGS : str := py "chat_logs_mcp".

Definition store_arguments (information collection : str) : value :=
  VDict [(py "information", VStr information); (py "collection_name", VStr collection)].

Definition find_arguments (query collection : str) : value :=
  VDict [(py "query", VStr query); (py "collection_name", VStr collection)].

(** The text of one record:
    [[time_stamp, user_query, agent, agent_response, summary]]. *)
Definition memory_text (cl : Cloud) (timestamp user_query agent_name agent_response summary : value)
  : str :=
  py "[" ++ fmt_value cl timestamp ++ py ", " ++ fmt_value cl user_query ++ py ", " ++
  fmt_value cl agent_name ++ py ", " ++ fmt_value cl agent_response ++ py ", " ++
  fmt_value cl summary ++ py "]".

(** The [while i < len(conversations)] loop of [log_batch_chat], on
    what is left of the list: an iteration consumes one message, or two
    when it pairs a user message with the agent's that follows. *)
Fixpoint log_loop (cl : Cloud) (default_agent : str) (conversations : list value)
    (count : nat) (errors : list str) : St Vault (nat * list str) :=
  match conversations with
  | [] => pure (count, errors)
  | msg :: rest =>
      role_value <- get_or msg (py "role") (VStr (py "unknown")) ;;
      raw <- as_text role_value ;;
      let role := lower raw in
      content <- get_or msg (py "content") (VStr []) ;;
      fallback_stamp <- now_isoformat cl ;;
      timestamp <- get_or msg (py "timestamp") (VStr fallback_stamp) ;;
      summary <- get_or msg (py "summary") (VStr []) ;;
      paired <-
        (if bool_decide (role = py "user") then
           match rest with
           | [] => pure None
           | next_msg :: _ =>
               next_value <- get_or next_msg (py "role") (VStr []) ;;
               next_raw <- as_text next_value ;;
               if bool_decide (lower next_raw ∈ AGENT_ROLES) then
                 agent_response <- get_or next_msg (py "content") (VStr []) ;;
                 agent_name <- get_or next_msg (py "role") (VStr default_agent) ;;
                 summary <- (if negb (truthy summary)
                             then get_or next_msg (py "summary") (VStr [])
                             else pure summary) ;;
                 pure (Some (agent_name, agent_response, summary))
               else pure None
           end
         else pure None) ;;
      let '(user_query, agent_name, agent_response, summary) :=
        match paired with
        | Some (agent_name, agent_response, summary) =>
            (content, agent_name, agent_response, summary)
        | None =>
            if bool_decide (role = py "user") then
              (content, VStr default_agent, VStr [], summary)
            else if bool_decide (role ∈ AGENT_ROLES) then
              (VStr [], VStr role, content, summary)
            else
              (VStr (py "[" ++ tag_of cl raw ++ py "] " ++ fmt_value cl content),
               VStr default_agent, VStr [], summary)
        end in
      let text := memory_text cl timestamp user_query agent_name agent_response summary in
      outcome <-
        rescue (run_tool_sync cl (py "qdrant-store") (store_arguments text CHAT_LOGS) ;;;
                pure (S count, errors))
               (fun _ e => pure (count, errors ++ [e])) ;;
      log_loop cl default_agent
        (match paired with
         | Some _ => match rest with [] => rest | _ :: rest' => rest' end
         | None => rest
         end)
        (fst outcome) (snd outcome)
  end.

Definition log_batch_chat (cl : Cloud) (conversations : list value) (default_agent : str)
  : St Vault value :=
  outcome <- log_loop cl default_agent conversations 0 [] ;;
  let '(count, errors) := outcome in
  pure (VDict [(py "status",
                VStr (match errors with [] => py "ok" | _ => py "partial_error" end));
               (py "count", VInt (Z.of_nat count));
               (py "errors", VList (map VStr errors))]).

(** *** The archiver of warm memory *)

Definition INDENT : str := repeat 32 24.

(** The prompt [_archive_oldest] sends for a message ([summary_examples]
    is the empty string). *)
Definition summary_prompt (cl : Cloud) (content : value) : str :=
  py "Summarize this chat message for future retrieval (not too long but enough to get blur picture of the conversation)." ++
  [10] ++ INDENT ++
  py "Include key entities (only if there are any) and key words which make easy to retrieve context without needing any specefic words (Only 3 most relevent keywords MAX)." ++
  [10] ++ INDENT ++
  py "If User or Any Agent Returns empty response like " ++ [34; 34] ++
  py " then in summary just say user asked this agent retured empty response." ++
  [10] ++ INDENT ++
  py "Here are few examples how you responses should look like: " ++ [] ++ [10] ++
  [10] ++ INDENT ++
  py "Message: " ++ fmt_value cl content.

Definition RATE_LIMITED : str := py "[Summary skipped - rate limit]".
Definition SUMMARY_FAILED : str := py "[Summary generation failed]".

(** [ColdMemory.archive_batch]. *)
Definition archive_batch (cl : Cloud) (messages : list value) : St Vault unit :=
  rescue (log_batch_chat cl messages (py "Archived_Agent") ;;; pure tt)
         (fun _ _ => pure tt).

(** The loop of [_archive_oldest] that gives each message its
    summary. *)
Fixpoint summarise (cl : Cloud) (msgs : list value) : St Vault (list value) :=
  match msgs with
  | [] => pure []
  | msg :: rest =>
      msg' <-
        rescue (content <- get_or msg (py "content") (VStr []) ;;
                summary <- invoke_logger cl (summary_prompt cl content) ;;
                set_item msg (py "summary") summary)
               (fun _ e =>
                  let error_str := lower e in
                  if contains (py "rate_limit") error_str || contains (py "429") error_str
                  then set_item msg (py "summary") (VStr RATE_LIMITED)
                  else set_item msg (py "summary") (VStr SUMMARY_FAILED)) ;;
      rest' <- summarise cl rest ;;
      pure (msg' :: rest')
  end.

(** [WarmMemory._archive_oldest]; the module's [Logger] is a model
    object, which is true. *)
Definition _archive_oldest (cl : Cloud) (msgs_to_archive : list value) : St Vault unit :=
  msgs <- summarise cl msgs_to_archive ;;
  match msgs with
  | [] => pure tt
  | _ => archive_batch cl msgs
  end.

(** *** Searches *)

Definition TRUNCATED : str := py "... [TRUNCATED]".

Definition item_text (i : Item) : str :=
  match i with
  | TextItem t => t
  | OtherItem s => s
  end.

Definition clip (text_content : str) : str :=
  if (1000 <? length text_content)%nat then take 1000 text_content ++ TRUNCATED
  else text_content.

Definition found (full_text : str) : value :=
  VList [VDict [(py "text", VStr full_text); (py "metadata", VDict [])]].

(** [search_chat_history(query)]. *)
Definition search_chat_history (cl : Cloud) (query : str) : St Vault value :=
  rescue (result <- run_tool_sync cl (py "qdrant-find") (find_arguments query CHAT_LOGS) ;;
          let found_text :=
            match content result with
            | Some items => map (fun item => clip (item_text item)) items
            | None => [shown result]
            end in
          pure (found (join [10; 10] found_text)))
         (fun _ _ => pure (VList [])).

(** *** Vocabulary of the properties *)

(** A message [log_batch_chat] can read: a dict whose role, when it has
    one, is a string. *)
Definition loggable (msg : value) : bool :=
  match msg with
  | VDict d =>
      match dict_get d (py "role") with
      | Some (VStr _) | None => true
      | Some _ => false
      end
  | _ => false
  end.

(** [d.get(k, '')]. *)
Definition field (d : list (str * value)) (k : str) : value :=
  default (VStr []) (dict_get d k).

(** No call of the store is interrupted by the user. *)
Definition unhurried (cl : Cloud) : Prop :=
  forall n tool arguments, mcp cl n tool arguments <> Failed KeyboardInterrupt.

(** A call that stores a record in the collection of the chat logs. *)
Definition stores (text : str) : str * value :=
  (py "qdrant-store", store_arguments text CHAT_LOGS).

Definition is_store (call : str * value) : Prop :=
  exists text, call = stores text.

(** A call that searches the collection of the chat logs. *)
Definition finds (query : str) : str * value :=
  (py "qdrant-find", find_arguments query CHAT_LOGS).

(** What [log_batch_chat] returns. *)
Definition report (count : nat) (errors : list str) : value :=
  VDict [(py "status", VStr (if bool_decide (errors = []) then py "ok" else py "partial_error"));
         (py "count", VInt (Z.of_nat count));
         (py "errors", VList (map VStr errors))].

Definition empty_vault : Vault := {| mcp_calls := []; logger_calls := 0; stamps_read := 0 |}.

End Cold.

(** ** The model manager ([utils/model_manager.py]) *)

Module Models.

Import Json Eff.
Local Open Scope eff_scope.

(** The two classes of model objects. *)
Inductive Maker : Type :=
| ChatGoogleGenerativeAI
| ChatOpenAI.

(** The arguments a model object is constructed with. *)
Record Spec : Type := {
  maker : Maker;
  model : str;
  temperature : value;
  api_key : option str;
  base_url : option str
}.

(** A model object: the [built]-th object constructed, from [spec]. *)
Record Handle : Type := {
  built : nat;
  spec : Spec
}.

(** The surroundings: the environment variables, and whether the
    [n]-th construction of a model object succeeds. *)
Record Plant : Type := {
  getenv : str -> option str;
  construct : nat -> Spec -> Reply unit
}.

(** The module's state: the global [_MANUAL_MODEL_OVERRIDE] ([None]
    when it holds no model object), the number of constructions
    attempted, and the [current_model_name] of every [ModelManager]
    created, in order of creation. *)
Record Floor : Type := {
  override : option Handle;
  constructions : nat;
  names : list str
}.

(** A [ModelManager] object: its rank among those created. *)
Definition ModelManager : Type := nat.

(** An entry of [models_config]. *)
Record Config : Type := {
  type : str;
  model_name : str;
  display_name : str
}.

Definition models_config : list (str * Config) :=
  [(py "gemini-2.5-flash",
    {| type := py "google"; model_name := py "gemini-2.5-flash";
       display_name := py "Gemini 2.5 Flash (Google)" |});
   (py "gemini-2.5-pro",
    {| type := py "google"; model_name := py "gemini-2.5-pro";
       display_name := py "Gemini 2.5 Pro (Google)" |});
   (py "gpt-oss-120b",
    {| type := py "cerebras"; model_name := py "gpt-oss-120b";
       display_name := py "GPT-OSS 120B (Cerebras)" |});
   (py "qwen3-32b",
    {| type := py "groq"; model_name := py "qwen/qwen3-32b";
       display_name := py "Qwen3 32B (Groq)" |});
   (py "llama-3.3-70b",
    {| type := py "openrouter"; model_name := py "meta-llama/llama-3.3-70b-instruct:free";
       display_name := py "Llama 3.3 70B (OpenRouter)" |});
   (py "qwen-3-32b",
    {| type := py "cerebras"; model_name := py "qwen-3-32b";
       display_name := py "Qwen 3 32B (Cerebras)" |});
   (py "zai-glm-4.6",
    {| type := py "cerebras"; model_name := py "zai-glm-4.6";
       display_name := py "Zai GLM 4.6 (Cerebras)" |})].

Fixpoint config_of (table : list (str * Config)) (model_id : str) : option Config :=
  match table with
  | [] => None
  | (k, c) :: rest => if bool_decide (k = model_id) then Some c else config_of rest model_id
  end.

(** [ModelManager()]. *)
Definition new_manager : St Floor ModelManager :=
  n <- peek (fun fl => length (names fl)) ;;
  poke (fun fl => {| override := override fl; constructions := constructions fl;
                     names := names fl ++ [py "qwen3-32b"] |}) ;;;
  pure n.

(** [self.current_model_name = model_id]. *)
Definition set_current (self : ModelManager) (model_id : str) : St Floor unit :=
  poke (fun fl => {| override := override fl; constructions := constructions fl;
                     names := <[self := model_id]> (names fl) |}).

(** [self.current_model_name], of a manager that exists. *)
Definition current_model_name (self : ModelManager) (fl : Floor) : str :=
  match names fl !! self with
  | Some name => name
  | None => []
  end.

(** A call of a constructor. *)
Definition build (pl : Plant) (s : Spec) : St Floor Handle :=
  n <- peek constructions ;;
  poke (fun fl => {| override := override fl; constructions := S n; names := names fl |}) ;;;
  match construct pl n s with
  | Returned _ => pure {| built := n; spec := s |}
  | Failed e => throw e
  end.

Definition google (name : str) (temperature : value) : Spec :=
  {| maker := ChatGoogleGenerativeAI; model := name; temperature := temperature;
     api_key := None; base_url := None |}.

Definition openai (pl : Plant) (name : str) (temperature : value) (key url : str) : Spec :=
  {| maker := ChatOpenAI; model := name; temperature := temperature;
     api_key := getenv pl key; base_url := Some url |}.

(** [{model_id}] in an f-string, for a string or [None]. *)
Definition fmt_id (model_id : option str) : str := default (py "None") model_id.

(** The constructor call for an entry of the table, by its type; [None]
    when the type is none of the four the method knows. *)
Definition spec_for (pl : Plant) (config : Config) (temperature : value) : option Spec :=
  let model_type := type config in
  let name := model_name config in
  if bool_decide (model_type = py "google") then
    Some (google name temperature)
  else if bool_decide (model_type = py "groq") then
    Some (openai pl name temperature (py "GROQ_API_KEY") (py "https://api.groq.com/openai/v1"))
  else if bool_decide (model_type = py "openrouter") then
    Some (openai pl name temperature (py "OPENROUTER_API_KEY")
            (py "https://openrouter.ai/api/v1"))
  else if bool_decide (model_type = py "cerebras") then
    Some (openai pl name temperature (py "CEREBRAS_API_KEY") (py "https://api.cerebras.ai/v1"))
  else None.

(** [model_id not in self.models_config], for a string or [None]. *)
Definition lookup_config (model_id : option str) : option (str * Config) :=
  match model_id with
  | Some id => match config_of models_config id with
               | Some config => Some (id, config)
               | None => None
               end
  | None => None
  end.

(** [_create_model_instance(model_id, temperature)]; the result is
    [None] when the method falls off its end. *)
Definition _create_model_instance (pl : Plant) (self : ModelManager)
    (model_id : option str) (temperature : value) : St Floor (option Handle) :=
  match lookup_config model_id with
  | None => throw (Exception (py "ValueError")
                     (py "Model " ++ fmt_id model_id ++ py " not found."))
  | Some (id, config) =>
      set_current self id ;;;
      rescue
        (match spec_for pl config temperature with
         | Some s => m <- build pl s ;; pure (Some m)
         | None => pure None
         end)
        (fun _ _ =>
           set_current self (py "gemini-2.5-flash") ;;;
           m <- build pl (google (py "gemini-2.5-flash") (VInt 0)) ;;
           pure (Some m))
  end.

(** [get_model(model_id, temperature)]. *)
Definition get_model (pl : Plant) (self : ModelManager) (model_id : option str)
    (temperature : value) : St Floor (option Handle) :=
  held <- peek override ;;
  match held with
  | Some m => pure (Some m)
  | None =>
      current <- peek (current_model_name self) ;;
      let model_id := match model_id with None => Some current | Some _ => model_id end in
      _create_model_instance pl self model_id temperature
  end.

(** [not model_id], for a string or [None]. *)
Definition no_id (model_id : option str) : bool :=
  match model_id with
  | None => true
  | Some s => bool_decide (s = [])
  end.

(** [switch_to_provider(provider, model_id)]. *)
Definition switch_to_provider (pl : Plant) (provider : str) (model_id : option str)
  : St Floor unit :=
  temp_manager <- new_manager ;;
  let model_id :=
    if no_id model_id then
      if bool_decide (provider = py "gemini") then Some (py "gemini-2.5-flash")
      else if bool_decide (provider = py "groq") then Some (py "qwen3-32b")
      else if bool_decide (provider = py "openrouter") then Some (py "llama-3.3-70b")
      else if bool_decide (provider = py "cerebras") then Some (py "qwen-3-32b")
      else model_id
    else model_id in
  rescue
    (m <- _create_model_instance pl temp_manager model_id (VInt 0) ;;
     poke (fun fl => {| override := m; constructions := constructions fl;
                        names := names fl |}))
    (fun _ _ => pure tt).

(** [list_models()]. *)
Definition list_models : list value :=
  map (fun kv => VDict [(py "id", VStr (fst kv)); (py "name", VStr (display_name (snd kv)))])
      models_config.

(** *** Vocabulary of the properties *)

(** No construction is interrupted by the user. *)
Definition steady (pl : Plant) : Prop :=
  forall n s, construct pl n s <> Failed KeyboardInterrupt.

(** The identifiers of the table. *)
Definition known_ids : list str := map fst models_config.

(** The model a provider stands for when none is named. *)
Definition default_spec (pl : Plant) (provider : str) : option Spec :=
  if bool_decide (provider = py "gemini") then
    Some (google (py "gemini-2.5-flash") (VInt 0))
  else if bool_decide (provider = py "groq") then
    Some (openai pl (py "qwen/qwen3-32b") (VInt 0) (py "GROQ_API_KEY")
            (py "https://api.groq.com/openai/v1"))
  else if bool_decide (provider = py "openrouter") then
    Some (openai pl (py "meta-llama/llama-3.3-70b-instruct:free") (VInt 0)
            (py "OPENROUTER_API_KEY") (py "https://openrouter.ai/api/v1"))
  else if bool_decide (provider = py "cerebras") then
    Some (openai pl (py "qwen-3-32b") (VInt 0) (py "CEREBRAS_API_KEY")
            (py "https://api.cerebras.ai/v1"))
  else None.

Definition GEMINI_FLASH : Spec := google (py "gemini-2.5-flash") (VInt 0).

(** Every manager's current model is an identifier of the table. *)
Definition well_named (fl : Floor) : Prop :=
  Forall (fun name => name ∈ known_ids) (names fl).

(** A floor with one manager and no override. *)
Definition fresh_floor : Floor :=
  {| override := None; constructions := 0; names := [py "qwen3-32b"] |}.

End Models.

(** ** The interactive loop of an agent ([BaseAgent.run]) *)

Module Chat.

Import Warm Agent.
Local Open Scope prog_scope.

(** What the [n]-th [session.prompt] gives: a line, or the exception it
    raises. *)
Definition Console : Type := nat -> Reply str.

Definition EXIT_WORDS : list str := [py "exit"; py "quit"].

(** The [while ai_msg.tool_calls] loop of [run]; [tool_rounds] counts
    its iterations too. *)
Fixpoint answer_tools (E : Env) (fuel : nat) (self : BaseAgent)
    (ai_msg : Content * list ToolCall) (messages : list Message)
  : M (Content * list ToolCall) :=
  if negb (bool_decide (snd ai_msg = [])) then
    match fuel with
    | O => out_of_fuel
    | S fuel' =>
        modify (fun w => set_tool_rounds (S (tool_rounds w)) w) ;;;
        outs <- run_tools E self (snd ai_msg) ;;
        let messages := messages ++ outs in
        ai_msg <- _robust_invoke E messages ;;
        let messages := messages ++ [AIMessage (fst ai_msg) (snd ai_msg)] in
        answer_tools E fuel' self ai_msg messages
    end
  else ret ai_msg.

(** One turn of the loop, for a line that is neither blank nor a word
    of exit. *)
Definition turn (E : Env) (fuel : nat) (self : BaseAgent) (user_input : str) : M unit :=
  add_message E (warm_memory self) (py "User") user_input ;;;
  messages <- _build_history self ;;
  try_except
    (ai_msg <- _robust_invoke E messages ;;
     let messages := messages ++ [AIMessage (fst ai_msg) (snd ai_msg)] in
     ai_msg <- answer_tools E fuel self ai_msg messages ;;
     add_message E (warm_memory self) (agent_name self) (final_text (fst ai_msg)))
    (fun _ _ => ret tt).

(** [run()], from the [n]-th prompt on. *)
Fixpoint run (E : Env) (console : Console) (fuel : nat) (self : BaseAgent) (n : nat)
  : M unit :=
  match fuel with
  | O => out_of_fuel
  | S fuel' =>
      match console n with
      | Failed KeyboardInterrupt => ret tt
      | Failed (Exception cls msg) =>
          if bool_decide (cls = py "EOFError") then ret tt
          else raise (Exception cls msg)
      | Returned user_input =>
          if bool_decide (lower user_input ∈ EXIT_WORDS) then ret tt
          else if bool_decide (strip user_input = []) then run E console fuel' self (S n)
          else turn E fuel' self user_input ;;; run E console fuel' self (S n)
      end
  end.

(** *** Vocabulary of the properties *)

(** A line that starts a turn. *)
Definition spoken (line : str) : Prop :=
  (lower line ∉ EXIT_WORDS) /\ strip line <> [].

(** What ends the loop at the prompt: a word of exit in any case, the
    end of the input, or an interrupt. *)
Definition leaves (r : Reply str) : Prop :=
  match r with
  | Returned line => lower line ∈ EXIT_WORDS
  | Failed KeyboardInterrupt => True
  | Failed (Exception cls _) => cls = py "EOFError"
  end.

(** A line of blanks. *)
Definition blank (r : Reply str) : Prop :=
  exists line, r = Returned line /\ strip line = [].

End Chat.

(** ** The history the Contextor sends ([agents/contextor.py]) *)

Module Contextor.

Import Warm Agent.
Local Open Scope prog_scope.

(** A message as [build_langchain_history] makes it: its class, and the
    content given to the constructor. *)
Inductive Turn : Type :=
| SystemTurn (content : value)
| HumanTurn (content : value)
| AITurn (content : value).

(** [validate content] is what the constructor of a message does with
    a content: it accepts it or raises. *)
Definition Validator : Type := value -> Reply unit.

Definition construct (validate : Validator) (make : value -> Turn) (content : value)
  : M Turn :=
  match validate content with
  | Returned _ => ret (make content)
  | Failed e => raise e
  end.

(** [msg.get(k)]. *)
Definition get (msg : value) (k : str) : M value :=
  match msg with
  | VDict d => ret (default VNull (dict_get d k))
  | _ => raise (Exception (py "AttributeError") (py "object has no attribute 'get'"))
  end.

(** [role.lower()]. *)
Definition lowered (role : value) : M str :=
  match role with
  | VStr s => ret (lower s)
  | _ => raise (Exception (py "AttributeError") (py "object has no attribute 'lower'"))
  end.

Definition AI_ROLES : list str := [py "ai"; py "contextor"; py "assistant"].

(** The [for msg in recent_chat] loop: the messages appended. *)
Fixpoint turns (validate : Validator) (recent_chat : list value) : M (list Turn) :=
  match recent_chat with
  | [] => ret []
  | msg :: rest =>
      role <- get msg (py "role") ;;
      content <- get msg (py "content") ;;
      role <- lowered role ;;
      here <- (if bool_decide (role = py "user") then
                 t <- construct validate HumanTurn content ;; ret [t]
               else if bool_decide (role ∈ AI_ROLES) then
                 t <- construct validate AITurn content ;; ret [t]
               else ret []) ;;
      more <- turns validate rest ;;
      ret (here ++ more)
  end.

(** [build_langchain_history(system_prompt, warm_memory)]. *)
Definition build_langchain_history (validate : Validator) (system_prompt : str)
    (warm_memory : WarmMemory) : M (list Turn) :=
  first <- construct validate SystemTurn (VStr system_prompt) ;;
  recent_chat <- get_recent_messages warm_memory 20 ;;
  more <- turns validate recent_chat ;;
  ret (first :: more).

(** *** Vocabulary of the properties *)

(** What the model is shown of a stored message whose role and content
    are strings: a user's message and an answer as they are, a message
    of any other role not at all. *)
Definition heard (msg : value) : list Turn :=
  match msg with
  | VDict d =>
      match dict_get d (py "role"), dict_get d (py "content") with
      | Some (VStr role), Some (VStr content) =>
          if bool_decide (lower role = py "user") then [HumanTurn (VStr content)]
          else if bool_decide (lower role ∈ AI_ROLES) then [AITurn (VStr content)]
          else []
      | _, _ => []
      end
  | _ => []
  end.

(** The constructors accept every string. *)
Definition lenient (validate : Validator) : Prop :=
  forall s, validate (VStr s) = Returned tt.

End Contextor.

(** ** Further sample environments *)

Module Cases.

Import Warm Agent Router.

(** The bound model and the first fallback provider are rate-limited;
    from the third attempt on the model answers in prose. *)
Definition flaky : Env :=
  {| now := Samples.fixed_clock;
     llm := fun n _ _ =>
              if (n <? 2)%nat then Failed (Exception (py "RateLimitError") (py "429"))
              else Returned (Text (py "Done."), []);
     tool := fun _ _ _ => Failed (Exception (py "ValueError") (py "bad code"));
     router_llm := fun _ _ => Returned (py "{}");
     repair_json := Samples.strict_repair;
     show := dumps;
     show_entry := Samples.sample_entry_text;
     system_prompt := fun name => py "You are " ++ name;
     router_system_prompt := py "You are the Router";
     redis_up := true |}.

(** The user interrupts every model invocation. *)
Definition interrupted : Env :=
  {| now := Samples.fixed_clock;
     llm := fun _ _ _ => Failed KeyboardInterrupt;
     tool := fun _ _ _ => Returned (py "(100, 4)");
     router_llm := fun _ _ => Returned (py "{}");
     repair_json := Samples.strict_repair;
     show := dumps;
     show_entry := Samples.sample_entry_text;
     system_prompt := fun name => py "You are " ++ name;
     router_system_prompt := py "You are the Router";
     redis_up := true |}.

(** The Watcher answers with a JSON object whose status is [retry], in
    lower case, and whose feedback is [no file]. *)
Definition strict_watcher : Env :=
  {| now := Samples.fixed_clock;
     llm := fun _ _ _ =>
              Returned (Text [123; 34; 115; 116; 97; 116; 117; 115; 34; 58; 32; 34;
                              114; 101; 116; 114; 121; 34; 44; 32; 34; 102; 101; 101;
                              100; 98; 97; 99; 107; 34; 58; 32; 34; 110; 111; 32; 102;
                              105; 108; 101; 34; 125], []);
     tool := fun _ _ _ => Returned (py "(100, 4)");
     router_llm := fun _ _ => Returned (py "{}");
     repair_json := Samples.strict_repair;
     show := dumps;
     show_entry := Samples.sample_entry_text;
     system_prompt := fun name => py "You are " ++ name;
     router_system_prompt := py "You are the Router";
     redis_up := true |}.

(** *** Code submitted to the interpreter *)

Import Tools.

Definition leaf : Node := Nd KOther [].

(** [df.describe()]: a module of one expression statement, the call of
    an attribute of a name. *)
Definition tidy_code : str := py "df.describe()".

Definition tidy_tree : Node :=
  Nd KOther
     [Nd KOther
         [Nd (KCall (Some (py "describe")))
             [Nd KOther [Nd KOther [leaf]; leaf]]]].

(** Four lines: [df.fillna(0, inplace=True)], then [import os] inside
    two nested [if] statements. *)
Definition sneaky_code : str :=
  py "df.fillna(0, inplace=True)" ++ [10] ++
  py "if x:" ++ [10] ++
  py "    if y:" ++ [10] ++
  py "        import os".

Definition sneaky_tree : Node :=
  Nd KOther
     [Nd KOther
         [Nd (KCall (Some (py "fillna")))
             [Nd KOther [Nd KOther [leaf]; leaf];
              leaf;
              Nd (KKeyword (Some (py "inplace")) true) [leaf]]];
      Nd KOther
         [Nd KOther [leaf];
          Nd KOther
             [Nd KOther [leaf];
              Nd (KImport [py "os"]) [leaf]]]].

(** A parser that knows these two programs. *)
Definition sample_parse (code : str) : Parse :=
  if bool_decide (code = tidy_code) then Parsed tidy_tree
  else if bool_decide (code = sneaky_code) then Parsed sneaky_tree
  else SyntaxError (py "invalid syntax").

(** The user answers [Y] with blanks around it; every installation
    succeeds. *)
Definition consenting : Shell :=
  {| user_input := fun _ => Returned (py " Y ");
     pip := fun _ _ => Returned tt |}.

(** The user answers [no]. *)
Definition declining : Shell :=
  {| user_input := fun _ => Returned (py "no");
     pip := fun _ _ => Returned tt |}.

Definition idle_desk : Desk := {| inputs_read := 0; pip_runs := [] |}.

(** A store that remembers what it is given on every other call and is
    down in between, and finds one long and one short note; a logger
    that answers in a few words. *)
Definition long_note : str := repeat 97 1200.

Definition patchy : Cold.Cloud :=
  {| Cold.mcp := fun n tool_name _ =>
       if bool_decide (tool_name = py "qdrant-find") then
         Returned {| Cold.content := Some [Cold.TextItem long_note; Cold.OtherItem (py "note")];
                     Cold.shown := py "CallToolResult" |}
       else if Nat.even n then
         Returned {| Cold.content := Some [Cold.TextItem (py "Remembered")];
                     Cold.shown := py "CallToolResult" |}
       else Failed (Exception (py "RuntimeError") (py "store is down"));
     Cold.logger := fun _ _ => Returned (VStr (py "cleaning; nulls; median"));
     Cold.stamp := fun _ => py "2025-01-01T00:00:00";
     Cold.render := dumps;
     Cold.shout := fun s => s |}.

(** The same store behind a logger that is rate-limited. *)
Definition throttled : Cold.Cloud :=
  {| Cold.mcp := Cold.mcp patchy;
     Cold.logger := fun _ _ =>
       Failed (Exception (py "RateLimitError") (py "Error code: 429 - Rate_Limit_Exceeded"));
     Cold.stamp := Cold.stamp patchy;
     Cold.render := dumps;
     Cold.shout := fun s => s |}.

(** A question, its answer, and a worker's report. *)
Definition question : list (str * value) :=
  [(py "role", VStr (py "User")); (py "content", VStr (py "clean the data"));
   (py "timestamp", VStr (py "2025-01-01T09:00:00"))].

Definition answer : list (str * value) :=
  [(py "role", VStr (py "Contextor")); (py "content", VStr (py "Which column?"));
   (py "summary", VStr (py "asks for the column"))].

Definition worker_report : list (str * value) :=
  [(py "role", VStr (py "Cleaner")); (py "content", VStr (py "Dropped 3 rows"))].

Definition exchange : list value := [VDict question; VDict answer; VDict worker_report].

(** No API key is set: the constructor of an OpenAI-compatible model
    refuses to build without one, Google's builds. *)
Definition keyless : Models.Plant :=
  {| Models.getenv := fun _ => None;
     Models.construct := fun _ s =>
       match Models.maker s, Models.api_key s with
       | Models.ChatOpenAI, None =>
           Failed (Exception (py "OpenAIError") (py "The api_key client option must be set"))
       | _, _ => Returned tt
       end |}.

(** The user asks for the nulls to be dropped, at every prompt. *)
Definition demanding : Chat.Console := fun _ => Returned (py "drop nulls").

(** The user presses return on a line of blanks, then on an empty
    line, then types [QUIT]. *)
Definition undecided : Chat.Console :=
  fun n => match n with
           | O => Returned (py "   ")
           | S O => Returned []
           | _ => Returned (py "QUIT")
           end.

End Cases.

(** * Properties *)

(** ** The encoder and the decoder agree *)

Module JsonFacts.

Local Open Scope N_scope.

Lemma digit_of_is_digit c : is_digit c = false -> digit_of c = None.
Proof.
  unfold is_digit, digit_of. intros H.
  repeat match goal with |- context [?a =? ?b] => destruct (N.eqb_spec a b); [subst; discriminate H|] end.
  reflexivity.
Qed.

Lemma scan_digits_stop r :
  match r with [] => True | c :: _ => is_digit c = false end ->
  scan_digits r = (Decimal.Nil, r).
Proof.
  destruct r as [|c r]; [reflexivity|]. intros H. simpl.
  now rewrite (digit_of_is_digit _ H).
Qed.

Lemma scan_digits_uint_chars u r :
  match r with [] => True | c :: _ => is_digit c = false end ->
  scan_digits (uint_chars u ++ r) = (u, r).
Proof.
  intros Hr. induction u; simpl; rewrite ?IHu; try reflexivity.
  now apply scan_digits_stop.
Qed.

Lemma to_uint_head p :
  exists c u, uint_chars (Pos.to_uint p) = c :: u /\ is_digit c = true /\ (c =? 48) = false.
Proof.
  assert (Hn : Pos.to_uint p = Decimal.unorm (Pos.to_uint p)).
  { rewrite <- DecimalPos.Unsigned.to_of. now rewrite DecimalPos.Unsigned.of_to. }
  pose proof (DecimalPos.Unsigned.to_uint_nonzero p) as Hz.
  pose proof (DecimalPos.Unsigned.to_uint_nonnil p) as Hnil.
  assert (Hh : Pos.to_uint p = Decimal.nzhead (Pos.to_uint p)).
  { unfold Decimal.unorm in Hn. destruct (Decimal.nzhead (Pos.to_uint p)) eqn:E; try exact Hn.
    exfalso. apply Hz. exact Hn. }
  destruct (Pos.to_uint p) eqn:E; try (eexists _, _; split; [reflexivity|split; reflexivity]).
  - congruence.
  - exfalso. eapply (DecimalFacts.nzhead_nonzero (Decimal.D0 u)). symmetry. exact Hh.
Qed.

Lemma finish_number_int neg u r :
  ends_number r = true ->
  finish_number neg u r =
    (VInt (if neg then (- Z.of_N (N.of_uint u))%Z else Z.of_N (N.of_uint u)), r).
Proof.
  intros H. unfold finish_number.
  assert (Hf : scan_frac r = ([], r)).
  { destruct r as [|c [|c' r]]; try reflexivity. simpl in *.
    destruct (c =? 46); [now rewrite !andb_false_r in H|reflexivity]. }
  assert (He : scan_exp r = ([], r)).
  { destruct r as [|c r]; try reflexivity. simpl in *.
    destruct (c =? 101); [now rewrite !andb_false_r in H|].
    destruct (c =? 69); [now rewrite !andb_false_r in H|]. reflexivity. }
  now rewrite Hf, He.
Qed.

Lemma ends_number_digit r :
  ends_number r = true -> match r with [] => True | c :: _ => is_digit c = false end.
Proof.
  destruct r as [|c r]; [easy|]. simpl. destruct (is_digit c); [discriminate|easy].
Qed.

Lemma scan_number_int_repr z r :
  ends_number r = true ->
  scan_number (int_repr z ++ r) = Some (VInt z, r).
Proof.
  intros H. destruct z as [|p|p]; unfold scan_number.
  - simpl. now rewrite finish_number_int.
  - destruct (to_uint_head p) as (c & u & E & Hd & H0).
    unfold int_repr. 
    pose proof (scan_digits_uint_chars (Pos.to_uint p) r (ends_number_digit _ H)) as Hs.
    rewrite E in *. cbn [app] in *.
    assert ((c =? 45) = false) as ->.
    { unfold is_digit in Hd. destruct (N.eqb_spec c 45); [subst; discriminate|reflexivity]. }
    rewrite H0, Hd, Hs.
    rewrite finish_number_int by assumption.
    unfold N.of_uint. now rewrite DecimalPos.Unsigned.of_to.
  - destruct (to_uint_head p) as (c & u & E & Hd & H0).
    unfold int_repr. 
    pose proof (scan_digits_uint_chars (Pos.to_uint p) r (ends_number_digit _ H)) as Hs.
    rewrite E in *. cbn [app] in *.
    change (45 =? 45) with true. cbv iota.
    rewrite H0, Hd, Hs.
    rewrite finish_number_int by assumption.
    unfold N.of_uint. now rewrite DecimalPos.Unsigned.of_to.
Qed.

Lemma hex_val_digit d : d < 16 -> hex_val (hex_digit d) = Some d.
Proof.
  intros H. unfold hex_val, hex_digit.
  destruct (N.ltb_spec d 10).
  - replace ((48 <=? 48 + d) && (48 + d <=? 57)) with true.
    + f_equal. lia.
    + symmetry. apply andb_true_iff. split; apply N.leb_le; lia.
  - replace ((48 <=? 87 + d) && (87 + d <=? 57)) with false.
    + replace ((97 <=? 87 + d) && (87 + d <=? 102)) with true.
      * f_equal. lia.
      * symmetry. apply andb_true_iff. split; apply N.leb_le; lia.
    + symmetry. apply andb_false_iff. right. apply N.leb_gt. lia.
Qed.

Lemma hex4_val_hex4 n a b c d :
  n < 65536 -> hex4 n = [a; b; c; d] -> hex4_val a b c d = Some n.
Proof.
  intros H E. unfold hex4 in E. injection E as <- <- <- <-.
  unfold hex4_val.
  assert (n / 4096 < 16) by (apply N.Div0.div_lt_upper_bound; lia).
  assert (n / 256 mod 16 < 16) by (apply N.mod_lt; lia).
  assert (n / 16 mod 16 < 16) by (apply N.mod_lt; lia).
  assert (n mod 16 < 16) by (apply N.mod_lt; lia).
  rewrite !hex_val_digit by assumption.
  f_equal.
  assert (E1 : n / 256 = n / 16 / 16) by (now rewrite N.Div0.div_div).
  assert (E2 : n / 4096 = n / 16 / 16 / 16) by (now rewrite !N.Div0.div_div).
  rewrite E1, E2 in *.
  pose proof (N.div_mod n 16 ltac:(lia)).
  pose proof (N.div_mod (n / 16) 16 ltac:(lia)).
  pose proof (N.div_mod (n / 16 / 16) 16 ltac:(lia)).
  lia.
Qed.

Lemma lor_low k x : x < 1024 -> N.lor (k * 1024) x = k * 1024 + x.
Proof.
  intros H.
  assert (Hd : N.land (k * 1024) x = 0).
  { apply N.bits_inj. intros i. rewrite N.land_spec, N.bits_0.
    change 1024 with (2 ^ 10). rewrite <- N.shiftl_mul_pow2.
    destruct (N.lt_ge_cases i 10) as [Hi|Hi].
    - now rewrite N.shiftl_spec_low.
    - rewrite andb_comm.
      destruct (N.eq_dec x 0) as [->|Hx]; [now rewrite N.bits_0|].
      rewrite N.bits_above_log2; [reflexivity|].
      apply N.log2_lt_pow2; [lia|].
      apply N.lt_le_trans with (2 ^ 10); [exact H|].
      apply N.pow_le_mono_r; lia. }
  rewrite <- N.lxor_lor by exact Hd. symmetry. now apply N.add_nocarry_lxor.
Qed.

Lemma surrogates_join c :
  65536 <= c -> c < 1114112 ->
  let hi := N.lor 55296 (N.land (N.shiftr (c - 65536) 10) 1023) in
  let lo := N.lor 56320 (N.land (c - 65536) 1023) in
  is_high_surrogate hi = true /\ is_low_surrogate lo = true /\
  hi < 65536 /\ lo < 65536 /\ join_surrogates hi lo = c.
Proof.
  intros H1 H2. cbv zeta.
  change 1023 with (N.ones 10). rewrite !N.land_ones, N.shiftr_div_pow2.
  change (2 ^ 10) with 1024.
  set (n := c - 65536).
  assert (Hn : n < 1048576) by (unfold n; lia).
  assert (Hq : n / 1024 < 1024) by (apply N.Div0.div_lt_upper_bound; lia).
  rewrite (N.mod_small (n / 1024)) by exact Hq.
  assert (Hr : n mod 1024 < 1024) by (apply N.mod_lt; lia).
  change 55296 with (54 * 1024). change 56320 with (55 * 1024).
  rewrite !lor_low by assumption.
  unfold is_high_surrogate, is_low_surrogate, join_surrogates.
  change (N.ones 10) with 1023.
  change 1023 with (N.ones 10). rewrite !N.land_ones, N.shiftl_mul_pow2.
  change (2 ^ 10) with 1024.
  assert (E1 : (54 * 1024 + n / 1024) mod 1024 = n / 1024).
  { rewrite N.add_comm, N.Div0.mod_add. now apply N.mod_small. }
  assert (E2 : (55 * 1024 + n mod 1024) mod 1024 = n mod 1024).
  { rewrite N.add_comm, N.Div0.mod_add. now apply N.mod_small. }
  rewrite E1, E2, lor_low by assumption.
  pose proof (N.div_mod n 1024 ltac:(lia)).
  assert (Hc : c = n + 65536) by (unfold n; lia).
  clearbody n. clear E1 E2.
  change (54 * 1024) with 55296. change (55 * 1024) with 56320.
  set (q := n / 1024) in *. set (r := n mod 1024) in *. clearbody q r.
  repeat split.
  - apply andb_true_iff; split; apply N.leb_le; lia.
  - apply andb_true_iff; split; apply N.leb_le; lia.
  - lia.
  - lia.
  - lia.
Qed.

Lemma scanstring_u_bmp a b c d u r :
  hex4_val a b c d = Some u -> is_high_surrogate u = false ->
  scanstring (92 :: 117 :: a :: b :: c :: d :: r) = push u (scanstring r).
Proof.
  intros Hx Hh. cbn [scanstring]. change (92 =? 34) with false.
  change (92 =? 92) with true. change (117 =? 117) with true. cbv iota.
  rewrite Hx, Hh.
  destruct r as [|? [|? [|? [|? [|? [|? ?]]]]]]; reflexivity.
Qed.

Lemma scanstring_u_pair a b c d a' b' c' d' u u2 r :
  hex4_val a b c d = Some u -> is_high_surrogate u = true ->
  hex4_val a' b' c' d' = Some u2 -> is_low_surrogate u2 = true ->
  scanstring (92 :: 117 :: a :: b :: c :: d :: 92 :: 117 :: a' :: b' :: c' :: d' :: r)
  = push (join_surrogates u u2) (scanstring r).
Proof.
  intros Hx Hh Hx2 Hl. cbn [scanstring]. change (92 =? 34) with false.
  change (92 =? 92) with true. change (117 =? 117) with true. cbv iota.
  rewrite Hx, Hh. cbn [andb]. rewrite Hx2, Hl. reflexivity.
Qed.

Lemma scanstring_escape_char c k :
  scalar c = true ->
  scanstring (escape_char c ++ k) = push c (scanstring k).
Proof.
  intros Hs. unfold escape_char.
  destruct (N.eqb_spec c 34) as [->|N34]; [reflexivity|].
  destruct (N.eqb_spec c 92) as [->|N92]; [reflexivity|].
  destruct (N.eqb_spec c 8) as [->|N8]; [reflexivity|].
  destruct (N.eqb_spec c 12) as [->|N12]; [reflexivity|].
  destruct (N.eqb_spec c 10) as [->|N10]; [reflexivity|].
  destruct (N.eqb_spec c 13) as [->|N13]; [reflexivity|].
  destruct (N.eqb_spec c 9) as [->|N9]; [reflexivity|].
  destruct ((32 <=? c) && (c <=? 126)) eqn:Hp.
  - apply andb_true_iff in Hp as [Hp1 Hp2].
    apply N.leb_le in Hp1. apply N.leb_le in Hp2.
    cbn [app scanstring].
    destruct (N.eqb_spec c 34); [contradiction|].
    destruct (N.eqb_spec c 92); [contradiction|].
    destruct (N.ltb_spec c 32); [lia|]. reflexivity.
  - destruct (N.ltb_spec c 65536) as [Hb|Hb].
    + unfold u_escape. cbn [app].
      destruct (hex4 c) as [|x1 [|x2 [|x3 [|x4 [|]]]]] eqn:E; try discriminate E.
      cbn [app].
      apply scanstring_u_bmp.
      * now apply (hex4_val_hex4 c).
      * unfold scalar in Hs. unfold is_high_surrogate.
        apply andb_false_iff.
        apply orb_true_iff in Hs as [Hs|Hs].
        -- left. apply N.leb_gt. now apply N.ltb_lt in Hs.
        -- right. apply andb_true_iff in Hs as [Hs _]. apply N.leb_le in Hs.
           apply N.leb_gt. lia.
    + assert (Hc : c < 1114112).
      { unfold scalar in Hs. apply orb_true_iff in Hs as [Hs|Hs].
        - apply N.ltb_lt in Hs. lia.
        - apply andb_true_iff in Hs as [_ Hs]. now apply N.ltb_lt in Hs. }
      destruct (surrogates_join c Hb Hc) as (Hh & Hl & Hh' & Hl' & Hj).
      set (hi := N.lor 55296 (N.land (N.shiftr (c - 65536) 10) 1023)) in *.
      set (lo := N.lor 56320 (N.land (c - 65536) 1023)) in *.
      unfold u_escape.
      destruct (hex4 hi) as [|x1 [|x2 [|x3 [|x4 [|]]]]] eqn:E; try discriminate E.
      destruct (hex4 lo) as [|y1 [|y2 [|y3 [|y4 [|]]]]] eqn:E'; try discriminate E'.
      cbn [app]. rewrite <- Hj.
      apply scanstring_u_pair; try assumption.
      * now apply (hex4_val_hex4 hi).
      * now apply (hex4_val_hex4 lo).
Qed.

Lemma scanstring_encode s r :
  forallb scalar s = true ->
  scanstring (flat_map escape_char s ++ 34 :: r) = Some (s, r).
Proof.
  induction s as [|c s IH]; intros H.
  - reflexivity.
  - simpl in H. apply andb_true_iff in H as [Hc Hs].
    cbn [flat_map]. rewrite <- app_assoc.
    rewrite scanstring_escape_char by assumption.
    now rewrite IH.
Qed.


Section value_rect'.

Variable P : value -> Prop.
Hypothesis HNull : P VNull.
Hypothesis HBool : forall b, P (VBool b).
Hypothesis HInt : forall n, P (VInt n).
Hypothesis HFloat : forall l, P (VFloat l).
Hypothesis HStr : forall s, P (VStr s).
Hypothesis HList : forall l, Forall P l -> P (VList l).
Hypothesis HDict : forall d, Forall (fun kv => P (snd kv)) d -> P (VDict d).

(** Induction on values that reaches the values inside lists and dicts. *)
Fixpoint value_ind' (v : value) : P v :=
  match v with
  | VNull => HNull
  | VBool b => HBool b
  | VInt n => HInt n
  | VFloat l => HFloat l
  | VStr s => HStr s
  | VList l =>
      HList l ((fix go (l : list value) : Forall P l :=
                  match l with
                  | [] => @List.Forall_nil _ _
                  | x :: r => @List.Forall_cons _ _ _ _ (value_ind' x) (go r)
                  end) l)
  | VDict d =>
      HDict d ((fix go (d : list (str * value)) : Forall (fun kv => P (snd kv)) d :=
                  match d with
                  | [] => @List.Forall_nil _ _
                  | kv :: r => @List.Forall_cons _ _ kv _ (value_ind' (snd kv)) (go r)
                  end) d)
  end.

End value_rect'.

Lemma delimited_ends_number r : delimited r = true -> ends_number r = true.
Proof.
  destruct r as [|c r]; [reflexivity|]. simpl. intros H.
  apply orb_true_iff in H as [H|H]; [apply orb_true_iff in H as [H|H]|];
    apply N.eqb_eq in H; subst; reflexivity.
Qed.

Lemma parse_value_number fuel s :
  match s with
  | c :: r => is_digit c = true \/
              (c = 45 /\ match r with d :: _ => is_digit d = true | [] => False end)
  | [] => False
  end ->
  parse_value (S fuel) s = scan_number s.
Proof.
  destruct s as [|c r]; [easy|]. intros [H|[-> H]].
  - unfold is_digit in H. apply andb_true_iff in H as [H1 H2].
    apply N.leb_le in H1. apply N.leb_le in H2.
    cbn [parse_value].
    repeat match goal with
           | |- context [c =? ?k] => destruct (N.eqb_spec c k); [lia|]
           end.
    cbn [strip_prefix py map list_ascii_of_string]. 
    change (N_of_ascii "-") with 45.
    destruct (N.eqb_spec 45 c); [lia|]. reflexivity.
  - destruct r as [|d r]; [easy|].
    unfold is_digit in H. apply andb_true_iff in H as [H1 H2].
    apply N.leb_le in H1. apply N.leb_le in H2.
    cbn [parse_value]. 
    change (45 =? 34) with false. change (45 =? 123) with false.
    change (45 =? 91) with false. change (45 =? 110) with false.
    change (45 =? 116) with false. change (45 =? 102) with false.
    change (45 =? 78) with false. change (45 =? 73) with false. cbv iota.
    cbn [strip_prefix py map list_ascii_of_string].
    change (N_of_ascii "-") with 45. change (N_of_ascii "I") with 73.
    change (45 =? 45) with true. cbv iota.
    destruct (N.eqb_spec 73 d); [lia|]. reflexivity.
Qed.

Definition value_head (c : N) : Prop :=
  is_ws c = false /\ (c =? 93) = false /\ (c =? 125) = false.

Lemma digit_value_head c : is_digit c = true -> value_head c.
Proof.
  unfold is_digit, value_head, is_ws. intros H.
  apply andb_true_iff in H as [H1 H2]. apply N.leb_le in H1. apply N.leb_le in H2.
  repeat match goal with
         | |- context [c =? ?k] => destruct (N.eqb_spec c k); [lia|]
         end.
  easy.
Qed.

Lemma dumps_head v : wf v = true -> exists c t, dumps v = c :: t /\ value_head c.
Proof.
  destruct v as [| [] | [|p|p] | | s | l | d]; cbn [wf dumps]; intros H;
    try discriminate H;
    try (eexists _, _; split; [reflexivity|]; repeat split; reflexivity).
  - destruct (to_uint_head p) as (c & u & E & Hd & _).
    exists c, u. split; [exact E|]. now apply digit_value_head.
Qed.

Lemma skip_ws_head c t : is_ws c = false -> skip_ws (c :: t) = c :: t.
Proof. intros H. cbn [skip_ws]. now rewrite H. Qed.

Lemma skip_ws_dumps v r : wf v = true -> skip_ws (dumps v ++ r) = dumps v ++ r.
Proof.
  intros H. destruct (dumps_head v H) as (c & t & E & Hw & _).
  rewrite E. now apply skip_ws_head.
Qed.

Lemma skip_ws_delimited r : delimited r = true -> skip_ws r = r.
Proof.
  destruct r as [|c r]; [reflexivity|]. cbn [delimited]. intros H.
  apply skip_ws_head.
  apply orb_true_iff in H as [H|H]; [apply orb_true_iff in H as [H|H]|];
    apply N.eqb_eq in H; subst; reflexivity.
Qed.

Definition round_trips (v : value) : Prop :=
  wf v = true -> forall fuel r, (need v <= fuel)%nat -> delimited r = true ->
  parse_value fuel (dumps v ++ r) = Some (v, r).

Lemma join_cons2 sep x y ys : join sep (x :: y :: ys) = x ++ sep ++ join sep (y :: ys).
Proof. reflexivity. Qed.

Lemma join_single sep x : join sep [x] = x.
Proof. cbn. apply app_nil_r. Qed.

Lemma parse_elems_join l r :
  Forall round_trips l -> forallb wf l = true -> l <> [] ->
  forall fuel,
    (fold_right (fun x acc => S (need x) + acc)%nat 0%nat l <= fuel)%nat ->
    parse_elems fuel (join (py ", ") (map dumps l) ++ 93 :: r) = Some (l, r).
Proof.
  induction 1 as [|x xs Hx Hxs IH]; [easy|]. intros Hwf _ fuel Hf.
  cbn [forallb] in Hwf. apply andb_true_iff in Hwf as [Hwx Hwxs].
  cbn [fold_right] in Hf.
  destruct fuel as [|fuel]; [lia|].
  destruct xs as [|y ys].
  - cbn [map]. rewrite join_single. cbn [parse_elems].
    rewrite (Hx Hwx) by (reflexivity || lia).
    reflexivity.
  - cbn [map] in *. rewrite join_cons2. rewrite <- !app_assoc. cbn [parse_elems].
    rewrite (Hx Hwx) by (reflexivity || lia).
    change (py ", " ++ ?t) with (44 :: 32 :: t).
    cbn [skip_ws]. 
    change (is_ws 44) with false. cbv iota.
    change (44 =? 93) with false. change (44 =? 44) with true. cbv iota.
    cbn [skip_ws]. change (is_ws 32) with true. cbv iota.
    assert (Hsk : forall t, skip_ws (join (py ", ") (dumps y :: map dumps ys) ++ t)
                        = join (py ", ") (dumps y :: map dumps ys) ++ t).
    { intros t. destruct ys; [rewrite join_single|cbn [map]; rewrite join_cons2, <- app_assoc];
      cbn [forallb] in Hwxs; apply andb_true_iff in Hwxs as [Hwy _];
      now apply skip_ws_dumps. }
    rewrite Hsk, IH; [reflexivity|assumption|easy|lia].
Qed.

Definition member_text (kv : str * value) : str :=
  encode_string (fst kv) ++ py ": " ++ dumps (snd kv).

Lemma parse_member_step fuel k v t :
  text k = true -> wf v = true -> round_trips v -> (need v <= fuel)%nat ->
  delimited t = true ->
  parse_members (S fuel) (member_text (k, v) ++ t) =
    match t with
    | c3 :: r4 =>
        if c3 =? 125 then Some ([(k, v)], r4)
        else if c3 =? 44 then
          match parse_members fuel (skip_ws r4) with
          | Some (ms, r5) => Some ((k, v) :: ms, r5)
          | None => None
          end
        else None
    | [] => None
    end.
Proof.
  intros Hk Hv Hrt Hf Ht. unfold member_text, encode_string. cbn [fst snd].
  rewrite <- !app_assoc. cbn [app parse_members].
  change (34 =? 34) with true. cbv iota.
  rewrite <- !app_assoc. cbn [app].
  rewrite scanstring_encode by exact Hk.
  change (py ": " ++ ?u) with (58 :: 32 :: u).
  cbn [skip_ws]. change (is_ws 58) with false. cbv iota.
  change (58 =? 58) with true. cbv iota.
  cbn [skip_ws]. change (is_ws 32) with true. cbv iota.
  rewrite skip_ws_dumps by exact Hv.
  rewrite (Hrt Hv) by assumption.
  now rewrite skip_ws_delimited.
Qed.

Lemma skip_ws_member kv t : skip_ws (member_text kv ++ t) = member_text kv ++ t.
Proof. reflexivity. Qed.

Lemma parse_members_join d r :
  Forall (fun kv => round_trips (snd kv)) d ->
  forallb (fun kv => text (fst kv) && wf (snd kv)) d = true -> d <> [] ->
  forall fuel,
    (fold_right (fun kv acc => S (need (snd kv)) + acc)%nat 0%nat d <= fuel)%nat ->
    parse_members fuel (join (py ", ") (map member_text d) ++ 125 :: r) = Some (d, r).
Proof.
  induction 1 as [|[k v] xs Hx Hxs IH]; [easy|]. intros Hwf _ fuel Hf.
  cbn [forallb fst snd] in Hwf. apply andb_true_iff in Hwf as [Hwx Hwxs].
  apply andb_true_iff in Hwx as [Hk Hv].
  cbn [fold_right snd] in Hf. cbn [snd] in Hx.
  destruct fuel as [|fuel]; [lia|].
  destruct xs as [|y ys].
  - cbn [map]. rewrite join_single.
    rewrite parse_member_step by (assumption || reflexivity || lia). reflexivity.
  - cbn [map] in *. rewrite join_cons2. rewrite <- !app_assoc.
    change (py ", " ++ ?t) with (44 :: 32 :: t).
    rewrite parse_member_step by (assumption || reflexivity || lia).
    change (44 =? 125) with false. change (44 =? 44) with true. cbv iota.
    cbn [skip_ws]. change (is_ws 32) with true. cbv iota.
    assert (Hsk : forall t, skip_ws (join (py ", ") (member_text y :: map member_text ys) ++ t)
                        = join (py ", ") (member_text y :: map member_text ys) ++ t).
    { intros t. destruct ys; [rewrite join_single|cbn [map]; rewrite join_cons2, <- app_assoc];
      apply skip_ws_member. }
    rewrite Hsk, IH; [reflexivity|assumption|easy|lia].
Qed.

Lemma dict_set_fresh d k v :
  k ∉ map fst d -> dict_set d k v = d ++ [(k, v)].
Proof.
  induction d as [|[k' v'] d IH]; intros H; [reflexivity|].
  cbn [dict_set]. cbn [map fst] in H.
  rewrite bool_decide_eq_false_2 by (intros ->; apply H; left).
  cbn [app]. f_equal. apply IH. intros Hin. apply H. now right.
Qed.

Lemma dict_of_pairs_distinct_aux ps acc :
  distinct (map fst (acc ++ ps)) = true ->
  fold_left (fun d kv => dict_set d (fst kv) (snd kv)) ps acc = acc ++ ps.
Proof.
  revert acc. induction ps as [|[k v] ps IH]; intros acc H.
  - now rewrite app_nil_r.
  - cbn [fold_left fst snd].
    assert (Hk : k ∉ map fst acc).
    { clear IH. induction acc as [|[k' v'] acc IHa]; [apply not_elem_of_nil|].
      cbn [app map fst distinct] in H. apply andb_true_iff in H as [H1 H2].
      apply negb_true_iff, bool_decide_eq_false in H1.
      intros Hin. apply elem_of_cons in Hin as [->|Hin].
      - apply H1. rewrite map_app. apply elem_of_app. right. left.
      - now apply IHa. }
    rewrite dict_set_fresh by exact Hk.
    rewrite IH; rewrite <- app_assoc; [reflexivity|exact H].
Qed.

Lemma dict_of_pairs_distinct d :
  distinct (map fst d) = true -> dict_of_pairs d = d.
Proof. intros H. unfold dict_of_pairs. now rewrite dict_of_pairs_distinct_aux. Qed.

Lemma dumps_round_trips v : round_trips v.
Proof.
  induction v as [| b | n | l | s | l IH | d IH] using value_ind';
    intros Hwf fuel r Hf Hr; cbn [need] in Hf;
    (destruct fuel as [|fuel]; [lia|]); cbn [wf] in Hwf.
  - reflexivity.
  - destruct b; reflexivity.
  - rewrite parse_value_number.
    + apply scan_number_int_repr. now apply delimited_ends_number.
    + cbn [dumps]. destruct n as [|p|p]; unfold int_repr.
      * left; reflexivity.
      * destruct (to_uint_head p) as (c & u & E & Hd & _). rewrite E. now left.
      * destruct (to_uint_head p) as (c & u & E & Hd & _). rewrite E. right. easy.
  - discriminate.
  - cbn [dumps]. unfold encode_string. cbn [app parse_value].
    change (34 =? 34) with true. cbv iota.
    rewrite <- app_assoc. cbn [app].
    now rewrite scanstring_encode.
  - cbn [dumps]. cbn [app parse_value].
    change (91 =? 34) with false. change (91 =? 123) with false.
    change (91 =? 91) with true. cbv iota.
    destruct l as [|x xs].
    + reflexivity.
    + assert (Hx : wf x = true) by (cbn [forallb] in Hwf; now apply andb_true_iff in Hwf as [? _]).
      set (body := join (py ", ") (map dumps (x :: xs))) in *.
      assert (Hb : exists c t, body = c :: t /\ value_head c).
      { unfold body. destruct (dumps_head x Hx) as (c & t & E & Hc).
        destruct xs; cbn [map]; [rewrite join_single|rewrite join_cons2];
          rewrite E; eexists _, _; (split; [reflexivity|exact Hc]). }
      destruct Hb as (c & t & Eb & Hw & H93 & _).
      rewrite <- app_assoc. cbn [app].
      pose proof (parse_elems_join (x :: xs) r IH Hwf ltac:(easy) fuel ltac:(lia)) as Hp.
      fold body in Hp. rewrite Eb in *. cbn [app] in *.
      rewrite skip_ws_head by exact Hw. rewrite H93, Hp. reflexivity.
  - apply andb_true_iff in Hwf as [Hd Hwf].
    cbn [dumps]. cbn [app parse_value].
    change (123 =? 34) with false. change (123 =? 123) with true. cbv iota.
    destruct d as [|[k x] xs].
    + reflexivity.
    + change (map (fun kv => encode_string (fst kv) ++ py ": " ++ dumps (snd kv)))
        with (map member_text).
      set (body := join (py ", ") (map member_text ((k, x) :: xs))) in *.
      assert (Hb : exists t, body = 34 :: t).
      { unfold body. destruct xs; cbn [map]; [rewrite join_single|rewrite join_cons2];
          eexists; reflexivity. }
      destruct Hb as (t & Eb).
      rewrite <- app_assoc. cbn [app].
      pose proof (parse_members_join ((k, x) :: xs) r IH Hwf ltac:(easy) fuel ltac:(lia)) as Hp.
      fold body in Hp. rewrite Eb in *. cbn [app] in *.
      rewrite skip_ws_head by reflexivity.
      change (34 =? 125) with false. cbv iota. rewrite Hp.
      now rewrite dict_of_pairs_distinct.
Qed.

Lemma need_join {A} (f : A -> nat) (g : A -> str) sep (l : list A) :
  (1 <= length sep)%nat ->
  Forall (fun x => (f x <= length (g x))%nat) l ->
  (fold_right (fun x acc => S (f x) + acc)%nat 0%nat l
   <= S (length (join sep (map g l))))%nat.
Proof.
  intros Hsep. induction 1 as [|x xs Hx Hxs IH]; [cbn; lia|].
  destruct xs as [|y ys].
  - cbn [map fold_right]. rewrite join_single. lia.
  - cbn [map] in *. rewrite join_cons2, !length_app.
    cbn [fold_right] in *. lia.
Qed.

Lemma need_le_length v : wf v = true -> (need v <= length (dumps v))%nat.
Proof.
  induction v as [| b | n | l | s | l IH | d IH] using value_ind';
    intros Hwf; cbn [wf] in Hwf; cbn [need dumps].
  - cbn. lia.
  - destruct b; cbn; lia.
  - destruct n as [|p|p]; unfold int_repr; try (cbn; lia);
      destruct (to_uint_head p) as (c & u & E & _); rewrite E; cbn [length]; lia.
  - discriminate.
  - unfold encode_string. cbn [length]. lia.
  - cbn [length]. rewrite length_app. cbn [length].
    enough (fold_right (fun x acc => S (need x) + acc)%nat 0%nat l
            <= S (length (join (py ", ") (map dumps l))))%nat by lia.
    apply need_join; [cbn; lia|].
    apply Forall_forall. intros x Hin.
    rewrite Forall_forall in IH. apply IH; [exact Hin|].
    rewrite forallb_forall in Hwf. apply Hwf. now apply list_elem_of_In.
  - apply andb_true_iff in Hwf as [_ Hwf].
    change (map (fun kv => encode_string (fst kv) ++ py ": " ++ dumps (snd kv)))
      with (map member_text).
    cbn [length]. rewrite length_app. cbn [length].
    enough (fold_right (fun kv acc => S (need (snd kv)) + acc)%nat 0%nat d
            <= S (length (join (py ", ") (map member_text d))))%nat by lia.
    apply (need_join (fun kv => need (snd kv))); [cbn; lia|].
    apply Forall_forall. intros [k x] Hin.
    rewrite Forall_forall in IH. specialize (IH _ Hin).
    rewrite forallb_forall in Hwf. specialize (Hwf (k, x)).
    cbn [fst snd] in *. unfold member_text. cbn [fst snd]. rewrite !length_app.
    enough (need x <= length (dumps x))%nat by lia.
    apply IH. 
    assert (In (k, x) d) as Hin' by now apply list_elem_of_In.
    apply Hwf in Hin'. now apply andb_true_iff in Hin' as [_ ?].
Qed.

Theorem loads_dumps v : wf v = true -> loads (dumps v) = Some v.
Proof.
  intros H. unfold loads.
  rewrite <- (app_nil_r (dumps v)) at 2.
  rewrite skip_ws_dumps by exact H.
  rewrite dumps_round_trips; [reflexivity|exact H| |reflexivity].
  pose proof (need_le_length v H). lia.
Qed.

End JsonFacts.

(** ** Hot memory *)

Module HotFacts.

Import Hot.

Lemma get_context_cases (h : HotMemory) :
  get_context h = if bool_decide (_global_context h = []) then NO_CONTEXT
                  else _global_context h.
Proof.
  unfold get_context. cbn [truthy]. rewrite negb_involutive. reflexivity.
Qed.

Lemma set_context_object (h : HotMemory) (s : str) (w : World) :
  fst (set_context h s w) = Ok {| _global_context := s |}.
Proof.
  unfold set_context, _save_context_to_file, bind, gets, modify, ret.
  cbn. destruct (hot_writable w); reflexivity.
Qed.

(** C10.  [get_context] never returns the empty string; the object left
    by [set_context("")] answers every [get_context()] with the sentinel
    ["No global context set. Please run Contextor first."], which
    contains the text ["No global context set"] that callers look for;
    and when the write to the file went through, so does every
    [HotMemory()] built afterwards. *)
Theorem cleared_context_reads_as_sentinel :
  (forall h : HotMemory, get_context h <> []) /\
  (forall (h : HotMemory) (w : World),
      exists h' w', set_context h [] w = (Ok h', w') /\
                    get_context h' = NO_CONTEXT /\
                    contains (py "No global context set") (get_context h') = true /\
                    (hot_writable w = true ->
                     exists h'' w'', init w' = (Ok h'', w'') /\
                                     get_context h'' = NO_CONTEXT)) /\
  (forall h : HotMemory,
      _global_context h <> [] -> get_context h = _global_context h).
Proof.
  split; [|split].
  - intros h. rewrite get_context_cases. case_bool_decide as Hc.
    + discriminate.
    + exact Hc.
  - intros h w.
    unfold set_context, _save_context_to_file, bind, gets, modify, ret.
    destruct (hot_writable w) eqn:Hw; cbn.
    + eexists _, _. split; [reflexivity|]. repeat split.
      intros _. unfold init, _load_context_from_file, bind, gets, ret. cbn.
      eexists _, _. split; reflexivity.
    + eexists _, _. split; [reflexivity|]. repeat split. discriminate.
  - intros h Hne. rewrite get_context_cases. now rewrite bool_decide_eq_false_2.
Qed.

End HotFacts.

(** ** Routing *)

Module RoutingFacts.

Import Router Samples.

(** C2.  Whenever [watcher_status] is ["FAIL"], [route_after_watcher]
    returns ["router"], whatever [last_agent] and the task fields are. *)
Theorem fail_routes_to_router (st : AgentState) :
  watcher_status st = Some (py "FAIL") ->
  route_after_watcher st = Goto (py "router").
Proof.
  intros H. unfold route_after_watcher. now rewrite bool_decide_eq_true_2.
Qed.

Lemma fail_routes_to_router_witness :
  watcher_status failed_state = Some (py "FAIL") /\
  route_after_watcher failed_state = Goto (py "router").
Proof.
  split; [reflexivity|]. apply (fail_routes_to_router failed_state). reflexivity.
Defined.

(** With a pending Feature Engineer task after the Cleaner, a PASS
    verdict schedules the Feature Engineer alone, although both fan-out
    tasks are set. *)
Lemma fan_out_waits_for_feature_engineer :
  present (viz_task cleaner_passed_state) = true /\
  present (trainer_task cleaner_passed_state) = true /\
  watcher_status cleaner_passed_state = Some (py "PASS") /\
  route_after_watcher cleaner_passed_state = Goto (py "feature_engineer") /\
  (py "visualizer" ∉ scheduled (route_after_watcher cleaner_passed_state)) /\
  (py "trainer" ∉ scheduled (route_after_watcher cleaner_passed_state)).
Proof.
  repeat split; try reflexivity.
  - vm_compute. intros H. apply list_elem_of_singleton in H. discriminate.
  - vm_compute. intros H. apply list_elem_of_singleton in H. discriminate.
Qed.

(** C8, amended.  When both [viz_task] and [trainer_task] are non-empty,
    the verdict is PASS, and the reviewed agent is the Feature Engineer,
    or the Cleaner with no Feature Engineer task pending,
    [route_after_watcher] returns the list [["visualizer", "trainer"]]. *)
Theorem fan_out_after_last_stage (st : AgentState) :
  watcher_status st = Some (py "PASS") ->
  present (viz_task st) = true ->
  present (trainer_task st) = true ->
  last_agent st = Some (py "feature_engineer") \/
  (last_agent st = Some (py "cleaner") /\ present (fe_task st) = false) ->
  route_after_watcher st = FanOut [py "visualizer"; py "trainer"] /\
  (py "visualizer") ∈ scheduled (route_after_watcher st) /\
  (py "trainer") ∈ scheduled (route_after_watcher st).
Proof.
  intros Hs Hv Ht Hl.
  assert (E : route_after_watcher st = FanOut [py "visualizer"; py "trainer"]).
  { unfold route_after_watcher. rewrite Hs, Hv, Ht.
    destruct Hl as [Hl|[Hl Hf]]; rewrite Hl; [|rewrite Hf]; reflexivity. }
  rewrite E. split; [reflexivity|]. cbn [scheduled].
  split; [apply list_elem_of_here|apply list_elem_of_further, list_elem_of_here].
Qed.

Lemma fan_out_after_last_stage_witness :
  route_after_watcher fe_passed_state = FanOut [py "visualizer"; py "trainer"] /\
  (py "visualizer") ∈ scheduled (route_after_watcher fe_passed_state) /\
  (py "trainer") ∈ scheduled (route_after_watcher fe_passed_state).
Proof.
  apply (fan_out_after_last_stage fe_passed_state); try reflexivity.
  left. reflexivity.
Defined.

End RoutingFacts.
(** ** Warm memory *)

Module WarmFacts.

Import Warm.
Local Open Scope prog_scope.
#[local] Arguments py : simpl never.
#[local] Arguments chat_key : simpl never.
#[local] Arguments meta_key : simpl never.
#[local] Arguments dumps : simpl never.
#[local] Arguments loads : simpl never.
#[local] Arguments msg_obj : simpl never.
#[local] Arguments Nat.ltb : simpl never.
#[local] Arguments ARCHIVE_THRESHOLD : simpl never.

Lemma dict_get_set_eq d k v : dict_get (dict_set d k v) k = Some v.
Proof.
  induction d as [|[k' v'] d IH]; cbn.
  - now rewrite bool_decide_eq_true_2.
  - case_bool_decide as Hk; cbn.
    + now rewrite bool_decide_eq_true_2.
    + now rewrite bool_decide_eq_false_2.
Qed.

Lemma loads_all_dumps q w :
  forallb wf q = true -> loads_all (map dumps q) w = (Ok q, w).
Proof.
  induction q as [|m q IH]; intros H; cbn.
  - reflexivity.
  - cbn in H. apply andb_true_iff in H as [Hm Hq].
    rewrite JsonFacts.loads_dumps by exact Hm.
    unfold bind. now rewrite IH.
Qed.

Lemma slice_from_neg {A} (n : nat) (l : list A) :
  (0 < n)%nat -> slice_from (- Z.of_nat n) l = lastn n l.
Proof.
  intros Hn. unfold slice_from, lastn.
  replace (- Z.of_nat n <? 0)%Z with true by (symmetry; apply Z.ltb_lt; lia).
  f_equal. lia.
Qed.

Lemma forallb_drop {A} (f : A -> bool) n l :
  forallb f l = true -> forallb f (drop n l) = true.
Proof.
  revert l. induction n as [|n IH]; intros [|x l] H; try exact H.
  cbn in *. apply andb_true_iff in H as [_ H]. now apply IH.
Qed.

Lemma ensure_run w :
  dump_writable w = true ->
  exists w', _ensure_local_store w = (Ok (store_of (dump_file w)), w') /\
             store_of (dump_file w') = store_of (dump_file w) /\
             dump_writable w' = true /\
             redis_lists w' = redis_lists w /\ redis_hashes w' = redis_hashes w /\
             archiver_inbox w' = archiver_inbox w /\ clock_reads w' = clock_reads w /\
             llm_attempts w' = llm_attempts w /\ tool_runs w' = tool_runs w /\
             tool_rounds w' = tool_rounds w.
Proof.
  intros Hw. unfold _ensure_local_store, _save_local_store, bind, gets, modify, ret.
  destruct (dump_file w) eqn:Hf; cbn; rewrite ?Hw; cbn.
  - eexists. split; [reflexivity|]. cbn. repeat split; assumption.
  - exists w. rewrite Hf. repeat split; assumption.
  - exists w. rewrite Hf. repeat split; assumption.
Qed.

Lemma get_recent_messages_at_rest self w q (n : nat) :
  at_rest self w q -> (0 < n)%nat ->
  exists w', get_recent_messages self (Z.of_nat n) w = (Ok (lastn n q), w') /\
             at_rest self w' q /\ archiver_inbox w' = archiver_inbox w /\
             clock_reads w' = clock_reads w /\
             llm_attempts w' = llm_attempts w /\ tool_runs w' = tool_runs w /\
             tool_rounds w' = tool_rounds w.
Proof.
  unfold at_rest, held, decodable, get_recent_messages. intros [H Hd] Hn.
  destruct (use_redis self) eqn:Hr.
  - specialize (Hd eq_refl). exists w.
    unfold bind, lrange_to_end, gets. rewrite H.
    rewrite slice_from_neg by exact Hn.
    unfold lastn. rewrite length_map, skipn_map.
    rewrite loads_all_dumps by now apply forallb_drop.
    repeat split; auto.
  - destruct H as [Hw Hq].
    destruct (ensure_run w Hw) as (w' & He & Hs & Hw' & _ & _ & Hi & Hc & Hl & Ht & Ho).
    exists w'. unfold bind. rewrite He, Hq. unfold ret.
    rewrite slice_from_neg by exact Hn.
    rewrite Hs. repeat split; auto.
Qed.

Lemma wf_msg_obj role content ts :
  text role = true -> text content = true -> text ts = true ->
  wf (msg_obj role content ts) = true.
Proof.
  intros H1 H2 H3. unfold msg_obj. cbn [wf forallb map fst snd].
  rewrite H1, H2, H3. vm_compute. reflexivity.
Qed.

Lemma forallb_app_1 {A} (f : A -> bool) l x :
  forallb f l = true -> f x = true -> forallb f (l ++ [x]) = true.
Proof. intros H1 H2. rewrite forallb_app, H1. cbn. now rewrite H2. Qed.

Lemma add_message_held E self role content w q :
  held self w q -> decodable self q ->
  exists w',
    add_message E self role content w = (Ok tt, w') /\
    held self w' (window (q ++ [msg_obj role content (now E (clock_reads w))])) /\
    archiver_inbox w' =
      archiver_inbox w ++ overflow (q ++ [msg_obj role content (now E (clock_reads w))]) /\
    clock_reads w' = S (clock_reads w) /\
    llm_attempts w' = llm_attempts w /\ tool_runs w' = tool_runs w /\
    tool_rounds w' = tool_rounds w.
Proof.
  intros H Hd.
  set (m := msg_obj role content (now E (clock_reads w))).
  unfold add_message, read_clock, held, decodable in *.
  unfold bind at 1. unfold bind at 1. unfold gets at 1. unfold bind at 1.
  unfold modify at 1. unfold ret at 1. fold m.
  set (w1 := set_clock_reads (S (clock_reads w)) w).
  unfold window, overflow. rewrite length_app. cbn [length].
  destruct (use_redis self) eqn:Hu.
  - specialize (Hd eq_refl). rename H into Hl. rename Hd into Hwf.
    unfold bind, rpush, llen, modify, gets. cbn.
    rewrite lookup_insert_eq. cbn [default]. rewrite Hl. unfold id.
    rewrite length_app, length_map. cbn [length].
    destruct (ARCHIVE_THRESHOLD <? length q + 1)%nat eqn:Hlen.
    + apply Nat.ltb_lt in Hlen. unfold ARCHIVE_THRESHOLD in Hlen.
      unfold _pop_oldest_sync. rewrite Hu.
      unfold bind, lpop, gets, modify, ret, start_archiver, modify. cbn.
      rewrite lookup_insert_eq.
      replace (map dumps q ++ [dumps m]) with (map dumps (q ++ [m]))
        by (rewrite map_app; reflexivity).
      destruct q as [|x q']; [cbn in Hlen; lia|].
      cbn [forallb] in Hwf. apply andb_true_iff in Hwf as [Hx _].
      cbn [app map take drop ARCHIVE_BATCH_SIZE].
      destruct (map dumps (q' ++ [m])) as [|y ys] eqn:Er.
      { apply (f_equal length) in Er. rewrite length_map, length_app in Er. cbn in Er. lia. }
      cbn. rewrite JsonFacts.loads_dumps by exact Hx. cbn.
      eexists. split; [reflexivity|]. cbn.
      rewrite lookup_insert_eq. cbn. rewrite !drop_0. repeat split; try reflexivity.
      now rewrite Er.
    + cbn. eexists. split; [reflexivity|]. cbn.
      rewrite lookup_insert_eq. cbn. rewrite map_app, app_nil_r.
      repeat split; reflexivity.
  - destruct H as [Hw Hq].
    assert (Hw1 : dump_writable w1 = true) by exact Hw.
    destruct (ensure_run w1 Hw1) as (w2 & He & Hs & Hw2 & _ & _ & Hi & Hcl & Hll & Htr & Hto).
    unfold bind at 1. unfold bind at 1. rewrite He.
    change (dump_file w1) with (dump_file w) in *.
    set (store := store_of (dump_file w)) in *.
    set (store' := match dict_get store (chat_key self) with
                   | Some _ => store
                   | None => dict_set store (chat_key self) (VList [])
                   end).
    assert (Hg : dict_get store' (chat_key self) = Some (VList q)).
    { unfold store'. destruct (dict_get store (chat_key self)) eqn:Eg.
      - cbn in Hq. now rewrite Eg, Hq.
      - cbn in Hq. rewrite dict_get_set_eq. now f_equal. }
    rewrite Hg.
    unfold bind at 1. unfold _save_local_store at 1. unfold bind at 1, gets at 1.
    rewrite Hw2. unfold modify at 1, ret at 1.
    rewrite length_app. cbn [length].
    set (store2 := dict_set store' (chat_key self) (VList (q ++ [m]))).
    set (w3 := set_dump_file (Holds store2) w2).
    destruct (ARCHIVE_THRESHOLD <? length q + 1)%nat eqn:Hlen.
    + apply Nat.ltb_lt in Hlen. unfold ARCHIVE_THRESHOLD in Hlen.
      unfold _pop_oldest_sync. rewrite Hu.
      assert (Hw3 : dump_writable w3 = true) by exact Hw2.
      destruct (ensure_run w3 Hw3) as (w4 & He4 & Hs4 & Hw4 & _ & _ & Hi4 & Hcl4 & Hll4 & Htr4 & Hto4).
      unfold bind at 1. unfold bind at 1. rewrite He4.
      change (store_of (dump_file w3)) with store2 in *.
      unfold store2 at 1. rewrite dict_get_set_eq. cbn [default from_option id].
      unfold bind at 1. unfold _save_local_store at 1. unfold bind at 1, gets at 1.
      rewrite Hw4. unfold modify at 1, ret at 1.
      destruct (q ++ [m]) as [|x rest] eqn:Eq.
      { apply (f_equal length) in Eq. rewrite length_app in Eq. cbn in Eq. lia. }
      cbn [take drop ARCHIVE_BATCH_SIZE]. rewrite take_0.
      unfold start_archiver, modify.
      eexists. split; [reflexivity|]. cbn.
      rewrite dict_get_set_eq. cbn.
      rewrite Hi4. cbn. rewrite Hi. cbn.
      rewrite Hcl4. cbn. rewrite Hcl. cbn.
      rewrite Hll4, Htr4, Hto4. cbn. rewrite Hll, Htr, Hto. cbn.
      repeat split; try reflexivity. assumption.
    + unfold ret. eexists. split; [reflexivity|]. cbn.
      unfold store2. rewrite dict_get_set_eq. cbn.
      rewrite Hi, Hcl, Hll, Htr, Hto. cbn. rewrite app_nil_r.
      repeat split; try reflexivity. assumption.
Qed.

Lemma decodable_window self q m :
  decodable self q -> wf m = true -> decodable self (window (q ++ [m])).
Proof.
  unfold decodable, window. intros Hq Hm Hu. specialize (Hq Hu).
  destruct (ARCHIVE_THRESHOLD <? length (q ++ [m]))%nat.
  - apply forallb_drop. now apply forallb_app_1.
  - now apply forallb_app_1.
Qed.

Lemma add_message_at_rest E self role content w q :
  at_rest self w q ->
  text role = true -> text content = true -> text (now E (clock_reads w)) = true ->
  exists w',
    add_message E self role content w = (Ok tt, w') /\
    at_rest self w' (window (q ++ [msg_obj role content (now E (clock_reads w))])) /\
    archiver_inbox w' =
      archiver_inbox w ++ overflow (q ++ [msg_obj role content (now E (clock_reads w))]) /\
    clock_reads w' = S (clock_reads w) /\
    llm_attempts w' = llm_attempts w /\ tool_runs w' = tool_runs w /\
    tool_rounds w' = tool_rounds w.
Proof.
  intros [Hh Hd] Hr Hc Ht.
  destruct (add_message_held E self role content w q Hh Hd) as (w' & Hrun & Hh' & Hrest).
  exists w'. split; [exact Hrun|]. split; [|exact Hrest].
  split; [exact Hh'|]. apply decodable_window; [exact Hd|]. now apply wf_msg_obj.
Qed.

Lemma length_stamped E t calls : length (stamped E t calls) = length calls.
Proof. revert t. induction calls as [|[r c] calls IH]; intros t; cbn; [|rewrite IH]; reflexivity. Qed.

Lemma lastn_app_r {A} n (a b : list A) : (n <= length b)%nat -> lastn n (a ++ b) = lastn n b.
Proof.
  intros H. unfold lastn. rewrite length_app.
  rewrite drop_app. rewrite drop_ge by lia. cbn. f_equal. lia.
Qed.

Lemma lastn_all {A} n (l : list A) : (length l <= n)%nat -> lastn n l = l.
Proof. intros H. unfold lastn. replace (length l - n)%nat with 0%nat by lia. apply drop_0. Qed.

Lemma length_lastn {A} n (l : list A) : length (lastn n l) = Nat.min n (length l).
Proof. unfold lastn. rewrite length_drop. lia. Qed.

Lemma front_lastn {A} n (l : list A) : front n l ++ lastn n l = l.
Proof. apply take_drop. Qed.

Lemma add_messages_at_rest E self calls :
  (forall n, text (now E n) = true) ->
  Forall (fun c => text (fst c) = true /\ text (snd c) = true) calls ->
  forall w q,
    at_rest self w q -> (length q <= ARCHIVE_THRESHOLD)%nat ->
    exists w',
      add_messages E self calls w = (Ok tt, w') /\
      at_rest self w' (lastn ARCHIVE_THRESHOLD (q ++ stamped E (clock_reads w) calls)) /\
      archiver_inbox w' =
        archiver_inbox w ++
        map (fun x => [x]) (front ARCHIVE_THRESHOLD (q ++ stamped E (clock_reads w) calls)) /\
      clock_reads w' = (clock_reads w + length calls)%nat.
Proof.
  intros Hnow. induction 1 as [|[role content] calls [Hr Hc] Hcalls IH]; intros w q Hq Hlen.
  - exists w. cbn [add_messages stamped]. rewrite app_nil_r.
    rewrite lastn_all by exact Hlen. unfold front.
    replace (length q - ARCHIVE_THRESHOLD)%nat with 0%nat by lia.
    cbn. rewrite app_nil_r. split; [reflexivity|]. split; [exact Hq|].
    split; [reflexivity|lia].
  - cbn [fst snd] in *.
    destruct (add_message_at_rest E self role content w q Hq Hr Hc (Hnow _))
      as (w1 & Hrun & Hq1 & Hi1 & Hc1 & _).
    set (m := msg_obj role content (now E (clock_reads w))) in *.
    assert (Hlen1 : (length (window (q ++ [m])) <= ARCHIVE_THRESHOLD)%nat).
    { unfold window. rewrite length_app. cbn [length].
      destruct (ARCHIVE_THRESHOLD <? length q + 1)%nat eqn:Hl.
      - rewrite length_drop, length_app. cbn. unfold ARCHIVE_BATCH_SIZE. lia.
      - apply Nat.ltb_ge in Hl. rewrite length_app. cbn. lia. }
    destruct (IH w1 _ Hq1 Hlen1) as (w2 & Hrun2 & Hq2 & Hi2 & Hc2).
    exists w2. cbn [add_messages stamped]. fold m.
    unfold bind. rewrite Hrun, Hrun2. rewrite Hc1 in *.
    set (ms := stamped E (S (clock_reads w)) calls) in *.
    assert (Hsplit :
      lastn ARCHIVE_THRESHOLD (window (q ++ [m]) ++ ms)
        = lastn ARCHIVE_THRESHOLD (q ++ m :: ms) /\
      overflow (q ++ [m]) ++
        map (fun x => [x]) (front ARCHIVE_THRESHOLD (window (q ++ [m]) ++ ms))
        = map (fun x => [x]) (front ARCHIVE_THRESHOLD (q ++ m :: ms))).
    { unfold window, overflow. rewrite length_app. cbn [length].
      replace (q ++ m :: ms) with ((q ++ [m]) ++ ms) by (rewrite <- app_assoc; reflexivity).
      destruct (ARCHIVE_THRESHOLD <? length q + 1)%nat eqn:Hl.
      - apply Nat.ltb_lt in Hl. unfold ARCHIVE_BATCH_SIZE.
        destruct (q ++ [m]) as [|x rest] eqn:Eq.
        { apply (f_equal length) in Eq. rewrite length_app in Eq. cbn in Eq. lia. }
        assert (Hrest : length rest = ARCHIVE_THRESHOLD).
        { apply (f_equal length) in Eq. rewrite length_app in Eq. cbn in Eq. lia. }
        cbn [drop take]. rewrite drop_0, take_0.
        change ((x :: rest) ++ ms) with ([x] ++ (rest ++ ms)).
        split.
        + symmetry. apply lastn_app_r. rewrite length_app. lia.
        + unfold front. rewrite !length_app. cbn [length app].
          replace (1 + (length rest + length ms) - ARCHIVE_THRESHOLD)%nat
            with (S (length rest + length ms - ARCHIVE_THRESHOLD)) by lia.
          reflexivity.
      - split; reflexivity. }
    destruct Hsplit as [Hs1 Hs2].
    rewrite Hs1 in Hq2. rewrite Hi2, Hi1, <- app_assoc, Hs2.
    split; [reflexivity|]. split; [exact Hq2|]. split; [reflexivity|].
    cbn [length]. lia.
Qed.

Lemma metadata_text_round_trip self key v s w :
  meta_ready self w ->
  (v = VStr s \/ (structured v = true /\ s = dumps v)) ->
  exists w1 w2,
    save_metadata self key v w = (Ok tt, w1) /\
    get_metadata self key w1 = (Ok (decoded s), w2).
Proof.
  intros Hready Hv.
  assert (Hform : match v with VDict _ | VList _ => VStr (dumps v) | _ => v end = VStr s).
  { destruct Hv as [->|[Hs ->]]; [reflexivity|]. destruct v; try discriminate; reflexivity. }
  unfold save_metadata, get_metadata, meta_ready in *. rewrite Hform.
  destruct (use_redis self).
  - unfold hset, hget, redis_encode, bind, modify, gets, ret. cbn.
    eexists _, _. split; [reflexivity|]. cbn.
    rewrite !lookup_insert_eq. cbn. rewrite lookup_insert_eq. unfold decoded.
    destruct (loads s); reflexivity.
  - destruct Hready as [Hw [meta Hmeta]].
    destruct (ensure_run w Hw) as (w1 & He & Hs & Hw1 & _).
    unfold bind at 1. rewrite He.
    set (store := store_of (dump_file w)) in *.
    set (store' := match dict_get store (meta_key self) with
                   | Some _ => store
                   | None => dict_set store (meta_key self) (VDict [])
                   end).
    assert (Hg : dict_get store' (meta_key self) = Some (VDict meta)).
    { unfold store'. destruct (dict_get store (meta_key self)) eqn:Eg.
      - cbn in Hmeta. now rewrite Eg, Hmeta.
      - cbn in Hmeta. rewrite dict_get_set_eq. now f_equal. }
    rewrite Hg.
    unfold _save_local_store at 1. unfold bind at 1, gets at 1.
    rewrite Hw1. unfold modify at 1, ret at 1.
    set (store2 := dict_set store' (meta_key self) (VDict (dict_set meta key (VStr s)))).
    set (w2 := set_dump_file (Holds store2) w1).
    assert (Hw2 : dump_writable w2 = true) by exact Hw1.
    destruct (ensure_run w2 Hw2) as (w3 & He3 & _).
    exists w2, w3. split; [reflexivity|].
    unfold bind at 1. unfold bind at 1. rewrite He3.
    change (store_of (dump_file w2)) with store2.
    unfold store2 at 1. rewrite dict_get_set_eq. cbn [default from_option id].
    rewrite dict_get_set_eq. cbn [default from_option id]. unfold ret at 1.
    unfold decoded. destruct (loads s); reflexivity.
Qed.



(** The same eleven calls, run on either backend. *)
Example eleven_messages_on_both_backends :
  (let '(r, w) := (add_messages Samples.tool_hungry Samples.file_session
                     Samples.eleven_calls ;;;
                   get_recent_messages Samples.file_session 10) Samples.fresh in
   (r, archiver_inbox w))
  = (Ok (map Samples.sample_message
           [py "m1"; py "m2"; py "m3"; py "m4"; py "m5";
            py "m6"; py "m7"; py "m8"; py "m9"; py "m10"]),
     [[Samples.sample_message (py "m0")]]) /\
  (let '(r, w) := (add_messages Samples.offline Samples.redis_session
                     Samples.eleven_calls ;;;
                   get_recent_messages Samples.redis_session 10) Samples.fresh in
   (r, archiver_inbox w))
  = (Ok (map Samples.sample_message
           [py "m1"; py "m2"; py "m3"; py "m4"; py "m5";
            py "m6"; py "m7"; py "m8"; py "m9"; py "m10"]),
     [[Samples.sample_message (py "m0")]]).
Proof. split; vm_compute; reflexivity. Qed.




End WarmFacts.

(** ** Workers *)

Module AgentFacts.

Import Warm Agent WarmFacts.
Local Open Scope prog_scope.
#[local] Arguments py : simpl never.

Section Closure.

Context {A B : Type}.
Variable k : Escape.

Lemma avoids_ret (a : A) : avoids k (ret a).
Proof. intros w. destruct k; cbn; tauto. Qed.

Lemma avoids_gets (f : World -> A) : avoids k (gets f).
Proof. intros w. destruct k; cbn; tauto. Qed.

Lemma avoids_modify (f : World -> World) : avoids k (modify f).
Proof. intros w. destruct k; cbn; tauto. Qed.

Lemma avoids_raise cls msg : avoids k (@raise A (Exception cls msg)).
Proof. intros w. destruct k; cbn; tauto. Qed.

Lemma avoids_bind (m : M A) (f : A -> M B) :
  avoids k m -> (forall a, avoids k (f a)) -> avoids k (bind m f).
Proof.
  intros Hm Hf w. unfold bind. specialize (Hm w).
  destruct (m w) as [[a|e|] w'] eqn:E; cbn in *.
  - apply Hf.
  - destruct k, e; cbn in *; tauto.
  - destruct k; cbn in *; tauto.
Qed.

Lemma avoids_try_except (m : M A) (h : str -> str -> M A) :
  avoids k m -> (forall c e, avoids k (h c e)) -> avoids k (try_except m h).
Proof.
  intros Hm Hh w. unfold try_except. specialize (Hm w).
  destruct (m w) as [[a|[|c e]|] w'] eqn:E; cbn in *; try assumption.
  apply Hh.
Qed.

Lemma avoids_try_interrupt (m : M A) (h : M A) :
  avoids k m -> avoids k h -> avoids k (try_interrupt m h).
Proof.
  intros Hm Hh w. unfold try_interrupt. specialize (Hm w).
  destruct (m w) as [[a|[|c e]|] w'] eqn:E; cbn in *; try assumption.
  apply Hh.
Qed.

End Closure.

Lemma interrupt_caught {A} (m h : M A) :
  avoids Interrupt h -> avoids Interrupt (try_interrupt m h).
Proof.
  intros Hh w. unfold try_interrupt.
  destruct (m w) as [[a|[|c e]|] w'] eqn:E; cbn; try tauto. apply Hh.
Qed.

Section Frame.

Context {A B : Type}.
Variable R : World -> World -> Prop.
Context `{!Reflexive R, !Transitive R}.

Lemma preserves_ret (a : A) : preserves R (ret a).
Proof. intros w. cbn. reflexivity. Qed.

Lemma preserves_gets (f : World -> A) : preserves R (gets f).
Proof. intros w. cbn. reflexivity. Qed.

Lemma preserves_raise e : preserves R (@raise A e).
Proof. intros w. cbn. reflexivity. Qed.

Lemma preserves_out_of_fuel : preserves R (@out_of_fuel A).
Proof. intros w. cbn. reflexivity. Qed.

Lemma preserves_modify (f : World -> World) :
  (forall w, R w (f w)) -> preserves R (modify f).
Proof. intros H w. cbn. apply H. Qed.

Lemma preserves_bind (m : M A) (f : A -> M B) :
  preserves R m -> (forall a, preserves R (f a)) -> preserves R (bind m f).
Proof.
  intros Hm Hf w. unfold bind. specialize (Hm w).
  destruct (m w) as [[a|e|] w'] eqn:E; cbn in *; try assumption.
  etransitivity; [exact Hm|]. apply Hf.
Qed.

Lemma preserves_try_except (m : M A) (h : str -> str -> M A) :
  preserves R m -> (forall c e, preserves R (h c e)) -> preserves R (try_except m h).
Proof.
  intros Hm Hh w. unfold try_except. specialize (Hm w).
  destruct (m w) as [[a|[|c e]|] w'] eqn:E; cbn in *; try assumption.
  etransitivity; [exact Hm|]. apply Hh.
Qed.

Lemma preserves_try_interrupt (m : M A) (h : M A) :
  preserves R m -> preserves R h -> preserves R (try_interrupt m h).
Proof.
  intros Hm Hh w. unfold try_interrupt. specialize (Hm w).
  destruct (m w) as [[a|[|c e]|] w'] eqn:E; cbn in *; try assumption.
  etransitivity; [exact Hm|]. apply Hh.
Qed.

End Frame.

#[local] Instance same_rounds_refl : Reflexive same_rounds.
Proof. intros w. reflexivity. Qed.
#[local] Instance same_rounds_trans : Transitive same_rounds.
Proof. intros a b c H1 H2. unfold same_rounds in *. congruence. Qed.
#[local] Instance same_store_refl : Reflexive same_store.
Proof. intros w. repeat split. Qed.
#[local] Instance same_store_trans : Transitive same_store.
Proof.
  intros a b c (H1 & H2 & H3 & H4 & H5 & H6) (G1 & G2 & G3 & G4 & G5 & G6).
  unfold same_store. repeat split; congruence.
Qed.

Ltac mstep :=
  lazymatch goal with
  | |- avoids _ (ret _) => apply avoids_ret
  | |- avoids _ (gets _) => apply avoids_gets
  | |- avoids _ (modify _) => apply avoids_modify
  | |- avoids _ (raise (Exception _ _)) => apply avoids_raise
  | |- avoids _ (bind _ _) => apply avoids_bind; [|intros ?]
  | |- avoids _ (try_except _ _) => apply avoids_try_except; [|intros ? ?]
  | |- avoids _ (try_interrupt _ _) => apply avoids_try_interrupt
  | |- preserves _ (ret _) => apply preserves_ret; exact _
  | |- preserves _ (gets _) => apply preserves_gets; exact _
  | |- preserves _ (raise _) => apply preserves_raise; exact _
  | |- preserves _ out_of_fuel => apply preserves_out_of_fuel; exact _
  | |- preserves _ (modify _) =>
      apply preserves_modify; intros ?; try reflexivity; try (repeat split; reflexivity)
  | |- preserves _ (bind _ _) => apply preserves_bind; [exact _| |intros ?]
  | |- preserves _ (try_except _ _) => apply preserves_try_except; [exact _| |intros ? ?]
  | |- preserves _ (try_interrupt _ _) => apply preserves_try_interrupt; [exact _| |]
  | |- avoids _ (match ?x with _ => _ end) => destruct x
  | |- preserves _ (match ?x with _ => _ end) => destruct x
  | |- avoids _ (let _ := _ in _) => cbv zeta
  | |- preserves _ (let _ := _ in _) => cbv zeta
  end.

Lemma loads_all_avoids k raw : avoids k (loads_all raw).
Proof. induction raw as [|m raw IH]; cbn [loads_all]; repeat mstep. exact IH. Qed.

Lemma loads_all_rounds raw : preserves same_rounds (loads_all raw).
Proof. induction raw as [|m raw IH]; cbn [loads_all]; repeat mstep. exact IH. Qed.

Lemma add_message_avoids E k self role content : avoids k (add_message E self role content).
Proof.
  unfold add_message, read_clock, rpush, llen, _pop_oldest_sync, lpop, start_archiver,
    _ensure_local_store, _save_local_store.
  repeat mstep; apply loads_all_avoids.
Qed.

Ltac warm_unfold :=
  unfold add_message, get_recent_messages, read_clock, rpush, llen, lrange_to_end,
    _pop_oldest_sync, lpop, start_archiver, _ensure_local_store, _save_local_store.

Lemma add_message_rounds E self role content :
  preserves same_rounds (add_message E self role content).
Proof. warm_unfold. repeat mstep; apply loads_all_rounds. Qed.

Lemma get_recent_messages_avoids k self limit : avoids k (get_recent_messages self limit).
Proof. warm_unfold. repeat mstep; apply loads_all_avoids. Qed.

Lemma get_recent_messages_rounds self limit :
  preserves same_rounds (get_recent_messages self limit).
Proof. warm_unfold. repeat mstep; apply loads_all_rounds. Qed.

Lemma history_entries_avoids k msgs : avoids k (history_entries msgs).
Proof.
  induction msgs as [|m msgs IH]; cbn [history_entries]; repeat mstep; try exact IH.
  all: unfold history_entry, str_field; repeat mstep.
Qed.

Lemma history_entries_rounds msgs : preserves same_rounds (history_entries msgs).
Proof.
  induction msgs as [|m msgs IH]; cbn [history_entries]; repeat mstep; try exact IH.
  all: unfold history_entry, str_field; repeat mstep.
Qed.

Lemma build_history_avoids k self : avoids k (_build_history self).
Proof.
  unfold _build_history. repeat mstep.
  - apply get_recent_messages_avoids.
  - apply history_entries_avoids.
Qed.

Lemma build_history_rounds self : preserves same_rounds (_build_history self).
Proof.
  unfold _build_history. repeat mstep.
  - apply get_recent_messages_rounds.
  - apply history_entries_rounds.
Qed.

Lemma invoke_timeout E t msgs : avoids Timeout (invoke E t msgs).
Proof.
  unfold invoke. repeat mstep. destruct e; [|apply avoids_raise].
  intros w. cbn. tauto.
Qed.

Lemma invoke_interrupt E t msgs : calm E -> avoids Interrupt (invoke E t msgs).
Proof.
  intros [Hc _]. unfold invoke. apply avoids_bind; [mstep|]. intros n.
  apply avoids_bind; [mstep|]. intros _.
  destruct (llm E n t msgs) as [r|[|c e]] eqn:El.
  - mstep.
  - exfalso. eapply Hc. exact El.
  - mstep.
Qed.

Lemma invoke_store E t msgs : preserves same_store (invoke E t msgs).
Proof. unfold invoke. repeat mstep. Qed.

Lemma invoke_rounds E t msgs : preserves same_rounds (invoke E t msgs).
Proof. unfold invoke. repeat mstep. Qed.

Lemma fallback_timeout E ps msgs : avoids Timeout (fallback E ps msgs).
Proof.
  induction ps as [|p ps IH]; cbn [fallback]; repeat mstep; [apply invoke_timeout|exact IH].
Qed.

Lemma fallback_interrupt E ps msgs : calm E -> avoids Interrupt (fallback E ps msgs).
Proof.
  intros Hc. induction ps as [|p ps IH]; cbn [fallback]; repeat mstep;
    [now apply invoke_interrupt|exact IH].
Qed.

Lemma fallback_store E ps msgs : preserves same_store (fallback E ps msgs).
Proof.
  induction ps as [|p ps IH]; cbn [fallback]; repeat mstep; [apply invoke_store|exact IH].
Qed.

Lemma fallback_rounds E ps msgs : preserves same_rounds (fallback E ps msgs).
Proof.
  induction ps as [|p ps IH]; cbn [fallback]; repeat mstep; [apply invoke_rounds|exact IH].
Qed.

Lemma robust_invoke_timeout E msgs : avoids Timeout (_robust_invoke E msgs).
Proof.
  unfold _robust_invoke. repeat mstep; [apply invoke_timeout|apply fallback_timeout].
Qed.

Lemma robust_invoke_interrupt E msgs : calm E -> avoids Interrupt (_robust_invoke E msgs).
Proof.
  intros Hc. unfold _robust_invoke. repeat mstep;
    [now apply invoke_interrupt|now apply fallback_interrupt].
Qed.

Lemma robust_invoke_store E msgs : preserves same_store (_robust_invoke E msgs).
Proof.
  unfold _robust_invoke. repeat mstep; [apply invoke_store|apply fallback_store].
Qed.

Lemma robust_invoke_rounds E msgs : preserves same_rounds (_robust_invoke E msgs).
Proof.
  unfold _robust_invoke. repeat mstep; [apply invoke_rounds|apply fallback_rounds].
Qed.

Lemma run_tool_timeout E self tc : avoids Timeout (run_tool E self tc).
Proof.
  unfold run_tool. repeat mstep. destruct e; [|apply avoids_raise].
  intros w. cbn. tauto.
Qed.

Lemma run_tool_interrupt E self tc : calm E -> avoids Interrupt (run_tool E self tc).
Proof.
  intros [_ Hc]. unfold run_tool. destruct (select_tool self (tc_name tc)); [|mstep].
  apply avoids_try_except; [|intros; mstep].
  apply avoids_bind; [mstep|]. intros n. apply avoids_bind; [mstep|]. intros _.
  destruct (tool E n s (tc_args tc)) as [r|[|c e]] eqn:El.
  - mstep.
  - exfalso. eapply Hc. exact El.
  - mstep.
Qed.

Lemma run_tool_store E self tc : preserves same_store (run_tool E self tc).
Proof. unfold run_tool. repeat mstep. Qed.

Lemma run_tool_rounds E self tc : preserves same_rounds (run_tool E self tc).
Proof. unfold run_tool. repeat mstep. Qed.

Lemma run_tools_timeout E self tcs : avoids Timeout (run_tools E self tcs).
Proof.
  induction tcs as [|tc tcs IH]; cbn [run_tools]; repeat mstep;
    [apply run_tool_timeout|exact IH].
Qed.

Lemma run_tools_interrupt E self tcs : calm E -> avoids Interrupt (run_tools E self tcs).
Proof.
  intros Hc. induction tcs as [|tc tcs IH]; cbn [run_tools]; repeat mstep;
    [now apply run_tool_interrupt|exact IH].
Qed.

Lemma run_tools_store E self tcs : preserves same_store (run_tools E self tcs).
Proof.
  induction tcs as [|tc tcs IH]; cbn [run_tools]; repeat mstep;
    [apply run_tool_store|exact IH].
Qed.

Lemma run_tools_rounds E self tcs : preserves same_rounds (run_tools E self tcs).
Proof.
  induction tcs as [|tc tcs IH]; cbn [run_tools]; repeat mstep;
    [apply run_tool_rounds|exact IH].
Qed.

Lemma loop_guard (ai_msg : Content * list ToolCall) (loop_count : nat) :
  negb (bool_decide (snd ai_msg = [])) && (loop_count <? MAX_LOOPS)%nat = true ->
  snd ai_msg <> [] /\ (loop_count < MAX_LOOPS)%nat.
Proof.
  intros H. apply andb_true_iff in H as [H1 H2].
  apply negb_true_iff, bool_decide_eq_false in H1. apply Nat.ltb_lt in H2. now split.
Qed.

Lemma tool_loop_timeout E self fuel :
  forall ai_msg messages loop_count,
    (MAX_LOOPS - loop_count <= fuel)%nat ->
    avoids Timeout (tool_loop E fuel self ai_msg messages loop_count).
Proof.
  induction fuel as [|fuel IH]; intros ai msgs lc Hf; cbn [tool_loop];
    destruct (negb (bool_decide (snd ai = [])) && (lc <? MAX_LOOPS)%nat) eqn:Hg.
  - apply loop_guard in Hg as [_ Hg]. lia.
  - mstep.
  - apply loop_guard in Hg as [_ Hg]. repeat mstep.
    + apply run_tools_timeout.
    + apply robust_invoke_timeout.
    + apply IH. lia.
  - mstep.
Qed.

Lemma tool_loop_interrupt E self fuel :
  calm E ->
  forall ai_msg messages loop_count,
    avoids Interrupt (tool_loop E fuel self ai_msg messages loop_count).
Proof.
  intros Hc. induction fuel as [|fuel IH]; intros ai msgs lc; cbn [tool_loop];
    destruct (negb (bool_decide (snd ai = [])) && (lc <? MAX_LOOPS)%nat) eqn:Hg.
  - intros w. cbn. tauto.
  - mstep.
  - repeat mstep.
    + now apply run_tools_interrupt.
    + now apply robust_invoke_interrupt.
    + apply IH.
  - mstep.
Qed.

Lemma tool_loop_store E self fuel :
  forall ai_msg messages loop_count,
    preserves same_store (tool_loop E fuel self ai_msg messages loop_count).
Proof.
  induction fuel as [|fuel IH]; intros ai msgs lc; cbn [tool_loop];
    destruct (negb (bool_decide (snd ai = [])) && (lc <? MAX_LOOPS)%nat) eqn:Hg;
    repeat mstep.
  - apply run_tools_store.
  - apply robust_invoke_store.
  - apply IH.
Qed.

Lemma tool_loop_rounds E self fuel :
  forall ai_msg messages loop_count w,
    (loop_count <= MAX_LOOPS)%nat ->
    (tool_rounds (snd (tool_loop E fuel self ai_msg messages loop_count w))
     <= tool_rounds w + (MAX_LOOPS - loop_count))%nat.
Proof.
  induction fuel as [|fuel IH]; intros ai msgs lc w Hlc; cbn [tool_loop];
    destruct (negb (bool_decide (snd ai = [])) && (lc <? MAX_LOOPS)%nat) eqn:Hg;
    try (cbn [snd out_of_fuel ret]; lia).
  apply loop_guard in Hg as [_ Hg].
  unfold bind at 1. unfold modify at 1.
  set (w1 := set_tool_rounds (S (tool_rounds w)) w).
  assert (Hw1 : tool_rounds w1 = S (tool_rounds w)) by reflexivity.
  clearbody w1.
  unfold bind at 1.
  pose proof (run_tools_rounds E self (snd ai) w1) as H1. unfold same_rounds in H1.
  destruct (run_tools E self (snd ai) w1) as [[outs|e|] w2]; cbn [fst snd] in *;
    try lia.
  unfold bind at 1.
  pose proof (robust_invoke_rounds E (msgs ++ outs) w2) as H2. unfold same_rounds in H2.
  destruct (_robust_invoke E (msgs ++ outs) w2) as [[ai'|e|] w3]; cbn [fst snd] in *;
    try lia.
  etransitivity; [apply IH; lia|]. lia.
Qed.

Lemma readable_msg_obj role content ts : readable (msg_obj role content ts) = true.
Proof. reflexivity. Qed.

Lemma history_entry_readable m :
  readable m = true -> exists x, forall w, history_entry m w = (Ok x, w).
Proof.
  destruct m as [| | | | |l|d]; try discriminate. cbn [readable].
  unfold history_entry, str_field, bind.
  destruct (dict_get d (py "role")) as [[| | | |role| |]|]; try discriminate.
  destruct (dict_get d (py "content")) as [[| | | |content| |]|]; try discriminate.
  intros _. cbn [ret].
  destruct (bool_decide (lower role = py "user")); eexists; intros w; reflexivity.
Qed.

Lemma history_entries_readable msgs :
  forallb readable msgs = true -> exists xs, forall w, history_entries msgs w = (Ok xs, w).
Proof.
  induction msgs as [|m msgs IH]; intros H.
  - exists []. reflexivity.
  - cbn [forallb] in H. apply andb_true_iff in H as [Hm Hms].
    destruct (history_entry_readable m Hm) as [x Hx].
    destruct (IH Hms) as [xs Hxs].
    exists (x :: xs). intros w. cbn [history_entries]. unfold bind.
    rewrite Hx, Hxs. reflexivity.
Qed.

Lemma held_same_store self w w' q : same_store w w' -> held self w q -> held self w' q.
Proof.
  intros (H1 & _ & H3 & H4 & _) H. unfold held in *.
  destruct (use_redis self); [now rewrite H1|]. now rewrite H3, H4.
Qed.

Lemma readable_window q m :
  forallb readable q = true -> readable m = true ->
  forallb readable (window (q ++ [m])) = true.
Proof.
  intros Hq Hm. unfold window.
  destruct (ARCHIVE_THRESHOLD <? length (q ++ [m]))%nat.
  - apply forallb_drop. now apply forallb_app_1.
  - now apply forallb_app_1.
Qed.

(** The first two steps of [run_task] on a ready session. *)
Lemma run_task_prologue E self task w :
  legible E -> ready self w -> text task = true ->
  exists msgs w1 w2 q,
    add_message E (warm_memory self) (py "User") task w = (Ok tt, w1) /\
    _build_history self w1 = (Ok msgs, w2) /\
    at_rest (warm_memory self) w2 q /\
    llm_attempts w2 = llm_attempts w /\ tool_rounds w2 = tool_rounds w.
Proof.
  intros Hnow (q & Hq & Hread) Htask.
  destruct (add_message_at_rest E (warm_memory self) (py "User") task w q Hq
              eq_refl Htask (Hnow _))
    as (w1 & Hadd & Hq1 & _ & _ & Hl1 & _ & Hr1).
  set (q1 := window (q ++ [msg_obj (py "User") task (now E (clock_reads w))])) in *.
  destruct (get_recent_messages_at_rest (warm_memory self) w1 q1 30 Hq1 ltac:(lia))
    as (w2 & Hget & Hq2 & _ & _ & Hl2 & _ & Hr2).
  assert (Hread1 : forallb readable (lastn 30 q1) = true).
  { unfold lastn. apply forallb_drop. unfold q1. now apply readable_window. }
  destruct (history_entries_readable _ Hread1) as [xs Hxs].
  exists (SystemMessage (formatted_system_prompt self) :: xs), w1, w2, q1.
  split; [exact Hadd|]. split.
  - unfold _build_history, bind. change (Z.of_nat 30) with 30%Z in Hget.
    rewrite Hget, Hxs. reflexivity.
  - split; [exact Hq2|]. split; congruence.
Qed.

Lemma try_except_returns {A} (m : M A) (h : str -> str -> M A) w :
  ~ escapes Interrupt (fst (m w)) -> ~ escapes Timeout (fst (m w)) ->
  (forall c e w', exists a, h c e w' = (Ok a, w')) ->
  exists a w', try_except m h w = (Ok a, w').
Proof.
  intros Hi Ht Hh. unfold try_except.
  destruct (m w) as [[a|[|c e]|] w'] eqn:E; cbn in *.
  - eauto.
  - tauto.
  - destruct (Hh c e w') as [a Ha]. eauto.
  - tauto.
Qed.

Lemma run_task_unfold E fuel self task :
  run_task E fuel self task =
  (add_message E (warm_memory self) (py "User") task ;;;
   messages <- _build_history self ;;
   try_except (task_body E fuel self messages)
     (fun _ e => ret (CROSS_MARK ++ py " Agent Error: " ++ e))).
Proof. reflexivity. Qed.

Lemma task_body_timeout E fuel self msgs :
  (MAX_LOOPS <= fuel)%nat -> avoids Timeout (task_body E fuel self msgs).
Proof.
  intros Hf. unfold task_body. repeat mstep.
  - apply robust_invoke_timeout.
  - apply tool_loop_timeout. lia.
  - apply add_message_avoids.
Qed.

Lemma task_body_interrupt E fuel self msgs :
  calm E -> avoids Interrupt (task_body E fuel self msgs).
Proof.
  intros Hc. unfold task_body. repeat mstep.
  - now apply robust_invoke_interrupt.
  - now apply tool_loop_interrupt.
  - apply add_message_avoids.
Qed.

Lemma task_body_rounds E fuel self msgs w :
  (tool_rounds (snd (task_body E fuel self msgs w)) <= tool_rounds w + MAX_LOOPS)%nat.
Proof.
  unfold task_body. unfold bind at 1.
  pose proof (robust_invoke_rounds E msgs w) as H1. unfold same_rounds in H1.
  destruct (_robust_invoke E msgs w) as [[ai|e|] w1]; cbn [fst snd] in *; try lia.
  unfold bind at 1.
  pose proof (tool_loop_rounds E self fuel ai (msgs ++ [AIMessage (fst ai) (snd ai)]) 0 w1
                ltac:(lia)) as H2.
  destruct (tool_loop E fuel self ai (msgs ++ [AIMessage (fst ai) (snd ai)]) 0 w1)
    as [[ai'|e|] w2]; cbn [fst snd] in *; try lia.
  unfold bind at 1.
  pose proof (add_message_rounds E (warm_memory self) (agent_name self)
                (final_text (fst ai')) w2) as H3. unfold same_rounds in H3.
  destruct (add_message E (warm_memory self) (agent_name self) (final_text (fst ai')) w2)
    as [[[]|e|] w3]; cbn [fst snd ret] in *; lia.
Qed.

(** Whatever the environment does, [run_task] with a budget of
    [MAX_LOOPS] iterations finishes, within [MAX_LOOPS] more tool
    rounds. *)
Lemma run_task_finishes E fuel self task w :
  (MAX_LOOPS <= fuel)%nat ->
  ~ escapes Timeout (fst (run_task E fuel self task w)) /\
  (tool_rounds (snd (run_task E fuel self task w)) <= tool_rounds w + MAX_LOOPS)%nat.
Proof.
  intros Hf. split.
  - revert w. change (avoids Timeout (run_task E fuel self task)).
    rewrite run_task_unfold. repeat mstep.
    + apply add_message_avoids.
    + apply build_history_avoids.
    + now apply task_body_timeout.
  - rewrite run_task_unfold. unfold bind at 1.
    pose proof (add_message_rounds E (warm_memory self) (py "User") task w) as H1.
    unfold same_rounds in H1.
    destruct (add_message E (warm_memory self) (py "User") task w) as [[[]|e|] w1];
      cbn [fst snd] in *; try lia.
    unfold bind at 1.
    pose proof (build_history_rounds self w1) as H2. unfold same_rounds in H2.
    destruct (_build_history self w1) as [[msgs|e|] w2]; cbn [fst snd] in *; try lia.
    unfold try_except.
    pose proof (task_body_rounds E fuel self msgs w2) as H3.
    destruct (task_body E fuel self msgs w2) as [[s|[|c e]|] w3]; cbn [fst snd ret] in *; lia.
Qed.

(** On a ready session and with no interruption, [run_task] returns a
    string. *)
Lemma run_task_returns E fuel self task w :
  calm E -> legible E -> ready self w -> text task = true -> (MAX_LOOPS <= fuel)%nat ->
  exists s w', run_task E fuel self task w = (Ok s, w').
Proof.
  intros Hc Hnow Hready Htask Hf.
  destruct (run_task_prologue E self task w Hnow Hready Htask)
    as (msgs & w1 & w2 & q & Hadd & Hbuild & _).
  rewrite run_task_unfold. unfold bind. rewrite Hadd, Hbuild.
  apply try_except_returns.
  - now apply task_body_interrupt.
  - now apply task_body_timeout.
  - intros c e w'. eexists. reflexivity.
Qed.

Lemma robust_invoke_all_fail E msgs w :
  all_fail E (llm_attempts w) msgs ->
  _robust_invoke E msgs w
  = (Raise (Exception (py "RuntimeError") ALL_FAILED),
     set_llm_attempts (llm_attempts w + 4) w).
Proof.
  intros ((c0 & m0 & H0 & Hv) & (c1 & m1 & H1) & (c2 & m2 & H2) & (c3 & m3 & H3)).
  unfold validation_error in Hv.
  unfold _robust_invoke, fallback, providers, invoke, try_except, bind, gets, modify, raise.
  cbn [fst snd llm_attempts set_llm_attempts].
  rewrite H0. rewrite Hv. cbn [llm_attempts set_llm_attempts].
  replace (S (llm_attempts w)) with (llm_attempts w + 1)%nat by lia. rewrite H1.
  cbn [llm_attempts set_llm_attempts].
  replace (S (llm_attempts w + 1)) with (llm_attempts w + 2)%nat by lia. rewrite H2.
  cbn [llm_attempts set_llm_attempts].
  replace (S (llm_attempts w + 2)) with (llm_attempts w + 3)%nat by lia. rewrite H3.
  cbn [llm_attempts set_llm_attempts].
  replace (S (llm_attempts w + 3)) with (llm_attempts w + 4)%nat by lia.
  reflexivity.
Qed.

Lemma robust_invoke_raises E msgs w e w' :
  calm E -> _robust_invoke E msgs w = (Raise e, w') -> all_fail E (llm_attempts w) msgs.
Proof.
  intros [Hc _].
  unfold _robust_invoke, fallback, providers, invoke, try_except, bind, gets, modify, raise,
    all_fail, validation_error.
  cbn [fst snd llm_attempts set_llm_attempts].
  replace (llm_attempts w + 1)%nat with (S (llm_attempts w)) by lia.
  replace (llm_attempts w + 2)%nat with (S (S (llm_attempts w))) by lia.
  replace (llm_attempts w + 3)%nat with (S (S (S (llm_attempts w)))) by lia.
  pose proof (Hc (llm_attempts w) Current msgs) as N0.
  destruct (llm E (llm_attempts w) Current msgs) as [r|[|c0 m0]]; cbn;
    [intros Heq; discriminate Heq|congruence|].
  destruct (contains (py "tool call validation failed") m0
            || contains (py "not in request.tools") m0) eqn:Hv; cbn;
    [intros Heq; discriminate Heq|].
  pose proof (Hc (S (llm_attempts w)) (Provider (py "gemini")) msgs) as N1.
  destruct (llm E (S (llm_attempts w)) (Provider (py "gemini")) msgs) as [r|[|c1 m1]];
    cbn; [intros Heq; discriminate Heq|congruence|].
  pose proof (Hc (S (S (llm_attempts w))) (Provider (py "groq")) msgs) as N2.
  destruct (llm E (S (S (llm_attempts w))) (Provider (py "groq")) msgs) as [r|[|c2 m2]];
    cbn; [intros Heq; discriminate Heq|congruence|].
  pose proof (Hc (S (S (S (llm_attempts w)))) (Provider (py "openrouter")) msgs) as N3.
  destruct (llm E (S (S (S (llm_attempts w)))) (Provider (py "openrouter")) msgs)
    as [r|[|c3 m3]]; cbn; [intros Heq; discriminate Heq|congruence|].
  intros _. repeat split; eauto.
Qed.

Lemma unreachable_all_fail E n msgs : unreachable E -> all_fail E n msgs.
Proof.
  intros H. unfold all_fail. split; [apply H|].
  repeat split; match goal with |- context [llm E ?k ?t ?m] =>
    destruct (H k t m) as (c & e & Hl & _); eauto end.
Qed.

Lemma run_task_unreachable E fuel self task w :
  unreachable E -> legible E -> ready self w -> text task = true ->
  exists w',
    run_task E fuel self task w
    = (Ok (CROSS_MARK ++ py " Agent Error: " ++ ALL_FAILED), w').
Proof.
  intros Hu Hnow Hready Htask.
  destruct (run_task_prologue E self task w Hnow Hready Htask)
    as (msgs & w1 & w2 & q & Hadd & Hbuild & _).
  rewrite run_task_unfold. unfold bind at 1. rewrite Hadd. unfold bind at 1. rewrite Hbuild.
  unfold try_except, task_body. unfold bind at 1.
  rewrite robust_invoke_all_fail by now apply unreachable_all_fail.
  eexists. reflexivity.
Qed.

Lemma robust_invoke_answers E msgs w r :
  llm E (llm_attempts w) Current msgs = Returned r ->
  _robust_invoke E msgs w = (Ok r, set_llm_attempts (S (llm_attempts w)) w).
Proof.
  intros H. unfold _robust_invoke, invoke, try_except, bind, gets, modify.
  cbn [fst snd llm_attempts set_llm_attempts]. rewrite H. reflexivity.
Qed.

Lemma run_tool_ok E self tc w :
  calm E ->
  exists out w', run_tool E self tc w = (Ok out, w') /\ same_store w w' /\
                 llm_attempts w' = llm_attempts w /\ tool_rounds w' = tool_rounds w.
Proof.
  intros [_ Hc]. unfold run_tool.
  destruct (select_tool self (tc_name tc)) as [t|].
  - unfold try_except, bind, gets, modify. cbn [fst snd].
    pose proof (Hc (tool_runs w) t (tc_args tc)) as N.
    destruct (tool E (tool_runs w) t (tc_args tc)) as [out|[|c e]]; [|congruence|];
      eexists _, _; (split; [reflexivity|]); repeat split.
  - eexists _, _. split; [reflexivity|]. repeat split.
Qed.

Lemma run_tools_ok E self tcs w :
  calm E ->
  exists outs w', run_tools E self tcs w = (Ok outs, w') /\ same_store w w' /\
                  llm_attempts w' = llm_attempts w /\ tool_rounds w' = tool_rounds w.
Proof.
  intros Hc. revert w. induction tcs as [|tc tcs IH]; intros w.
  - exists [], w. split; [reflexivity|]. repeat split.
  - destruct (run_tool_ok E self tc w Hc) as (out & w1 & H1 & S1 & L1 & R1).
    destruct (IH w1) as (outs & w2 & H2 & S2 & L2 & R2).
    exists (ToolMessage out (tc_id tc) :: outs), w2.
    cbn [run_tools]. unfold bind. rewrite H1, H2.
    split; [reflexivity|]. split; [etransitivity; eassumption|]. split; congruence.
Qed.

Lemma tool_loop_insistent E self fuel :
  insistent E -> calm E ->
  forall ai_msg messages loop_count w,
    snd ai_msg <> [] ->
    (loop_count <= MAX_LOOPS)%nat -> (MAX_LOOPS - loop_count <= fuel)%nat ->
    exists ai' w',
      tool_loop E fuel self ai_msg messages loop_count w = (Ok ai', w') /\
      same_store w w' /\
      tool_rounds w' = (tool_rounds w + (MAX_LOOPS - loop_count))%nat /\
      llm_attempts w' = (llm_attempts w + (MAX_LOOPS - loop_count))%nat /\
      ((loop_count < MAX_LOOPS)%nat ->
       exists msgs, llm E (llm_attempts w' - 1) Current msgs = Returned ai') /\
      (loop_count = MAX_LOOPS -> ai' = ai_msg).
Proof.
  intros Hins Hc. induction fuel as [|fuel IH]; intros ai msgs lc w Hai Hlc Hf;
    cbn [tool_loop].
  - assert (lc = MAX_LOOPS) as -> by lia.
    rewrite Nat.ltb_irrefl, andb_false_r.
    exists ai, w. split; [reflexivity|]. split; [reflexivity|].
    rewrite Nat.sub_diag, !Nat.add_0_r. repeat split; try reflexivity. lia.
  - destruct (Nat.eq_dec lc MAX_LOOPS) as [->|Hne].
    + rewrite Nat.ltb_irrefl, andb_false_r.
      exists ai, w. split; [reflexivity|]. split; [reflexivity|].
      rewrite Nat.sub_diag, !Nat.add_0_r. repeat split; try reflexivity. lia.
    + assert (Hlt : (lc < MAX_LOOPS)%nat) by lia.
      rewrite bool_decide_eq_false_2 by exact Hai.
      apply Nat.ltb_lt in Hlt as Hltb. rewrite Hltb. cbn [negb andb].
      unfold bind at 1. unfold modify at 1.
      set (w1 := set_tool_rounds (S (tool_rounds w)) w).
      destruct (run_tools_ok E self (snd ai) w1 Hc) as (outs & w2 & H2 & S2 & L2 & R2).
      unfold bind at 1. rewrite H2.
      destruct (Hins (llm_attempts w2) Current (msgs ++ outs)) as (c & tcs & Hl & Htcs).
      unfold bind at 1. rewrite (robust_invoke_answers E _ w2 _ Hl).
      set (w3 := set_llm_attempts (S (llm_attempts w2)) w2).
      cbn [fst snd].
      destruct (IH (c, tcs) ((msgs ++ outs) ++ [AIMessage c tcs]) (S lc) w3 Htcs
                  ltac:(lia) ltac:(lia))
        as (ai' & w' & Hrun & S3 & R3 & L3 & Hreply & Hsame).
      exists ai', w'. split; [exact Hrun|].
      assert (S01 : same_store w w1) by (repeat split).
      assert (S23 : same_store w2 w3) by (repeat split).
      split.
      { transitivity w1; [exact S01|]. transitivity w2; [exact S2|].
        transitivity w3; [exact S23|exact S3]. }
      assert (Rw3 : tool_rounds w3 = S (tool_rounds w)) by (cbn; rewrite R2; reflexivity).
      assert (Lw3 : llm_attempts w3 = S (llm_attempts w)) by (cbn; rewrite L2; reflexivity).
      assert (Lw3' : llm_attempts w3 = S (llm_attempts w2)) by reflexivity.
      split; [lia|]. split; [lia|]. split; [|lia].
      intros _. destruct (Nat.eq_dec (S lc) MAX_LOOPS) as [He|Hne'].
      * rewrite (Hsame He). exists (msgs ++ outs).
        replace (llm_attempts w' - 1)%nat with (llm_attempts w2) by lia. exact Hl.
      * apply Hreply. lia.
Qed.

Lemma run_task_insistent E fuel self task w :
  insistent E -> calm E -> legible E -> ready self w -> text task = true ->
  (MAX_LOOPS <= fuel)%nat ->
  exists msgs c tcs w',
    run_task E fuel self task w = (Ok (final_text c), w') /\
    llm E (llm_attempts w + MAX_LOOPS) Current msgs = Returned (c, tcs) /\
    tool_rounds w' = (tool_rounds w + MAX_LOOPS)%nat.
Proof.
  intros Hins Hc Hnow Hready Htask Hf.
  destruct (run_task_prologue E self task w Hnow Hready Htask)
    as (msgs0 & w1 & w2 & q & Hadd & Hbuild & [Hq Hd] & L2 & R2).
  rewrite run_task_unfold. unfold bind at 1. rewrite Hadd. unfold bind at 1. rewrite Hbuild.
  unfold try_except, task_body.
  destruct (Hins (llm_attempts w2) Current msgs0) as (c0 & tcs0 & Hl0 & Htcs0).
  unfold bind at 1. rewrite (robust_invoke_answers E _ w2 _ Hl0).
  set (w3 := set_llm_attempts (S (llm_attempts w2)) w2). cbn [fst snd].
  destruct (tool_loop_insistent E self fuel Hins Hc (c0, tcs0)
              (msgs0 ++ [AIMessage c0 tcs0]) 0 w3 Htcs0 ltac:(lia) ltac:(lia))
    as ([c tcs] & w4 & Hloop & S4 & R4 & L4 & Hreply & _).
  unfold bind at 1. rewrite Hloop.
  assert (S23 : same_store w2 w3) by (repeat split).
  assert (Hq4 : held (warm_memory self) w4 q).
  { eapply held_same_store; [|exact Hq]. etransitivity; eassumption. }
  destruct (add_message_held E (warm_memory self) (agent_name self) (final_text c) w4 q Hq4 Hd)
    as (w5 & Hadd5 & _ & _ & _ & _ & _ & R5).
  unfold bind at 1. cbn [fst]. rewrite Hadd5.
  destruct (Hreply ltac:(unfold MAX_LOOPS; lia)) as [msgs Hm].
  exists msgs, c, tcs, w5. split; [reflexivity|].
  assert (Lw3 : llm_attempts w3 = S (llm_attempts w)) by (cbn; rewrite L2; reflexivity).
  assert (Rw3 : tool_rounds w3 = tool_rounds w) by (cbn; rewrite R2; reflexivity).
  split.
  - replace (llm_attempts w + MAX_LOOPS)%nat with (llm_attempts w4 - 1)%nat by lia. exact Hm.
  - lia.
Qed.

Lemma tool_loop_responsive E self fuel :
  responsive E -> calm E ->
  forall ai_msg messages loop_count w,
    (loop_count <= MAX_LOOPS)%nat -> (MAX_LOOPS - loop_count <= fuel)%nat ->
    exists ai' w' k,
      tool_loop E fuel self ai_msg messages loop_count w = (Ok ai', w') /\
      same_store w w' /\
      (loop_count + k <= MAX_LOOPS)%nat /\
      tool_rounds w' = (tool_rounds w + k)%nat /\
      llm_attempts w' = (llm_attempts w + k)%nat /\
      (snd ai' = [] \/ (loop_count + k)%nat = MAX_LOOPS) /\
      (k = 0%nat -> ai' = ai_msg) /\
      ((0 < k)%nat -> exists msgs, llm E (llm_attempts w' - 1) Current msgs = Returned ai').
Proof.
  intros Hres Hc. induction fuel as [|fuel IH]; intros ai msgs lc w Hlc Hf;
    cbn [tool_loop].
  - assert (lc = MAX_LOOPS) as -> by lia.
    rewrite Nat.ltb_irrefl, andb_false_r.
    exists ai, w, 0%nat. split; [reflexivity|]. split; [reflexivity|].
    rewrite !Nat.add_0_r. repeat split; try reflexivity; lia.
  - destruct (negb (bool_decide (snd ai = [])) && (lc <? MAX_LOOPS)%nat) eqn:Hguard.
    + apply andb_true_iff in Hguard as [Hai Hltb].
      apply Nat.ltb_lt in Hltb as Hlt.
      unfold bind at 1. unfold modify at 1.
      set (w1 := set_tool_rounds (S (tool_rounds w)) w).
      destruct (run_tools_ok E self (snd ai) w1 Hc) as (outs & w2 & H2 & S2 & L2 & R2).
      unfold bind at 1. rewrite H2.
      destruct (Hres (llm_attempts w2) Current (msgs ++ outs)) as ([c tcs] & Hl).
      unfold bind at 1. rewrite (robust_invoke_answers E _ w2 _ Hl).
      set (w3 := set_llm_attempts (S (llm_attempts w2)) w2).
      cbn [fst snd].
      destruct (IH (c, tcs) ((msgs ++ outs) ++ [AIMessage c tcs]) (S lc) w3
                  ltac:(lia) ltac:(lia))
        as (ai' & w' & k & Hrun & S3 & Hk & R3 & L3 & Hexit & Hzero & Hreply).
      exists ai', w', (S k). split; [exact Hrun|].
      assert (S01 : same_store w w1) by (repeat split).
      assert (S23 : same_store w2 w3) by (repeat split).
      split.
      { transitivity w1; [exact S01|]. transitivity w2; [exact S2|].
        transitivity w3; [exact S23|exact S3]. }
      assert (Rw3 : tool_rounds w3 = S (tool_rounds w)) by (cbn; rewrite R2; reflexivity).
      assert (Lw3 : llm_attempts w3 = S (llm_attempts w)) by (cbn; rewrite L2; reflexivity).
      assert (Lw3' : llm_attempts w3 = S (llm_attempts w2)) by reflexivity.
      split; [lia|]. split; [lia|]. split; [lia|].
      split; [destruct Hexit as [He|He]; [now left|right; lia]|].
      split; [intros Hk0; discriminate Hk0|].
      intros _. destruct (Nat.eq_dec k 0%nat) as [->|Hne].
      * rewrite (Hzero eq_refl). exists (msgs ++ outs).
        replace (llm_attempts w' - 1)%nat with (llm_attempts w2) by lia. exact Hl.
      * apply Hreply. lia.
    + exists ai, w, 0%nat. split; [reflexivity|]. split; [reflexivity|].
      rewrite !Nat.add_0_r. split; [exact Hlc|]. split; [reflexivity|]. split; [reflexivity|].
      split.
      { apply andb_false_iff in Hguard as [Hg|Hg].
        - left. apply negb_false_iff in Hg. now apply bool_decide_eq_true_1 in Hg.
        - right. apply Nat.ltb_ge in Hg. lia. }
      split; [reflexivity|]. intros Hk0. lia.
Qed.

Lemma run_task_responsive E fuel self task w :
  responsive E -> calm E -> legible E -> ready self w -> text task = true ->
  (MAX_LOOPS <= fuel)%nat ->
  exists msgs c tcs w' k,
    run_task E fuel self task w = (Ok (final_text c), w') /\
    (k <= MAX_LOOPS)%nat /\
    tool_rounds w' = (tool_rounds w + k)%nat /\
    llm_attempts w' = (llm_attempts w + k + 1)%nat /\
    llm E (llm_attempts w + k) Current msgs = Returned (c, tcs) /\
    (tcs = [] \/ k = MAX_LOOPS).
Proof.
  intros Hres Hc Hnow Hready Htask Hf.
  destruct (run_task_prologue E self task w Hnow Hready Htask)
    as (msgs0 & w1 & w2 & q & Hadd & Hbuild & [Hq Hd] & L2 & R2).
  rewrite run_task_unfold. unfold bind at 1. rewrite Hadd. unfold bind at 1. rewrite Hbuild.
  unfold try_except, task_body.
  destruct (Hres (llm_attempts w2) Current msgs0) as ([c0 tcs0] & Hl0).
  unfold bind at 1. rewrite (robust_invoke_answers E _ w2 _ Hl0).
  set (w3 := set_llm_attempts (S (llm_attempts w2)) w2). cbn [fst snd].
  destruct (tool_loop_responsive E self fuel Hres Hc (c0, tcs0)
              (msgs0 ++ [AIMessage c0 tcs0]) 0 w3 ltac:(lia) ltac:(lia))
    as ([c tcs] & w4 & k & Hloop & S4 & Hk & R4 & L4 & Hexit & Hzero & Hreply).
  unfold bind at 1. rewrite Hloop.
  assert (S23 : same_store w2 w3) by (repeat split).
  assert (Hq4 : held (warm_memory self) w4 q).
  { eapply held_same_store; [|exact Hq]. etransitivity; eassumption. }
  destruct (add_message_held E (warm_memory self) (agent_name self) (final_text c) w4 q Hq4 Hd)
    as (w5 & Hadd5 & _ & _ & _ & L5 & _ & R5).
  unfold bind at 1. cbn [fst]. rewrite Hadd5.
  assert (Lw3 : llm_attempts w3 = S (llm_attempts w)) by (cbn; rewrite L2; reflexivity).
  assert (Rw3 : tool_rounds w3 = tool_rounds w) by (cbn; rewrite R2; reflexivity).
  assert (Hlast : exists msgs, llm E (llm_attempts w + k) Current msgs = Returned (c, tcs)).
  { destruct (Nat.eq_dec k 0%nat) as [->|Hne].
    - rewrite (Hzero eq_refl). exists msgs0. rewrite Nat.add_0_r, <- L2. exact Hl0.
    - destruct (Hreply ltac:(lia)) as [msgs Hm]. exists msgs.
      replace (llm_attempts w + k)%nat with (llm_attempts w4 - 1)%nat by lia. exact Hm. }
  destruct Hlast as [msgs Hm].
  exists msgs, c, tcs, w5, k. split; [reflexivity|].
  split; [lia|]. split; [lia|]. split; [lia|]. split; [exact Hm|].
  destruct Hexit as [He|He]; [left; exact He|right; lia].
Qed.

(** C5.  For every task and every environment whose models answer each
    invocation (whatever they answer), on a ready session and a budget
    of at least [MAX_LOOPS] iterations, [run_task] returns a string: the
    content of the last response, which is the response to invocation
    [k] after the first for some [k <= MAX_LOOPS = 5], [k] being the
    number of tool rounds run.  The loop stops because that response
    asks for no tool or because [k = 5]; for a model that asks for tool
    calls in every response, [k = 5].  Moreover no environment at all
    makes a run exhaust that budget or run more than 5 tool rounds. *)
Theorem run_task_within_max_loops E fuel self task w :
  responsive E -> calm E -> legible E -> ready self w -> text task = true ->
  (MAX_LOOPS <= fuel)%nat ->
  (exists msgs c tcs w' k,
     run_task E fuel self task w = (Ok (final_text c), w') /\
     (k <= 5)%nat /\
     tool_rounds w' = (tool_rounds w + k)%nat /\
     llm_attempts w' = (llm_attempts w + k + 1)%nat /\
     llm E (llm_attempts w + k) Current msgs = Returned (c, tcs) /\
     (tcs = [] \/ k = 5%nat) /\
     (insistent E -> k = 5%nat)) /\
  (forall E' self' task' w0,
     ~ escapes Timeout (fst (run_task E' fuel self' task' w0)) /\
     (tool_rounds (snd (run_task E' fuel self' task' w0)) <= tool_rounds w0 + 5)%nat).
Proof.
  intros Hres Hc Hnow Hready Htask Hf. split.
  - destruct (run_task_responsive E fuel self task w Hres Hc Hnow Hready Htask Hf)
      as (msgs & c & tcs & w' & k & Hrun & Hk & R & L & Hm & Hexit).
    exists msgs, c, tcs, w', k. change MAX_LOOPS with 5%nat in *.
    repeat (split; [assumption|]).
    intros Hins. destruct Hexit as [->|Hk5]; [|exact Hk5].
    destruct (Hins (llm_attempts w + k)%nat Current msgs) as (c' & tcs' & Hl & Hne).
    rewrite Hm in Hl. injection Hl as _ Htcs. congruence.
  - intros E' self' task' w0. apply (run_task_finishes E' fuel self' task' w0 Hf).
Qed.

Lemma run_task_within_max_loops_witness :
  exists w',
    run_task Samples.tool_hungry 5 (Router.cleaner_agent Samples.tool_hungry) (py "drop nulls")
      Samples.fresh = (Ok (py "round 5"), w') /\
    tool_rounds w' = 5%nat /\ llm_attempts w' = 6%nat.
Proof.
  assert (Hins : insistent Samples.tool_hungry).
  { intros n t msgs. eexists _, _. split; [reflexivity|]. intros Heq; discriminate Heq. }
  destruct (run_task_within_max_loops Samples.tool_hungry 5
              (Router.cleaner_agent Samples.tool_hungry) (py "drop nulls") Samples.fresh)
    as [(msgs & c & tcs & w' & k & Hrun & _ & R & L & Hm & _ & Hk) _].
  - intros n t msgs. eexists. reflexivity.
  - split; intros; intros Heq; discriminate Heq.
  - intros n. reflexivity.
  - exists []. split; [|reflexivity]. split; [split; reflexivity|].
    intros Heq; discriminate Heq.
  - reflexivity.
  - unfold MAX_LOOPS. lia.
  - rewrite (Hk Hins) in *. injection Hm as <- _.
    exists w'. split; [exact Hrun|]. split; [exact R|exact L].
Defined.

(** The run of every provider fails, and [run_task] answers with the
    error text. *)
Lemma provider_failure_is_returned_not_raised :
  fst (_robust_invoke Samples.offline [] Samples.fresh)
    = Raise (Exception (py "RuntimeError") ALL_FAILED) /\
  fst (run_task Samples.offline 5 (Router.cleaner_agent Samples.offline) (py "drop nulls")
         Samples.fresh)
    = Ok (CROSS_MARK ++
          py " Agent Error: All LLM providers failed. Please check your API keys or connection.").
Proof. split; vm_compute; reflexivity. Qed.

(** C3, amended.  On a ready session and with no interrupt, [run_task]
    returns a string whatever the models and the tools do.
    [_robust_invoke] raises exactly when the bound model and the three
    fallback providers all fail (the first not with a tool-validation
    error), and what it raises is the [RuntimeError]; [run_task] catches
    it: when every provider is unreachable the string it returns is the
    error text that names this failure. *)
Theorem run_task_reports_provider_failure E fuel self task w :
  calm E -> legible E -> ready self w -> text task = true -> (MAX_LOOPS <= fuel)%nat ->
  (exists s w', run_task E fuel self task w = (Ok s, w')) /\
  (forall msgs w0,
     (exists e w1, _robust_invoke E msgs w0 = (Raise e, w1))
     <-> all_fail E (llm_attempts w0) msgs) /\
  (forall msgs w0 e w1,
     _robust_invoke E msgs w0 = (Raise e, w1) ->
     e = Exception (py "RuntimeError") ALL_FAILED) /\
  (unreachable E ->
   exists w',
     run_task E fuel self task w
     = (Ok (CROSS_MARK ++ py " Agent Error: " ++ ALL_FAILED), w')).
Proof.
  intros Hc Hnow Hready Htask Hf.
  split; [now apply run_task_returns|].
  split.
  { intros msgs w0. split.
    - intros (e & w1 & Hr). eapply robust_invoke_raises; eassumption.
    - intros Ha. eexists _, _. now apply robust_invoke_all_fail. }
  split.
  { intros msgs w0 e w1 Hr.
    pose proof (robust_invoke_raises E msgs w0 e w1 Hc Hr) as Ha.
    rewrite (robust_invoke_all_fail E msgs w0 Ha) in Hr. congruence. }
  intros Hu. now apply run_task_unreachable.
Qed.

Lemma run_task_reports_provider_failure_witness :
  exists w',
    run_task Samples.offline 5 (Router.cleaner_agent Samples.offline) (py "drop nulls") Samples.fresh
    = (Ok (CROSS_MARK ++ py " Agent Error: " ++ ALL_FAILED), w').
Proof.
  destruct (run_task_reports_provider_failure Samples.offline 5
              (Router.cleaner_agent Samples.offline) (py "drop nulls") Samples.fresh)
    as (_ & _ & _ & Hu).
  - split; intros; intros Heq; discriminate Heq.
  - intros n. reflexivity.
  - exists []. split; [|reflexivity]. split; [reflexivity|]. intros _. reflexivity.
  - reflexivity.
  - unfold MAX_LOOPS. lia.
  - apply Hu. intros n t msgs. eexists _, _. split; reflexivity.
Defined.

End AgentFacts.

(** ** The nodes of the graph *)

Module NodeFacts.

Import Json Warm Agent Router AgentFacts.
Local Open Scope prog_scope.

#[local] Arguments py : simpl never.

Lemma fail_is_not_retry : Some (py "FAIL") <> Some (py "RETRY").
Proof. intros Heq. vm_compute in Heq. discriminate Heq. Qed.

Lemma run_agent_safely_fail agent_func task st feedback :
  run_agent_safely agent_func task (with_verdict st (py "FAIL") feedback)
  = run_bare agent_func task.
Proof.
  unfold run_agent_safely. cbn [watcher_status with_verdict].
  rewrite bool_decide_eq_false_2 by exact fail_is_not_retry. reflexivity.
Qed.

Lemma run_agent_safely_retry agent_func task st feedback :
  run_agent_safely agent_func task (with_verdict st (py "RETRY") feedback)
  = run_bare agent_func (wrapped (Some feedback) task).
Proof.
  unfold run_agent_safely. cbn [watcher_status watcher_feedback with_verdict].
  rewrite bool_decide_eq_true_2 by reflexivity. reflexivity.
Qed.

Lemma watcher_verdicts E fuel st w :
  match fst (watcher_node E fuel st w) with
  | Ok st' => exists s, watcher_status st' = Some s /\ s ∈ VERDICTS
  | _ => True
  end.
Proof.
  unfold watcher_node. unfold bind at 1.
  destruct (try_interrupt _ _ w) as [[[review|]|e|] w1]; cbn [fst]; try exact I.
  - unfold bind at 1.
    destruct (try_except _ _ w1) as [[[v|]|e|] w2]; cbn [fst]; try exact I.
    + destruct v as [| | | | | |d]; cbn [fst raise]; try exact I.
      unfold bind at 1.
      destruct (dict_get d (py "status")) as [[| | | |s| |]|]; cbn [fst raise ret]; try exact I;
        repeat match goal with |- context [bool_decide ?P] => destruct (bool_decide P) end;
        cbn [fst ret]; eexists; (split; [reflexivity|]); unfold VERDICTS;
        repeat first [apply list_elem_of_here | apply list_elem_of_further].
    + eexists; split; [reflexivity|]. unfold VERDICTS.
      repeat first [apply list_elem_of_here | apply list_elem_of_further].
  - eexists; split; [reflexivity|]. unfold VERDICTS.
    repeat first [apply list_elem_of_here | apply list_elem_of_further].
Qed.


Lemma router_node_unparsed E st w content :
  router_llm E (llm_attempts w) (router_prompt E st) = Returned content ->
  unparsed (repair_json E content) = true ->
  router_node E st w
  = (Ok (VStr (strip content),
         with_tasks st None None None None
           [AI (py "Router Decision: " ++ show E (VDict []))]),
     set_llm_attempts (S (llm_attempts w)) w).
Proof.
  intros Hllm Hrep. unfold router_node, bind, gets, modify, try_except.
  cbn [fst snd]. rewrite Hllm. cbn [ret fst snd].
  destruct (repair_json E content) as [[| | | | | |d]|[|cls msg]]; try discriminate Hrep;
    reflexivity.
Qed.

(** The Router answers in prose with a space on either side: the chat
    response is the text without them. *)
Lemma chat_response_is_stripped :
  exists st' w',
    router_llm Samples.offline 0 (router_prompt Samples.offline Samples.initial_state)
      = Returned (py " Hello there ") /\
    unparsed (repair_json Samples.offline (py " Hello there ")) = true /\
    router_node Samples.offline Samples.initial_state Samples.fresh
      = (Ok (VStr (py "Hello there"), st'), w') /\
    VStr (py "Hello there") <> VStr (py " Hello there ").
Proof.
  eexists _, _. split; [reflexivity|]. split; [vm_compute; reflexivity|].
  split; [vm_compute; reflexivity|]. intros Heq. vm_compute in Heq. discriminate Heq.
Qed.

(** C6, amended.  When the Router model returns [content] and the
    repair of [content] raises an exception or yields a value that is
    not an object, [router_node] returns; the four tasks are absent, the
    chat response is [content] without its leading and trailing white
    space, and [route_after_router] resolves to [END]. *)
Theorem unparsed_router_output_ends_turn E st w content :
  router_llm E (llm_attempts w) (router_prompt E st) = Returned content ->
  unparsed (repair_json E content) = true ->
  exists st' w',
    router_node E st w = (Ok (VStr (strip content), st'), w') /\
    cleaner_task st' = None /\ fe_task st' = None /\
    viz_task st' = None /\ trainer_task st' = None /\
    route_after_router st' = Goto END.
Proof.
  intros Hllm Hrep. eexists _, _.
  split; [exact (router_node_unparsed E st w content Hllm Hrep)|].
  repeat split.
Qed.

Lemma unparsed_router_output_ends_turn_witness :
  exists st' w',
    router_node Samples.offline Samples.initial_state Samples.fresh
      = (Ok (VStr (py "Hello there"), st'), w') /\
    cleaner_task st' = None /\ fe_task st' = None /\
    viz_task st' = None /\ trainer_task st' = None /\
    route_after_router st' = Goto END.
Proof.
  exact (unparsed_router_output_ends_turn Samples.offline Samples.initial_state
           Samples.fresh (py " Hello there ") eq_refl eq_refl).
Defined.


Lemma text_app a b : text (a ++ b) = text a && text b.
Proof. apply forallb_app. Qed.

Lemma watcher_node_review E fuel st w review w1 :
  run_task E fuel (watcher_agent E) (py "Review this output: " ++ last_agent_output st) w
    = (Ok review, w1) ->
  (forall d, repair_json E review <> Returned (VDict d)) ->
  watcher_node E fuel st w
  = match repair_json E review with
    | Failed (Exception _ _) => (Ok (with_verdict st (py "PASS") UNPARSEABLE_NOTE), w1)
    | Failed KeyboardInterrupt => (Raise KeyboardInterrupt, w1)
    | Returned _ =>
        (Raise (Exception (py "AttributeError") (py "object has no attribute 'get'")), w1)
    end.
Proof.
  intros Hrun Hnd. unfold watcher_node, bind, try_interrupt, try_except.
  rewrite Hrun. cbn [fst snd ret].
  destruct (repair_json E review) as [[| | | | | |d]|[|cls msg]]; try reflexivity.
  now destruct (Hnd d).
Qed.



(** A repair that yields something other than an object is not caught:
    the [.get] that follows is outside the [try]. *)
Lemma non_object_review_raises E fuel st w review w1 v :
  run_task E fuel (watcher_agent E) (py "Review this output: " ++ last_agent_output st) w
    = (Ok review, w1) ->
  repair_json E review = Returned v -> (forall d, v <> VDict d) ->
  watcher_node E fuel st w
  = (Raise (Exception (py "AttributeError") (py "object has no attribute 'get'")), w1).
Proof.
  intros Hrun Hrep Hv.
  rewrite (watcher_node_review E fuel st w review w1 Hrun)
    by (intros d Hd; rewrite Hrep in Hd; injection Hd as ->; now destruct (Hv d)).
  rewrite Hrep. reflexivity.
Qed.

Lemma retry_is_no_verdict : py "RETRY" ∉ VERDICTS.
Proof.
  unfold VERDICTS. intros Hin.
  repeat (apply elem_of_cons in Hin as [Heq|Hin];
          [vm_compute in Heq; discriminate Heq|]).
  now apply elem_of_nil in Hin.
Qed.

(** C4.  A worker node that runs on a state whose verdict is [FAIL]
    hands [run_task] the task as the Router wrote it: the feedback is
    wrapped into the task under the verdict [RETRY] only, and no state
    the Watcher returns carries that verdict, [watcher_node] having
    turned it into [FAIL]. *)
Theorem failed_work_is_rerun_on_the_bare_task :
  (forall agent_func task st feedback,
      run_agent_safely agent_func task (with_verdict st (py "FAIL") feedback)
      = run_bare agent_func task) /\
  (forall agent_func task st feedback,
      run_agent_safely agent_func task (with_verdict st (py "RETRY") feedback)
      = run_bare agent_func (wrapped (Some feedback) task)) /\
  (forall E fuel st w,
      match fst (watcher_node E fuel st w) with
      | Ok st' => exists s, watcher_status st' = Some s /\ s ∈ VERDICTS
      | _ => True
      end) /\
  (py "RETRY" ∉ VERDICTS) /\
  (forall E fuel st feedback,
      let st' := with_verdict st (py "FAIL") feedback in
      cleaner_node E fuel st'
      = match runnable (cleaner_task st) with
        | None => ret st'
        | Some task =>
            result <- run_bare (run_task E fuel (cleaner_agent E)) task ;;
            ret (with_result st' [AI (py "Cleaner: " ++ result)] (Some (py "cleaner")))
        end /\
      fe_node E fuel st'
      = match runnable (fe_task st) with
        | None => ret st'
        | Some task =>
            result <- run_bare (run_task E fuel (fe_agent E)) task ;;
            ret (with_result st' [AI (py "FE: " ++ result)] (Some (py "feature_engineer")))
        end /\
      viz_node E fuel st'
      = match runnable (viz_task st) with
        | None => ret st'
        | Some task =>
            result <- run_bare (run_task E fuel (viz_agent E)) task ;;
            ret (with_result st' [AI (py "Visualizer: " ++ result)] (last_agent st))
        end /\
      trainer_node E fuel st'
      = match runnable (trainer_task st) with
        | None => ret st'
        | Some task =>
            result <- run_bare (run_task E fuel (trainer_agent E)) task ;;
            ret (with_result st' [AI (py "Trainer: " ++ result)] (last_agent st))
        end).
Proof.
  split; [exact run_agent_safely_fail|]. split; [exact run_agent_safely_retry|].
  split; [exact watcher_verdicts|]. split; [exact retry_is_no_verdict|].
  intros E fuel st feedback st'.
  unfold cleaner_node, fe_node, viz_node, trainer_node. subst st'.
  cbn [cleaner_task fe_task viz_task trainer_task last_agent with_verdict].
  repeat split; match goal with |- context [runnable ?t] => destruct (runnable t) end;
    try reflexivity; now rewrite run_agent_safely_fail.
Qed.

(** The Cleaner rerun after a [FAIL] whose feedback is "traceback
    present": the task logged for the worker is the task alone. *)
Example failed_cleaner_task_is_logged_bare :
  fst ((cleaner_node Samples.plain_spoken 5 Samples.failed_state ;;;
        get_recent_messages (warm_memory (cleaner_agent Samples.plain_spoken)) 30)
         Samples.fresh)
  = Ok [msg_obj (py "User") (py "drop nulls") (py "2025-01-01T00:00:00");
        msg_obj (py "Cleaner") (py "Looks fine to me.") (py "2025-01-01T00:00:00")].
Proof. vm_compute. reflexivity. Qed.

End NodeFacts.
(** ** Memory: further properties *)

Module MemoryFacts.

Import Json Hot Warm Agent Sessions WarmFacts AgentFacts.
Local Open Scope prog_scope.

#[local] Arguments py : simpl never.
#[local] Arguments dumps : simpl never.
#[local] Arguments loads : simpl never.

(** *** Hot memory *)

(** A context set through one object is the context of every object
    built afterwards, when the file could be written; when it could
    not, the objects built afterwards still load what the file held. *)
Theorem context_persists (h : HotMemory) (s : str) (w : World) :
  s <> [] -> text s = true ->
  exists h1 w1 h2 w2,
    set_context h s w = (Ok h1, w1) /\
    get_context h1 = s /\
    Hot.init w1 = (Ok h2, w2) /\
    (hot_writable w = true -> get_context h2 = s) /\
    (hot_writable w = false -> Hot.init w = (Ok h2, w)).
Proof.
  intros Hs _.
  unfold set_context, _save_context_to_file, Hot.init, _load_context_from_file,
    bind, gets, modify, ret.
  destruct (hot_writable w) eqn:Hw; cbn.
  - eexists _, _, _, _. split; [reflexivity|].
    split; [rewrite HotFacts.get_context_cases; now rewrite bool_decide_eq_false_2|].
    split; [reflexivity|]. split; [|intros Hf; discriminate Hf].
    intros _. rewrite HotFacts.get_context_cases. now rewrite bool_decide_eq_false_2.
  - destruct (hot_file w) eqn:Hf; cbn;
      (eexists _, _, _, _; split; [reflexivity|];
       split; [rewrite HotFacts.get_context_cases; now rewrite bool_decide_eq_false_2|];
       split; [rewrite Hf; reflexivity|]; split; [intros Hx; discriminate Hx|];
       intros _; reflexivity).
Qed.

Lemma context_persists_witness :
  exists h1 w1 h2 w2,
    set_context {| _global_context := [] |} (py "Monthly sales, 2019-2024") Samples.fresh
      = (Ok h1, w1) /\
    Hot.init w1 = (Ok h2, w2) /\
    get_context h2 = py "Monthly sales, 2019-2024".
Proof.
  destruct (context_persists {| _global_context := [] |} (py "Monthly sales, 2019-2024")
              Samples.fresh)
    as (h1 & w1 & h2 & w2 & Hset & _ & Hinit & Hw & _).
  - intros Heq. vm_compute in Heq. discriminate Heq.
  - vm_compute. reflexivity.
  - exists h1, w1, h2, w2. split; [exact Hset|]. split; [exact Hinit|]. now apply Hw.
Defined.

(** *** Dicts as association lists *)

Lemma dict_get_set_ne d k k' v : k <> k' -> dict_get (dict_set d k v) k' = dict_get d k'.
Proof.
  intros Hne. induction d as [|[k0 v0] d IH]; cbn.
  - now rewrite bool_decide_eq_false_2.
  - case_bool_decide as H0; cbn.
    + subst k0. now rewrite !bool_decide_eq_false_2.
    + now rewrite IH.
Qed.

Lemma dict_get_del_ne d k k' : k <> k' -> dict_get (dict_del d k) k' = dict_get d k'.
Proof.
  intros Hne. induction d as [|[k0 v0] d IH]; cbn; [reflexivity|].
  case_bool_decide as H0; cbn.
  - subst k0. now rewrite bool_decide_eq_false_2.
  - now rewrite IH.
Qed.

Lemma dict_get_absent d k : k ∉ map fst d -> dict_get d k = None.
Proof.
  induction d as [|[k0 v0] d IH]; cbn; [reflexivity|]. intros Hn.
  apply not_elem_of_cons in Hn as [Hne Hn].
  rewrite bool_decide_eq_false_2 by congruence. now apply IH.
Qed.

Lemma dict_del_keys d k k' : k' ∈ map fst (dict_del d k) -> k' ∈ map fst d.
Proof.
  induction d as [|[k0 v0] d IH]; cbn; [trivial|].
  case_bool_decide as H0; cbn.
  - intros Hin. now apply list_elem_of_further.
  - intros Hin. apply elem_of_cons in Hin as [->|Hin].
    + apply list_elem_of_here.
    + apply list_elem_of_further. now apply IH.
Qed.

Lemma distinct_del d k : distinct (map fst d) = true -> distinct (map fst (dict_del d k)) = true.
Proof.
  induction d as [|[k0 v0] d IH]; cbn; [trivial|]. intros H.
  apply andb_true_iff in H as [Hk Hd]. apply negb_true_iff in Hk.
  apply bool_decide_eq_false_1 in Hk.
  case_bool_decide as H0; cbn; [exact Hd|].
  rewrite IH by exact Hd. rewrite andb_true_r. apply negb_true_iff.
  apply bool_decide_eq_false_2. intros Hin. apply Hk. eapply dict_del_keys, Hin.
Qed.

Lemma dict_get_del_eq d k : distinct (map fst d) = true -> dict_get (dict_del d k) k = None.
Proof.
  induction d as [|[k0 v0] d IH]; cbn; [reflexivity|]. intros H.
  apply andb_true_iff in H as [Hk Hd]. apply negb_true_iff in Hk.
  apply bool_decide_eq_false_1 in Hk.
  case_bool_decide as H0; cbn.
  - subst k0. now apply dict_get_absent.
  - rewrite bool_decide_eq_false_2 by exact H0. now apply IH.
Qed.

Lemma chat_key_inj a b : chat_key a = chat_key b -> session_id a = session_id b.
Proof. unfold chat_key. apply app_inv_head. Qed.

Lemma chat_is_not_meta a b : chat_key a <> meta_key b.
Proof. unfold chat_key, meta_key. vm_compute. intros Heq. discriminate Heq. Qed.

(** *** Reading the queue *)

Lemma slice_from_map {A B} (f : A -> B) start l :
  slice_from start (map f l) = map f (slice_from start l).
Proof. unfold slice_from. now rewrite length_map, skipn_map. Qed.

Lemma get_recent_messages_slice self w q limit :
  at_rest self w q ->
  exists w', get_recent_messages self limit w = (Ok (slice_from (- limit) q), w') /\
             at_rest self w' q.
Proof.
  unfold at_rest, held, decodable, get_recent_messages. intros [H Hd].
  destruct (use_redis self) eqn:Hr.
  - specialize (Hd eq_refl). exists w.
    split; [|split; [exact H|intros _; exact Hd]].
    unfold bind, lrange_to_end, gets. rewrite H, slice_from_map.
    rewrite loads_all_dumps by (unfold slice_from; now apply forallb_drop).
    reflexivity.
  - destruct H as [Hw Hq].
    destruct (ensure_run w Hw) as (w' & He & Hs & Hw' & _).
    exists w'. unfold bind. rewrite He, Hq. unfold ret.
    split; [reflexivity|]. rewrite Hs. split; [split; assumption|].
    intros Hx; discriminate Hx.
Qed.

(** [get_recent_messages(limit)] on a session at rest with queue [q]:
    the last [limit] messages for a positive [limit], all of [q] for
    [limit = 0], and [q] without its first [n] messages for [limit =
    -n]; the queue is left as it was. *)
Theorem recent_messages_by_limit self w q :
  at_rest self w q ->
  (forall n : nat, (0 < n)%nat ->
      fst (get_recent_messages self (Z.of_nat n) w) = Ok (lastn n q)) /\
  fst (get_recent_messages self 0 w) = Ok q /\
  (forall n : nat, fst (get_recent_messages self (- Z.of_nat n) w) = Ok (drop n q)) /\
  (forall limit, at_rest self (snd (get_recent_messages self limit w)) q).
Proof.
  intros Hq. split; [|split; [|split]].
  - intros n Hn. destruct (get_recent_messages_slice self w q (Z.of_nat n) Hq) as (w' & -> & _).
    cbn [fst]. now rewrite slice_from_neg.
  - destruct (get_recent_messages_slice self w q 0 Hq) as (w' & -> & _). reflexivity.
  - intros n. destruct (get_recent_messages_slice self w q (- Z.of_nat n) Hq) as (w' & -> & _).
    cbn [fst]. unfold slice_from. rewrite Z.opp_involutive.
    replace (Z.of_nat n <? 0)%Z with false by (symmetry; apply Z.ltb_ge; lia).
    now rewrite Nat2Z.id.
  - intros limit.
    destruct (get_recent_messages_slice self w q limit Hq) as (w' & -> & Hq'). exact Hq'.
Qed.

Lemma recent_messages_by_limit_witness :
  fst (get_recent_messages Samples.file_session 0
         (snd (add_messages Samples.tool_hungry Samples.file_session Samples.eleven_calls
                 Samples.fresh)))
    = Ok (map Samples.sample_message
            [py "m1"; py "m2"; py "m3"; py "m4"; py "m5";
             py "m6"; py "m7"; py "m8"; py "m9"; py "m10"]) /\
  fst (get_recent_messages Samples.file_session 2
         (snd (add_messages Samples.tool_hungry Samples.file_session Samples.eleven_calls
                 Samples.fresh)))
    = Ok (map Samples.sample_message [py "m9"; py "m10"]).
Proof.
  destruct (recent_messages_by_limit Samples.file_session
              (snd (add_messages Samples.tool_hungry Samples.file_session
                      Samples.eleven_calls Samples.fresh))
              (map Samples.sample_message
                 [py "m1"; py "m2"; py "m3"; py "m4"; py "m5";
                  py "m6"; py "m7"; py "m8"; py "m9"; py "m10"]))
    as (Hpos & Hzero & _).
  - split; [split; vm_compute; reflexivity|]. intros Hx. discriminate Hx.
  - split; [exact Hzero|]. exact (Hpos 2%nat ltac:(lia)).
Defined.

(** *** Sessions side by side *)

#[local] Instance elsewhere_refl self : Reflexive (elsewhere self).
Proof. intros w. repeat split. Qed.

#[local] Instance elsewhere_trans self : Transitive (elsewhere self).
Proof.
  intros a b c (H1 & H2 & H3 & H4 & H5) (G1 & G2 & G3 & G4 & G5).
  unfold elsewhere. split; [|split; [|split; [|split]]]; try congruence.
  - intros k Hk. rewrite G1, H1 by exact Hk. reflexivity.
  - intros k Hk. rewrite G3, H3 by exact Hk. reflexivity.
Qed.

Lemma elsewhere_step self a b c :
  elsewhere self a b -> elsewhere self b c -> elsewhere self a c.
Proof. apply elsewhere_trans. Qed.

Lemma loads_all_world raw w : snd (loads_all raw w) = w.
Proof.
  revert w. induction raw as [|m raw IH]; intros w; cbn [loads_all]; [reflexivity|].
  destruct (loads m); [|reflexivity]. unfold bind. specialize (IH w).
  destruct (loads_all raw w) as [[vs|e|] w']; cbn in *; exact IH.
Qed.

(** [_ensure_local_store], whatever the file is. *)
Lemma ensure_any w :
  exists w', _ensure_local_store w = (Ok (store_of (dump_file w)), w') /\
             store_of (dump_file w') = store_of (dump_file w) /\
             dump_writable w' = dump_writable w /\
             redis_lists w' = redis_lists w /\ redis_hashes w' = redis_hashes w /\
             hot_file w' = hot_file w.
Proof.
  unfold _ensure_local_store, _save_local_store, bind, gets, modify, ret.
  destruct (dump_file w) eqn:Hf; cbn.
  - destruct (dump_writable w) eqn:Hw; cbn; eexists; (split; [reflexivity|]); cbn;
      rewrite ?Hf; repeat split; auto.
  - exists w. rewrite Hf. repeat split.
  - exists w. rewrite Hf. repeat split.
Qed.

Lemma save_any store w :
  exists w', _save_local_store store w = (Ok tt, w') /\
             store_of (dump_file w')
               = (if dump_writable w then store else store_of (dump_file w)) /\
             dump_writable w' = dump_writable w /\
             redis_lists w' = redis_lists w /\ redis_hashes w' = redis_hashes w /\
             hot_file w' = hot_file w.
Proof.
  unfold _save_local_store, bind, gets, modify, ret.
  destruct (dump_writable w) eqn:Hw; cbn; eexists; (split; [reflexivity|]); cbn;
    rewrite ?Hw; repeat split; auto.
Qed.

Lemma add_message_elsewhere E self role content w :
  elsewhere self w (snd (add_message E self role content w)).
Proof.
  unfold add_message, read_clock.
  unfold bind at 1. unfold bind at 1. unfold gets at 1. unfold bind at 1.
  unfold modify at 1. unfold ret at 1. cbn [fst snd].
  set (m := msg_obj role content (now E (clock_reads w))).
  set (w1 := set_clock_reads (S (clock_reads w)) w).
  assert (H01 : elsewhere self w w1) by (repeat split).
  destruct (use_redis self) eqn:Hu.
  - unfold bind at 1. unfold bind at 1. unfold rpush, llen, modify, gets. cbn [fst snd].
    set (w2 := set_redis_lists _ w1).
    assert (H12 : elsewhere self w1 w2).
    { unfold w2. split; [|repeat split]. intros k Hk. cbn.
      now rewrite lookup_insert_ne by congruence. }
    destruct (ARCHIVE_THRESHOLD <? _)%nat; [|cbn; exact (elsewhere_step _ _ _ _ H01 H12)].
    unfold _pop_oldest_sync. rewrite Hu. unfold bind at 1. unfold bind at 1.
    unfold lpop. unfold bind at 1. unfold gets at 1.
    destruct (redis_lists w2 !! chat_key self) as [xs|] eqn:Hxs;
      [|cbn; exact (elsewhere_step _ _ _ _ H01 H12)].
    unfold bind at 1. unfold modify at 1. unfold ret at 1.
    set (w3 := set_redis_lists _ w2).
    assert (H23 : elsewhere self w2 w3).
    { unfold w3. split; [|repeat split]. intros k Hk.
      cbn [redis_lists set_redis_lists].
      destruct (drop ARCHIVE_BATCH_SIZE xs).
      - now rewrite lookup_delete_ne by congruence.
      - now rewrite lookup_insert_ne by congruence. }
    assert (H03 : elsewhere self w w3).
    { exact (elsewhere_step _ _ _ _ H01 (elsewhere_step _ _ _ _ H12 H23)). }
    destruct (take ARCHIVE_BATCH_SIZE xs) as [|x raw] eqn:Ht; [cbn; exact H03|].
    pose proof (loads_all_world (x :: raw) w3) as Hl.
    destruct (loads_all (x :: raw) w3) as [[[|v vs]|e|] w4]; cbn in Hl |- *; subst w4;
      exact H03.
  - destruct (ensure_any w1) as (w2 & He & Hs & Hw & Hl & Hh & Hhot).
    unfold bind at 1. unfold bind at 1. rewrite He.
    set (store := store_of (dump_file w1)) in *.
    set (store' := match dict_get store (chat_key self) with
                   | Some _ => store
                   | None => dict_set store (chat_key self) (VList [])
                   end).
    assert (Hstore' : forall k, k <> chat_key self -> dict_get store' k = dict_get store k).
    { intros k Hk. unfold store'. destruct (dict_get store (chat_key self)); [reflexivity|].
      now rewrite dict_get_set_ne by congruence. }
    assert (H12 : elsewhere self w1 w2).
    { unfold elsewhere. rewrite Hs, Hw, Hl, Hh, Hhot. repeat split. }
    assert (H02 : elsewhere self w w2) by exact (elsewhere_step _ _ _ _ H01 H12).
    destruct (dict_get store' (chat_key self)) as [[| | | | |l|]|]; try (cbn; exact H02).
    destruct (save_any (dict_set store' (chat_key self) (VList (l ++ [m]))) w2)
      as (w3 & Hsv & Hs3 & Hw3 & Hl3 & Hh3 & Hhot3).
    unfold bind at 1. rewrite Hsv. unfold ret at 1.
    assert (H23 : elsewhere self w2 w3).
    { unfold elsewhere. rewrite Hs3, Hw3, Hl3, Hh3, Hhot3.
      split; [reflexivity|]. split; [reflexivity|]. split; [|split; reflexivity].
      intros k Hk. destruct (dump_writable w2); [|reflexivity].
      rewrite dict_get_set_ne by congruence. rewrite Hstore' by exact Hk. now rewrite Hs. }
    assert (H03 : elsewhere self w w3) by exact (elsewhere_step _ _ _ _ H02 H23).
    destruct (ARCHIVE_THRESHOLD <? _)%nat; [|cbn; exact H03].
    unfold _pop_oldest_sync. rewrite Hu.
    destruct (ensure_any w3) as (w4 & He4 & Hs4 & Hw4 & Hl4 & Hh4 & Hhot4).
    unfold bind at 1. unfold bind at 1. rewrite He4.
    assert (H34 : elsewhere self w3 w4).
    { unfold elsewhere. rewrite Hs4, Hw4, Hl4, Hh4, Hhot4. repeat split. }
    assert (H04 : elsewhere self w w4) by exact (elsewhere_step _ _ _ _ H03 H34).
    destruct (default (VList []) (dict_get (store_of (dump_file w3)) (chat_key self)))
      as [| | | | |all|]; try (cbn; exact H04).
    destruct (save_any (dict_set (store_of (dump_file w3)) (chat_key self)
                          (VList (drop ARCHIVE_BATCH_SIZE all))) w4)
      as (w5 & Hsv5 & Hs5 & Hw5 & Hl5 & Hh5 & Hhot5).
    unfold bind at 1. rewrite Hsv5. unfold ret at 1.
    assert (H45 : elsewhere self w4 w5).
    { unfold elsewhere. rewrite Hs5, Hw5, Hl5, Hh5, Hhot5.
      split; [reflexivity|]. split; [reflexivity|]. split; [|split; reflexivity].
      intros k Hk. destruct (dump_writable w4); [|reflexivity].
      rewrite dict_get_set_ne by congruence. now rewrite Hs4. }
    assert (H05 : elsewhere self w w5) by exact (elsewhere_step _ _ _ _ H04 H45).
    destruct (take ARCHIVE_BATCH_SIZE all); cbn; exact H05.
Qed.

Lemma held_elsewhere a b w w' q :
  session_id a <> session_id b -> elsewhere a w w' -> held b w q -> held b w' q.
Proof.
  intros Hne (H1 & _ & H3 & H4 & _). unfold held.
  assert (Hk : chat_key b <> chat_key a).
  { intros Heq. apply Hne. symmetry. now apply chat_key_inj. }
  destruct (use_redis b).
  - now rewrite H1.
  - now rewrite H3, H4.
Qed.

Lemma get_recent_messages_elsewhere a b limit w w' :
  session_id a <> session_id b -> elsewhere a w w' ->
  fst (get_recent_messages b limit w') = fst (get_recent_messages b limit w).
Proof.
  intros Hne (H1 & _ & H3 & _).
  assert (Hk : chat_key b <> chat_key a).
  { intros Heq. apply Hne. symmetry. now apply chat_key_inj. }
  unfold get_recent_messages. destruct (use_redis b).
  - unfold bind, lrange_to_end, gets. cbn [fst snd]. rewrite H1 by exact Hk.
    set (raw := slice_from _ _).
    pose proof (loads_all_world raw w) as Hw. pose proof (loads_all_world raw w') as Hw'.
    assert (Hfst : forall u v, fst (loads_all raw u) = fst (loads_all raw v)).
    { clear. induction raw as [|m raw IH]; intros u v; cbn [loads_all]; [reflexivity|].
      destruct (loads m); [|reflexivity]. unfold bind.
      specialize (IH u v).
      destruct (loads_all raw u) as [[?|?|] ?], (loads_all raw v) as [[?|?|] ?];
        cbn in *; congruence. }
    apply Hfst.
  - destruct (ensure_any w) as (w1 & He & _). destruct (ensure_any w') as (w1' & He' & _).
    unfold bind. rewrite He, He'. rewrite H3 by exact Hk.
    destruct (default (VList []) (dict_get (store_of (dump_file w)) (chat_key b)));
      reflexivity.
Qed.

Lemma get_metadata_elsewhere a s key w w' :
  elsewhere a w w' -> fst (get_metadata s key w') = fst (get_metadata s key w).
Proof.
  intros (_ & H2 & H3 & _).
  assert (Hk : meta_key s <> chat_key a).
  { intros Heq. symmetry in Heq. now apply chat_is_not_meta in Heq. }
  unfold get_metadata. destruct (use_redis s).
  - unfold bind, hget, gets, ret. cbn [fst snd]. rewrite H2.
    destruct (default ∅ (redis_hashes w !! meta_key s) !! key) as [x|]; [|reflexivity].
    destruct (loads x); reflexivity.
  - destruct (ensure_any w) as (w1 & He & _). destruct (ensure_any w') as (w1' & He' & _).
    unfold bind. rewrite He, He'. rewrite H3 by exact Hk.
    destruct (default (VDict []) (dict_get (store_of (dump_file w)) (meta_key s)))
      as [| | | | | |meta]; try reflexivity.
    unfold ret. destruct (default VNull (dict_get meta key)) as [| | | |x| |];
      try reflexivity.
    destruct (loads x); reflexivity.
Qed.



(** *** Clearing a session *)

(** [clear_session] leaves the session with an empty queue and no
    metadata: afterwards [get_recent_messages] returns the empty list
    for every limit and [get_metadata] returns [None] for every key,
    while every other session holds the queue it held. *)
Theorem clear_session_forgets self w :
  file_ready self w ->
  exists w',
    clear_session self w = (Ok tt, w') /\
    at_rest self w' [] /\
    (forall limit, fst (get_recent_messages self limit w') = Ok []) /\
    (forall key, fst (get_metadata self key w') = Ok VNull) /\
    (forall other q,
        session_id other <> session_id self -> held other w q -> held other w' q).
Proof.
  intros Hready.
  assert (Hcm : chat_key self <> meta_key self) by apply chat_is_not_meta.
  assert (Hrest : forall w',
             at_rest self w' [] ->
             forall limit, fst (get_recent_messages self limit w') = Ok []).
  { intros w' Hq limit.
    destruct (get_recent_messages_slice self w' [] limit Hq) as (w'' & -> & _).
    cbn [fst]. unfold slice_from. now rewrite drop_nil. }
  unfold clear_session. destruct (use_redis self) eqn:Hu.
  - unfold bind, modify. cbn [fst snd].
    eexists. split; [reflexivity|].
    assert (Hq : at_rest self
                   (set_redis_hashes (delete (meta_key self) (redis_hashes w))
                      (set_redis_lists (delete (chat_key self) (redis_lists w)) w)) []).
    { split.
      - unfold held. rewrite Hu. cbn. now rewrite lookup_delete_eq.
      - intros _. reflexivity. }
    split; [exact Hq|]. split; [now apply Hrest|]. split.
    + intros key. unfold get_metadata. rewrite Hu.
      unfold bind, hget, gets, ret. cbn. now rewrite lookup_delete_eq.
    + intros other q Hne. unfold held.
      assert (Hk : chat_key other <> chat_key self).
      { intros Heq. apply Hne. now apply chat_key_inj. }
      destruct (use_redis other); cbn; [|trivial].
      now rewrite lookup_delete_ne by congruence.
  - destruct (Hready Hu) as [Hw Hd].
    destruct (ensure_any w) as (w1 & He & Hs & Hw1 & Hl & Hh & _).
    set (store := store_of (dump_file w)) in *.
    destruct (save_any (dict_del (dict_del store (chat_key self)) (meta_key self)) w1)
      as (w2 & Hsv & Hs2 & Hw2 & Hl2 & Hh2 & _).
    rewrite Hw1, Hw in Hs2, Hw2.
    unfold bind. rewrite He, Hsv.
    exists w2. split; [reflexivity|].
    assert (Hq : at_rest self w2 []).
    { split.
      - unfold held. rewrite Hu. split; [exact Hw2|]. rewrite Hs2.
        rewrite dict_get_del_ne by congruence.
        now rewrite dict_get_del_eq.
      - intros Hx. congruence. }
    split; [exact Hq|]. split; [now apply Hrest|]. split.
    + intros key. unfold get_metadata. rewrite Hu.
      destruct (ensure_any w2) as (w3 & He3 & _).
      unfold bind. rewrite He3, Hs2.
      rewrite dict_get_del_eq by now apply distinct_del.
      reflexivity.
    + intros other q Hne. unfold held.
      assert (Hk : chat_key other <> chat_key self).
      { intros Heq. apply Hne. now apply chat_key_inj. }
      assert (Hkm : meta_key self <> chat_key other).
      { intros Heq. symmetry in Heq. now apply chat_is_not_meta in Heq. }
      destruct (use_redis other).
      * now rewrite Hl2, Hl.
      * intros [_ Hq']. split; [exact Hw2|]. rewrite Hs2.
        rewrite !dict_get_del_ne by congruence. exact Hq'.
Qed.

Lemma clear_session_forgets_witness :
  exists w',
    (add_messages Samples.tool_hungry Samples.file_session Samples.eleven_calls ;;;
     save_metadata Samples.file_session (py "rows") (VStr (py "many")) ;;;
     clear_session Samples.file_session) Samples.fresh = (Ok tt, w') /\
    fst (get_recent_messages Samples.file_session 30 w') = Ok [] /\
    fst (get_metadata Samples.file_session (py "rows") w') = Ok VNull.
Proof.
  set (w0 := snd ((add_messages Samples.tool_hungry Samples.file_session Samples.eleven_calls ;;;
                   save_metadata Samples.file_session (py "rows") (VStr (py "many")))
                    Samples.fresh)).
  destruct (clear_session_forgets Samples.file_session w0)
    as (w' & Hrun & _ & Hget & Hmeta & _).
  - intros _. split; vm_compute; reflexivity.
  - exists w'. split; [|split; [apply Hget|apply Hmeta]].
    rewrite <- Hrun. vm_compute. reflexivity.
Defined.

(** *** Metadata keys *)


End MemoryFacts.

(** ** Workers: further properties *)

Module WorkerFacts.

Import Json Warm Agent Workers WarmFacts AgentFacts.
Local Open Scope prog_scope.

#[local] Arguments py : simpl never.
#[local] Existing Instances same_rounds_refl same_rounds_trans same_store_refl same_store_trans.

(** *** The history sent to the model *)

Lemma length_take_le {A} n (l : list A) : (length (take n l) <= n)%nat.
Proof. rewrite length_take. lia. Qed.

Lemma history_entry_clipped m :
  readable m = true -> exists x, (forall w, history_entry m w = (Ok x, w)) /\ clipped x.
Proof.
  destruct m as [| | | | |l|d]; try discriminate. cbn [readable].
  unfold history_entry, str_field, bind.
  destruct (dict_get d (py "role")) as [[| | | |role| |]|]; try discriminate.
  destruct (dict_get d (py "content")) as [[| | | |content| |]|]; try discriminate.
  intros _. cbn [ret].
  set (c := if (3000 <? length content)%nat then take 3000 content ++ py "... [TRUNCATED]"
            else content).
  assert (Hc : (length c <= 3015)%nat).
  { unfold c. destruct (3000 <? length content)%nat eqn:Hl.
    - rewrite length_app. pose proof (length_take_le 3000 content).
      change (length (py "... [TRUNCATED]")) with 15%nat. lia.
    - apply Nat.ltb_ge in Hl. lia. }
  destruct (bool_decide (lower role = py "user")); eexists; (split; [intros w; reflexivity|]).
  - exact Hc.
  - exists role, c. split; [reflexivity|exact Hc].
Qed.

Lemma history_entries_clipped msgs :
  forallb readable msgs = true ->
  exists xs, (forall w, history_entries msgs w = (Ok xs, w)) /\
             length xs = length msgs /\ Forall clipped xs.
Proof.
  induction msgs as [|m msgs IH]; intros H.
  - exists []. repeat split. constructor.
  - cbn [forallb] in H. apply andb_true_iff in H as [Hm Hms].
    destruct (history_entry_clipped m Hm) as (x & Hx & Hcx).
    destruct (IH Hms) as (xs & Hxs & Hlen & Hcl).
    exists (x :: xs). split; [|split].
    + intros w. cbn [history_entries]. unfold bind. rewrite Hx, Hxs. reflexivity.
    + cbn. now rewrite Hlen.
    + now constructor.
Qed.



(** *** Fallback between providers *)

(** With no interrupt, [_robust_invoke] makes at most four attempts, in
    the order bound model, gemini, groq, openrouter, and stops at the
    first that answers, whose answer it returns; a tool-validation error
    of the bound model is answered in place with the fixed reply, no
    provider being tried; when all four fail it raises the
    [RuntimeError]. *)
Theorem robust_invoke_takes_first_answer E msgs w :
  calm E ->
  (exists cls msg,
      llm E (llm_attempts w) Current msgs = Failed (Exception cls msg) /\
      validation_error msg = true /\
      _robust_invoke E msgs w
      = (Ok (Text TOOL_ERROR_REPLY, []), set_llm_attempts (llm_attempts w + 1) w)) \/
  (exists k r,
      (k < 4)%nat /\
      (forall j, (j < k)%nat -> fails_at E (llm_attempts w) msgs j) /\
      llm E (llm_attempts w + k) (target_of k) msgs = Returned r /\
      _robust_invoke E msgs w = (Ok r, set_llm_attempts (llm_attempts w + k + 1) w)) \/
  (all_fail E (llm_attempts w) msgs /\
   _robust_invoke E msgs w
   = (Raise (Exception (py "RuntimeError") ALL_FAILED),
      set_llm_attempts (llm_attempts w + 4) w)).
Proof.
  intros [Hc _].
  set (n := llm_attempts w).
  assert (Hfail : forall j cls msg,
             llm E (n + j) (target_of j) msgs = Failed (Exception cls msg) ->
             fails_at E n msgs j) by (intros j cls msg H; exists cls, msg; exact H).
  unfold _robust_invoke, fallback, providers, invoke, try_except, bind, gets, modify, raise.
  cbn [fst snd llm_attempts set_llm_attempts]. fold n.
  pose proof (Hc n Current msgs) as N0.
  destruct (llm E n Current msgs) as [r|[|c0 m0]] eqn:H0; [|congruence|].
  { right. left. exists 0%nat, r. rewrite !Nat.add_0_r.
    split; [lia|]. split; [intros j Hj; lia|]. split; [exact H0|].
    cbn [ret fst snd llm_attempts set_llm_attempts]; unfold set_llm_attempts; cbn; repeat f_equal; subst n; lia. }
  cbn [ret fst snd].
  destruct (contains (py "tool call validation failed") m0
            || contains (py "not in request.tools") m0) eqn:Hv.
  { left. exists c0, m0. split; [reflexivity|]. split; [exact Hv|].
    cbn [ret fst snd llm_attempts set_llm_attempts]; unfold set_llm_attempts; cbn; repeat f_equal; subst n; lia. }
  cbn [llm_attempts set_llm_attempts].
  assert (F0 : fails_at E n msgs 0).
  { apply (Hfail 0%nat c0 m0). now rewrite Nat.add_0_r. }
  pose proof (Hc (S n) (Provider (py "gemini")) msgs) as N1.
  destruct (llm E (S n) (Provider (py "gemini")) msgs) as [r|[|c1 m1]] eqn:H1; [|congruence|].
  { right. left. exists 1%nat, r. split; [lia|]. split.
    - intros j Hj. assert (j = 0)%nat as -> by lia. exact F0.
    - replace (n + 1)%nat with (S n) by lia. split; [exact H1|].
      cbn [ret fst snd llm_attempts set_llm_attempts]. unfold set_llm_attempts; cbn; repeat f_equal; subst n; lia. }
  cbn [ret fst snd llm_attempts set_llm_attempts].
  assert (F1 : fails_at E n msgs 1).
  { apply (Hfail 1%nat c1 m1). now replace (n + 1)%nat with (S n) by lia. }
  pose proof (Hc (S (S n)) (Provider (py "groq")) msgs) as N2.
  destruct (llm E (S (S n)) (Provider (py "groq")) msgs) as [r|[|c2 m2]] eqn:H2;
    [|congruence|].
  { right. left. exists 2%nat, r. split; [lia|]. split.
    - intros j Hj. assert (j = 0 \/ j = 1)%nat as [-> | ->] by lia; assumption.
    - replace (n + 2)%nat with (S (S n)) by lia. split; [exact H2|].
      cbn [ret fst snd llm_attempts set_llm_attempts]; unfold set_llm_attempts; cbn; repeat f_equal; subst n; lia. }
  cbn [ret fst snd llm_attempts set_llm_attempts].
  assert (F2 : fails_at E n msgs 2).
  { apply (Hfail 2%nat c2 m2). now replace (n + 2)%nat with (S (S n)) by lia. }
  pose proof (Hc (S (S (S n))) (Provider (py "openrouter")) msgs) as N3.
  destruct (llm E (S (S (S n))) (Provider (py "openrouter")) msgs) as [r|[|c3 m3]] eqn:H3;
    [|congruence|].
  { right. left. exists 3%nat, r. split; [lia|]. split.
    - intros j Hj. assert (j = 0 \/ j = 1 \/ j = 2)%nat as [-> | [-> | ->]] by lia; assumption.
    - replace (n + 3)%nat with (S (S (S n))) by lia. split; [exact H3|].
      cbn [ret fst snd llm_attempts set_llm_attempts]; unfold set_llm_attempts; cbn; repeat f_equal; subst n; lia. }
  right. right. cbn [ret fst snd llm_attempts set_llm_attempts]. split.
  - unfold all_fail. fold n.
    replace (n + 1)%nat with (S n) by lia.
    replace (n + 2)%nat with (S (S n)) by lia.
    replace (n + 3)%nat with (S (S (S n))) by lia.
    unfold validation_error. rewrite H0, H1, H2, H3. repeat split; eauto.
  - unfold set_llm_attempts; cbn; repeat f_equal; subst n; lia.
Qed.

Lemma robust_invoke_takes_first_answer_witness :
  _robust_invoke Cases.flaky [] Samples.fresh
  = (Ok (Text (py "Done."), []), set_llm_attempts 3 Samples.fresh).
Proof.
  destruct (robust_invoke_takes_first_answer Cases.flaky [] Samples.fresh)
    as [(cls & msg & H0 & Hv & _)|[(k & r & Hk & Hf & Hr & Hrun)|[Ha _]]].
  - split; [intros n t msgs Heq; cbn in Heq; destruct (n <=? 1)%nat; discriminate Heq|].
    intros n name args Heq. discriminate Heq.
  - vm_compute in H0. injection H0 as <- <-. vm_compute in Hv. discriminate Hv.
  - destruct k as [|[|[|[|k]]]].
    + vm_compute in Hr. discriminate Hr.
    + vm_compute in Hr. discriminate Hr.
    + vm_compute in Hr. injection Hr as <-. exact Hrun.
    + destruct (Hf 2%nat ltac:(lia)) as (cls & msg & H2). vm_compute in H2. discriminate H2.
    + exfalso. clear - Hk. lia.
  - destruct Ha as (_ & _ & (cls & msg & H2) & _). vm_compute in H2. discriminate H2.
Defined.

(** *** Tool calls *)

(** With no interrupt, the execution of a tool call always yields a
    text.  A name that is in the tool map neither as it is nor in lower
    case yields the not-found text and nothing is run; otherwise the
    tool found runs once and the text is its output, or the error text
    that carries the message of the exception it raised. *)
Theorem run_tool_always_answers E self tc w :
  calm E ->
  exists out w',
    run_tool E self tc w = (Ok out, w') /\
    (select_tool self (tc_name tc) = None <->
     (tc_name tc ∉ tools_map self) /\ (lower (tc_name tc) ∉ tools_map self)) /\
    match select_tool self (tc_name tc) with
    | None => out = py "Error: Tool " ++ tc_name tc ++ py " not found." /\ w' = w
    | Some t =>
        t ∈ tools_map self /\
        w' = set_tool_runs (S (tool_runs w)) w /\
        (tool E (tool_runs w) t (tc_args tc) = Returned out \/
         exists cls msg,
           tool E (tool_runs w) t (tc_args tc) = Failed (Exception cls msg) /\
           out = py "Error executing tool: " ++ msg)
    end.
Proof.
  intros [_ Hc].
  assert (Hsel : select_tool self (tc_name tc) = None <->
                 (tc_name tc ∉ tools_map self) /\ (lower (tc_name tc) ∉ tools_map self)).
  { unfold select_tool. repeat case_bool_decide; split; try discriminate; try tauto.
    all: intros [? ?]; tauto. }
  assert (Hin : forall t, select_tool self (tc_name tc) = Some t -> t ∈ tools_map self).
  { unfold select_tool. intros t. repeat case_bool_decide; intros [= <-]; assumption. }
  unfold run_tool. destruct (select_tool self (tc_name tc)) as [t|] eqn:Hs.
  - unfold try_except, bind, gets, modify. cbn [fst snd].
    pose proof (Hc (tool_runs w) t (tc_args tc)) as N.
    destruct (tool E (tool_runs w) t (tc_args tc)) as [out|[|c e]]; [|congruence|].
    + eexists _, _. split; [reflexivity|]. split; [exact Hsel|].
      split; [now apply Hin|]. split; [reflexivity|]. now left.
    + eexists _, _. split; [reflexivity|]. split; [exact Hsel|].
      split; [now apply Hin|]. split; [reflexivity|]. right. eauto.
  - eexists _, _. split; [reflexivity|]. split; [exact Hsel|]. split; reflexivity.
Qed.

Lemma run_tool_always_answers_witness :
  run_tool Cases.flaky (Router.cleaner_agent Cases.flaky)
    {| tc_name := py "Python_Interpreter"; tc_args := VDict []; tc_id := py "call_7" |}
    Samples.fresh
  = (Ok (py "Error executing tool: bad code"), set_tool_runs 1 Samples.fresh).
Proof.
  destruct (run_tool_always_answers Cases.flaky (Router.cleaner_agent Cases.flaky)
              {| tc_name := py "Python_Interpreter"; tc_args := VDict []; tc_id := py "call_7" |}
              Samples.fresh)
    as (out & w' & Hrun & _ & Hcase).
  - split; [intros n t msgs Heq; cbn in Heq; destruct (n <=? 1)%nat; discriminate Heq|].
    intros n name args Heq. discriminate Heq.
  - replace (select_tool _ _) with (Some (py "python_interpreter")) in Hcase
      by (vm_compute; reflexivity).
    destruct Hcase as (_ & -> & [Hout|(cls & msg & Hfail & ->)]).
    + vm_compute in Hout. discriminate Hout.
    + vm_compute in Hfail. injection Hfail as _ <-. exact Hrun.
Defined.

(** *** What a run leaves in warm memory *)

Lemma run_task_prologue_exact E self task w q :
  legible E -> at_rest (warm_memory self) w q -> forallb readable q = true ->
  text task = true ->
  exists msgs w1 w2,
    add_message E (warm_memory self) (py "User") task w = (Ok tt, w1) /\
    _build_history self w1 = (Ok msgs, w2) /\
    at_rest (warm_memory self) w2 (window (q ++ [user_entry E task w])) /\
    forallb readable (window (q ++ [user_entry E task w])) = true /\
    llm_attempts w2 = llm_attempts w /\ clock_reads w2 = S (clock_reads w).
Proof.
  intros Hnow Hq Hread Htask.
  destruct (add_message_at_rest E (warm_memory self) (py "User") task w q Hq
              eq_refl Htask (Hnow _))
    as (w1 & Hadd & Hq1 & _ & Hc1 & Hl1 & _).
  fold (user_entry E task w) in Hq1.
  set (q1 := window (q ++ [user_entry E task w])) in *.
  destruct (get_recent_messages_at_rest (warm_memory self) w1 q1 30 Hq1 ltac:(lia))
    as (w2 & Hget & Hq2 & _ & Hc2 & Hl2 & _).
  assert (Hr1 : forallb readable q1 = true).
  { unfold q1. now apply readable_window. }
  assert (Hread1 : forallb readable (lastn 30 q1) = true).
  { unfold lastn. now apply forallb_drop. }
  destruct (history_entries_readable _ Hread1) as [xs Hxs].
  exists (SystemMessage (formatted_system_prompt self) :: xs), w1, w2.
  split; [exact Hadd|]. split.
  - unfold _build_history, bind. change (Z.of_nat 30) with 30%Z in Hget.
    rewrite Hget, Hxs. reflexivity.
  - split; [exact Hq2|]. split; [exact Hr1|]. split; congruence.
Qed.





End WorkerFacts.

(** ** The graph: further properties *)

Module GraphFacts.

Import Json Warm Agent Router Graph AgentFacts.
Local Open Scope prog_scope.

#[local] Arguments py : simpl never.

(** *** Edges *)

Ltac names_differ :=
  let H := fresh in intros H; vm_compute in H; discriminate H.

Ltac in_list :=
  repeat first [apply list_elem_of_here | apply list_elem_of_further].

(** The edge out of the Router names one node, among the four workers
    and [END]; it is [END] exactly when none of the four tasks is
    present. *)
Theorem turn_ends_without_tasks (st : AgentState) :
  (exists node, route_after_router st = Goto node /\ node ∈ AFTER_ROUTER) /\
  (route_after_router st = Goto END <->
   present (cleaner_task st) || present (fe_task st)
   || present (viz_task st) || present (trainer_task st) = false).
Proof.
  unfold route_after_router, AFTER_ROUTER.
  destruct (present (cleaner_task st)), (present (fe_task st)),
    (present (viz_task st)), (present (trainer_task st)); cbn [orb];
    (split; [eexists; split; [reflexivity|in_list]|]);
    (split; [intros H; try reflexivity; vm_compute in H; discriminate H
            |intros H; try reflexivity; discriminate H]).
Qed.

Lemma route_after_watcher_range st :
  Forall (fun node => node ∈ AFTER_WATCHER) (scheduled (route_after_watcher st)).
Proof.
  unfold route_after_watcher, AFTER_WATCHER.
  repeat match goal with
         | |- context [bool_decide ?P] => destruct (bool_decide P)
         | |- context [present ?t] => destruct (present t)
         end; cbn; repeat constructor; in_list.
Qed.

(** The edge out of the Watcher leads back to the Router exactly when
    the verdict is [FAIL]; every other status, [WARN] and [INTERRUPTED]
    among them, routes as [PASS] does.  The nodes it names are among
    router, feature_engineer, visualizer, trainer and [END]: never the
    Cleaner. *)
Theorem only_fail_returns_to_router (st : AgentState) :
  (route_after_watcher st = Goto (py "router") <-> watcher_status st = Some (py "FAIL")) /\
  route_after_watcher st
  = (if bool_decide (watcher_status st = Some (py "FAIL")) then Goto (py "router")
     else route_after_watcher (with_verdict st (py "PASS") [])) /\
  Forall (fun node => node ∈ AFTER_WATCHER) (scheduled (route_after_watcher st)) /\
  (py "cleaner" ∉ AFTER_WATCHER).
Proof.
  split; [|split; [|split]].
  - unfold route_after_watcher. case_bool_decide as Hf.
    + split; [intros _; exact Hf|reflexivity].
    + split; [|intros H; contradiction].
      repeat match goal with
             | |- context [bool_decide ?P] => destruct (bool_decide P)
             | |- context [present ?t] => destruct (present t)
             end; cbn; intros H; vm_compute in H; discriminate H.
  - unfold route_after_watcher at 1. case_bool_decide as Hf; [reflexivity|].
    unfold route_after_watcher. cbn [watcher_status last_agent fe_task viz_task
                                      trainer_task with_verdict].
    rewrite (bool_decide_eq_false_2 (Some (py "PASS") = Some (py "FAIL")))
      by names_differ.
    reflexivity.
  - apply route_after_watcher_range.
  - unfold AFTER_WATCHER. intros Hin.
    repeat (apply elem_of_cons in Hin as [Heq|Hin];
            [vm_compute in Heq; discriminate Heq|]).
    now apply elem_of_nil in Hin.
Qed.

(** *** The Watcher's verdict *)

(** When the repair of the review yields an object whose status is a
    string or is missing, [watcher_node] returns one of the three
    verdicts: [FAIL] exactly when the status in upper case is [FAIL] or
    [RETRY], [WARN] exactly when it is [WARN], and [PASS] for anything
    else, a missing status included.  The feedback is the object's, or
    the default text. *)
Theorem review_status_decides_verdict E fuel st w review w1 d :
  run_task E fuel (watcher_agent E) (review_task st) w = (Ok review, w1) ->
  repair_json E review = Returned (VDict d) ->
  (dict_get d (py "status") = None \/ exists s, dict_get d (py "status") = Some (VStr s)) ->
  exists v,
    watcher_node E fuel st w
    = (Ok (with_verdict st (verdict_name v)
             (py_str E (default (VStr (py "No feedback provided."))
                          (dict_get d (py "feedback"))))), w1) /\
    (v = Fail <-> exists s, dict_get d (py "status") = Some (VStr s) /\
                            (upper s = py "FAIL" \/ upper s = py "RETRY")) /\
    (v = Warn <-> exists s, dict_get d (py "status") = Some (VStr s) /\ upper s = py "WARN").
Proof.
  intros Hrun Hrep Hstatus.
  assert (Hnode : forall status,
             (dict_get d (py "status") = None /\ status = upper (py "PASS")) \/
             (exists s, dict_get d (py "status") = Some (VStr s) /\ status = upper s) ->
             watcher_node E fuel st w
             = (let feedback :=
                  py_str E (default (VStr (py "No feedback provided."))
                              (dict_get d (py "feedback"))) in
                let status := if bool_decide (status = py "RETRY") then py "FAIL" else status in
                if bool_decide (status = py "FAIL")
                then ret (with_verdict st (py "FAIL") feedback)
                else if bool_decide (status = py "WARN")
                     then ret (with_verdict st (py "WARN") feedback)
                     else ret (with_verdict st (py "PASS") feedback)) w1).
  { intros status Hs. unfold watcher_node, bind, try_interrupt, try_except.
    fold (review_task st). rewrite Hrun. cbn [fst snd ret]. rewrite Hrep. cbn [fst snd ret].
    destruct Hs as [[-> ->]|(s & -> & ->)]; reflexivity. }
  assert (Hfr : py "FAIL" <> py "RETRY") by names_differ.
  assert (Hwr : py "WARN" <> py "RETRY") by names_differ.
  assert (Hwf : py "WARN" <> py "FAIL") by names_differ.
  destruct Hstatus as [Hnone|[s Hs]].
  - exists Pass. rewrite (Hnode (upper (py "PASS"))) by (left; split; [exact Hnone|reflexivity]).
    split; [vm_compute; reflexivity|].
    split; (split; [intros Hv; discriminate Hv|intros (s & Hs & _); congruence]).
  - rewrite (Hnode (upper s)) by (right; exists s; split; [exact Hs|reflexivity]).
    cbv zeta.
    destruct (bool_decide (upper s = py "RETRY")) eqn:Hr.
    + apply bool_decide_eq_true_1 in Hr. exists Fail.
      rewrite bool_decide_eq_true_2 by reflexivity.
      split; [reflexivity|]. split.
      * split; [intros _; exists s; split; [exact Hs|now right]|reflexivity].
      * split; [intros Hv; discriminate Hv|].
        intros (s' & Hs' & Hw). rewrite Hs in Hs'. injection Hs' as <-. congruence.
    + apply bool_decide_eq_false_1 in Hr.
      destruct (bool_decide (upper s = py "FAIL")) eqn:Hf.
      * apply bool_decide_eq_true_1 in Hf. exists Fail.
        split; [reflexivity|]. split.
        -- split; [intros _; exists s; split; [exact Hs|now left]|reflexivity].
        -- split; [intros Hv; discriminate Hv|].
           intros (s' & Hs' & Hw). rewrite Hs in Hs'. injection Hs' as <-. congruence.
      * apply bool_decide_eq_false_1 in Hf.
        destruct (bool_decide (upper s = py "WARN")) eqn:Hw.
        -- apply bool_decide_eq_true_1 in Hw. exists Warn.
           split; [reflexivity|]. split.
           ++ split; [intros Hv; discriminate Hv|].
              intros (s' & Hs' & [Hx|Hx]); rewrite Hs in Hs'; injection Hs' as <-; congruence.
           ++ split; [intros _; exists s; split; [exact Hs|exact Hw]|reflexivity].
        -- apply bool_decide_eq_false_1 in Hw. exists Pass.
           split; [reflexivity|]. split.
           ++ split; [intros Hv; discriminate Hv|].
              intros (s' & Hs' & [Hx|Hx]); rewrite Hs in Hs'; injection Hs' as <-; congruence.
           ++ split; [intros Hv; discriminate Hv|].
              intros (s' & Hs' & Hx). rewrite Hs in Hs'. injection Hs' as <-. congruence.
Qed.

Lemma review_status_decides_verdict_witness :
  exists w1,
    watcher_node Cases.strict_watcher 5 Samples.cleaner_passed_state Samples.fresh
    = (Ok (with_verdict Samples.cleaner_passed_state (py "FAIL") (py "no file")), w1).
Proof.
  destruct (run_task Cases.strict_watcher 5 (watcher_agent Cases.strict_watcher)
              (review_task Samples.cleaner_passed_state) Samples.fresh)
    as [[review|e|] w1] eqn:Hrun; try (vm_compute in Hrun; discriminate Hrun).
  assert (Hreview : review
                    = [123; 34; 115; 116; 97; 116; 117; 115; 34; 58; 32; 34;
                       114; 101; 116; 114; 121; 34; 44; 32; 34; 102; 101; 101;
                       100; 98; 97; 99; 107; 34; 58; 32; 34; 110; 111; 32; 102;
                       105; 108; 101; 34; 125]).
  { vm_compute in Hrun. now injection Hrun as <- _. }
  subst review.
  destruct (review_status_decides_verdict Cases.strict_watcher 5 Samples.cleaner_passed_state
              Samples.fresh _ w1
              [(py "status", VStr (py "retry")); (py "feedback", VStr (py "no file"))] Hrun)
    as (v & Hnode & Hfail & _).
  - vm_compute. reflexivity.
  - right. exists (py "retry"). reflexivity.
  - assert (Hv : v = Fail).
    { apply Hfail. exists (py "retry"). split; [reflexivity|]. right. vm_compute. reflexivity. }
    subst v. exists w1. exact Hnode.
Defined.

(** *** The Router *)

Lemma starts_with_refl_app x b : starts_with x (x ++ b) = true.
Proof.
  induction x as [|c x IH]; cbn; [reflexivity|]. now rewrite N.eqb_refl, IH.
Qed.

Lemma contains_here x b : contains x (x ++ b) = true.
Proof.
  assert (Hu : forall n s, contains n s = starts_with n s
                                          || match s with [] => false | _ :: s' => contains n s' end)
    by (intros n [|c s]; reflexivity).
  rewrite Hu, starts_with_refl_app. reflexivity.
Qed.

Lemma contains_after x a s : contains x s = true -> contains x (a ++ s) = true.
Proof.
  intros H. induction a as [|c a IH]; [exact H|].
  cbn [app contains]. rewrite IH. apply orb_true_r.
Qed.

Ltac find_in := first [apply contains_here | apply contains_after; find_in].

(** Whatever the model answers and whatever the repair makes of it,
    [router_node] invokes the Router model once and touches nothing
    else: no memory is read or written.  Under a [FAIL] verdict the
    system message it sends contains the Watcher's feedback and the name
    of the agent that failed; under any other status it is the Router's
    prompt followed by the closing instruction alone. *)
Theorem router_is_told_of_the_failure E st w :
  snd (router_node E st w) = set_llm_attempts (S (llm_attempts w)) w /\
  (forall agent feedback,
      watcher_status st = Some (py "FAIL") ->
      last_agent st = Some agent -> watcher_feedback st = Some feedback ->
      contains feedback (router_system_message E st) = true /\
      contains (py "- Failed Agent: " ++ agent) (router_system_message E st) = true) /\
  (watcher_status st <> Some (py "FAIL") ->
   router_system_message E st
   = router_system_prompt E ++ nl ++ nl ++
     py "CRITICAL: YOU MUST WRAP YOUR OUTPUT IN ```json ... ```").
Proof.
  split; [|split].
  - unfold router_node, bind, gets, modify, try_except, raise, ret. cbn [fst snd].
    destruct (router_llm E (llm_attempts w) (router_prompt E st)) as [content|e];
      [|reflexivity].
    cbn [fst snd].
    destruct (repair_json E content) as [[| | | | | |d]|[|cls msg]]; reflexivity.
  - intros agent feedback Hs Ha Hf.
    unfold router_system_message, router_prompt. cbv zeta.
    rewrite Hs, Ha, Hf. rewrite bool_decide_eq_true_2 by reflexivity.
    cbn [default from_option id]. unfold Router.fail_context. split.
    + rewrite <- !app_assoc. find_in.
    + rewrite <- !app_assoc.
      rewrite (app_assoc (py "- Failed Agent: ") agent). find_in.
  - intros Hs. unfold router_system_message, router_prompt. cbv zeta.
    rewrite bool_decide_eq_false_2 by exact Hs. reflexivity.
Qed.

Lemma router_is_told_of_the_failure_witness :
  contains (py "traceback present")
    (router_system_message Samples.offline Samples.failed_state) = true /\
  contains (py "- Failed Agent: cleaner")
    (router_system_message Samples.offline Samples.failed_state) = true.
Proof.
  exact (proj1 (proj2 (router_is_told_of_the_failure Samples.offline Samples.failed_state
                         Samples.fresh))
           (py "cleaner") (py "traceback present") eq_refl eq_refl eq_refl).
Defined.

(** *** Interrupts *)

Lemma run_agent_safely_uninterrupted agent_func task st w :
  uninterrupted (fst (run_agent_safely agent_func task st w)) = true.
Proof.
  unfold run_agent_safely, try_interrupt.
  destruct (agent_func _ w) as [[a|[|c e]|] w1]; reflexivity.
Qed.

Lemma worker_uninterrupted (agent_func : str -> M str) task st (k : str -> AgentState) w :
  uninterrupted (fst ((result <- run_agent_safely agent_func task st ;; ret (k result)) w))
  = true.
Proof.
  unfold bind. pose proof (run_agent_safely_uninterrupted agent_func task st w) as H.
  destruct (run_agent_safely agent_func task st w) as [[a|[|c e]|] w1]; cbn in *;
    congruence.
Qed.

(** No worker node ends in a user interrupt, whatever the environment
    does: an interrupted run makes the node return, with the text "Task
    interrupted by user." recorded as the worker's output; an
    interrupted review makes [watcher_node] return the verdict
    [INTERRUPTED]. *)
Theorem nodes_absorb_interrupts E fuel st w :
  uninterrupted (fst (cleaner_node E fuel st w)) = true /\
  uninterrupted (fst (fe_node E fuel st w)) = true /\
  uninterrupted (fst (viz_node E fuel st w)) = true /\
  uninterrupted (fst (trainer_node E fuel st w)) = true /\
  (forall task w1,
      runnable (cleaner_task st) = Some task ->
      run_agent_safely (run_task E fuel (cleaner_agent E)) task st w
        = (Ok INTERRUPTED_TASK, w1) ->
      cleaner_node E fuel st w
      = (Ok (with_result st [AI (py "Cleaner: Task interrupted by user.")]
               (Some (py "cleaner"))), w1)) /\
  (forall agent_func task w1,
      agent_func (if bool_decide (watcher_status st = Some (py "RETRY"))
                  then wrapped (watcher_feedback st) task else task) w
        = (Raise KeyboardInterrupt, w1) ->
      run_agent_safely agent_func task st w = (Ok INTERRUPTED_TASK, w1)) /\
  (forall w1,
      run_task E fuel (watcher_agent E) (review_task st) w = (Raise KeyboardInterrupt, w1) ->
      watcher_node E fuel st w
      = (Ok (with_verdict st (py "INTERRUPTED") (py "Watcher interrupted by user.")), w1)).
Proof.
  split; [|split; [|split; [|split; [|split; [|split]]]]].
  - unfold cleaner_node. destruct (runnable (cleaner_task st)); [|reflexivity].
    apply worker_uninterrupted.
  - unfold fe_node. destruct (runnable (fe_task st)); [|reflexivity].
    apply worker_uninterrupted.
  - unfold viz_node. destruct (runnable (viz_task st)); [|reflexivity].
    apply worker_uninterrupted.
  - unfold trainer_node. destruct (runnable (trainer_task st)); [|reflexivity].
    apply worker_uninterrupted.
  - intros task w1 Hr Hrun. unfold cleaner_node. rewrite Hr. unfold bind. rewrite Hrun.
    reflexivity.
  - intros agent_func task w1 Hrun.
    change (run_agent_safely agent_func task st w)
      with (try_interrupt
              (agent_func (if bool_decide (watcher_status st = Some (py "RETRY"))
                           then wrapped (watcher_feedback st) task else task))
              (ret INTERRUPTED_TASK) w).
    unfold try_interrupt. rewrite Hrun. reflexivity.
  - intros w1 Hrun. unfold watcher_node, bind, try_interrupt. fold (review_task st).
    rewrite Hrun. reflexivity.
Qed.

Lemma nodes_absorb_interrupts_witness :
  exists w1 w2,
    cleaner_node Cases.interrupted 5 Samples.cleaner_passed_state Samples.fresh
    = (Ok (with_result Samples.cleaner_passed_state
             [AI (py "Cleaner: Task interrupted by user.")] (Some (py "cleaner"))), w1) /\
    watcher_node Cases.interrupted 5 Samples.cleaner_passed_state Samples.fresh
    = (Ok (with_verdict Samples.cleaner_passed_state (py "INTERRUPTED")
             (py "Watcher interrupted by user.")), w2).
Proof.
  destruct (nodes_absorb_interrupts Cases.interrupted 5 Samples.cleaner_passed_state
              Samples.fresh) as (_ & _ & _ & _ & Hc & Hs & Hw).
  destruct (run_task Cases.interrupted 5 (cleaner_agent Cases.interrupted) (py "drop nulls")
              Samples.fresh) as [r w1] eqn:Hrun.
  assert (Hr : r = Raise KeyboardInterrupt).
  { apply (f_equal fst) in Hrun. cbn [fst] in Hrun. rewrite <- Hrun. vm_compute. reflexivity. }
  subst r.
  destruct (run_task Cases.interrupted 5 (watcher_agent Cases.interrupted)
              (review_task Samples.cleaner_passed_state) Samples.fresh) as [r w2] eqn:Hrev.
  assert (Hr : r = Raise KeyboardInterrupt).
  { apply (f_equal fst) in Hrev. cbn [fst] in Hrev. rewrite <- Hrev. vm_compute. reflexivity. }
  subst r. exists w1, w2. split.
  - apply (Hc (py "drop nulls")); [reflexivity|].
    apply Hs. rewrite bool_decide_eq_false_2 by names_differ. exact Hrun.
  - apply Hw. reflexivity.
Defined.

End GraphFacts.

(** ** The code guard and the installer: properties *)

Module ToolFacts.

Import Tools.

#[local] Arguments py : simpl never.

Fixpoint total (l : list Node) : nat :=
  match l with
  | [] => 0%nat
  | c :: r => (size c + total r)%nat
  end.

Fixpoint all_nodes (l : list Node) : list Node :=
  match l with
  | [] => []
  | c :: r => nodes c ++ all_nodes r
  end.

Lemma size_eq k cs : size (Nd k cs) = S (total cs).
Proof. reflexivity. Qed.

Lemma nodes_eq k cs : nodes (Nd k cs) = Nd k cs :: all_nodes cs.
Proof. reflexivity. Qed.

Lemma total_app a b : total (a ++ b) = (total a + total b)%nat.
Proof. induction a as [|c a IH]; cbn; [reflexivity|]. rewrite IH. lia. Qed.

Lemma all_nodes_app a b : all_nodes (a ++ b) = all_nodes a ++ all_nodes b.
Proof. induction a as [|c a IH]; cbn; [reflexivity|]. now rewrite IH, app_assoc. Qed.

(** [ast.walk] yields every node. *)
Lemma walk_fuel_complete fuel todo n :
  (total todo <= fuel)%nat -> n ∈ all_nodes todo -> n ∈ walk_fuel fuel todo.
Proof.
  revert todo. induction fuel as [|fuel IH]; intros [|[k cs] rest] Hf Hn.
  - cbn in Hn. exact Hn.
  - cbn [total] in Hf. rewrite size_eq in Hf. lia.
  - cbn in Hn. now apply elem_of_nil in Hn.
  - cbn [walk_fuel children_of].
    cbn [all_nodes] in Hn. rewrite nodes_eq in Hn.
    cbn [total] in Hf. rewrite size_eq in Hf.
    apply elem_of_app in Hn as [Hn|Hn].
    + apply elem_of_cons in Hn as [->|Hn]; [apply list_elem_of_here|].
      apply list_elem_of_further. apply IH.
      * rewrite total_app. lia.
      * rewrite all_nodes_app. apply elem_of_app. now right.
    + apply list_elem_of_further. apply IH.
      * rewrite total_app. lia.
      * rewrite all_nodes_app. apply elem_of_app. now left.
Qed.

Lemma walk_complete t n : n ∈ nodes t -> n ∈ walk t.
Proof.
  intros Hn. unfold walk. apply walk_fuel_complete.
  - cbn. lia.
  - cbn. now rewrite app_nil_r.
Qed.

Lemma scan_none allow l : scan allow l = None -> forall n, n ∈ l -> check_node allow n = None.
Proof.
  induction l as [|m l IH]; intros H n Hn; [now apply elem_of_nil in Hn|].
  cbn [scan] in H. destruct (check_node allow m) eqn:Hm; [discriminate H|].
  apply elem_of_cons in Hn as [->|Hn]; [exact Hm|]. now apply IH.
Qed.

Lemma check_modules_none ms :
  check_modules ms = None -> forallb (fun m => negb (restricted m)) ms = true.
Proof.
  induction ms as [|m ms IH]; [reflexivity|]. cbn [check_modules forallb].
  destruct (restricted m); [discriminate|]. intros H. now rewrite IH.
Qed.

Lemma check_node_none allow n :
  check_node allow n = None ->
  imports_restricted n = false /\ sets_inplace n = false /\
  (allow = false -> calls_destructive n = false).
Proof.
  unfold check_node, imports_restricted, sets_inplace, calls_destructive.
  destruct (kind_of n) as [names|module|[attr|]|arg is_true|]; intros H.
  - apply check_modules_none in H. split; [|split; [reflexivity|reflexivity]].
    induction names as [|m names IH]; [reflexivity|].
    cbn [map forallb] in H. apply andb_true_iff in H as [Hm Hr].
    cbn [existsb]. apply negb_true_iff in Hm. rewrite Hm. now apply IH.
  - apply check_modules_none in H. cbn [forallb] in H.
    rewrite andb_true_r in H. apply negb_true_iff in H. now rewrite H.
  - split; [reflexivity|]. split; [reflexivity|]. intros ->. cbn [negb andb] in H.
    destruct (bool_decide (attr ∈ DESTRUCTIVE_KEYWORDS)); [discriminate H|reflexivity].
  - repeat split.
  - split; [reflexivity|]. split; [|reflexivity].
    destruct (bool_decide (arg = Some (py "inplace")) && is_true); [discriminate H|reflexivity].
  - repeat split.
Qed.

(** When [validate_code] answers [(True, "")], no node of the tree,
    however deep, imports [os], [subprocess], [shutil], [sys] or a
    submodule of one of them, none is the keyword [inplace=True], the
    code contains neither ["exec("] nor ["eval("], and in the strict
    mode no node calls a method named drop, delete, remove or
    truncate. *)
Theorem clean_pass_is_clean parse code allow tree :
  parse code = Parsed tree ->
  validate_code parse code allow = Returned (true, []) ->
  (forall n, n ∈ nodes tree ->
     imports_restricted n = false /\ sets_inplace n = false /\
     (allow = false -> calls_destructive n = false)) /\
  contains (py "exec(") code = false /\ contains (py "eval(") code = false.
Proof.
  intros Hp. unfold validate_code. rewrite Hp.
  destruct (scan allow (walk tree)) as [answer|] eqn:Hs.
  - intros [= ->]. exfalso. revert Hs. generalize (walk tree). intros l.
    induction l as [|m l IH]; [discriminate|]. cbn [scan].
    destruct (check_node allow m) as [a|] eqn:Hm; [|exact IH].
    intros [= ->]. unfold check_node in Hm.
    destruct (kind_of m) as [names|module|[attr|]|arg is_true|]; try discriminate Hm.
    + revert Hm. generalize (map Some names). intros ms.
      induction ms as [|x ms IHm]; [discriminate|]. cbn [check_modules].
      destruct (restricted x); [|exact IHm]. intros Heq. discriminate Heq.
    + cbn [check_modules] in Hm. destruct (restricted module); discriminate Hm.
    + destruct (negb allow && _); [|discriminate Hm].
      unfold WARNING in Hm. cbn [app] in Hm. discriminate Hm.
    + destruct (_ && is_true); [|discriminate Hm].
      unfold WARNING in Hm. cbn [app] in Hm. discriminate Hm.
  - destruct (contains (py "exec(") code || contains (py "eval(") code) eqn:Hc;
      [intros Heq; discriminate Heq|].
    intros _. apply orb_false_iff in Hc as [He Hv].
    split; [|split; assumption].
    intros n Hn. apply check_node_none. eapply scan_none; [exact Hs|].
    now apply walk_complete.
Qed.

Lemma clean_pass_is_clean_witness :
  validate_code Cases.sample_parse Cases.tidy_code true = Returned (true, []) /\
  forallb (fun n => negb (imports_restricted n) && negb (sets_inplace n))
    (nodes Cases.tidy_tree) = true.
Proof.
  split; [vm_compute; reflexivity|].
  destruct (clean_pass_is_clean Cases.sample_parse Cases.tidy_code true Cases.tidy_tree)
    as (Hn & _).
  - vm_compute. reflexivity.
  - vm_compute. reflexivity.
  - apply forallb_forall. intros n Hin. apply list_elem_of_In in Hin.
    destruct (Hn n Hin) as (H1 & H2 & _). now rewrite H1, H2.
Defined.

Lemma scan_app_quiet allow before rest :
  (forall m, m ∈ before -> check_node allow m = None) ->
  scan allow (before ++ rest) = scan allow rest.
Proof.
  induction before as [|m before IH]; intros H; [reflexivity|].
  cbn [app scan]. rewrite (H m) by apply list_elem_of_here.
  apply IH. intros x Hx. apply H. now apply list_elem_of_further.
Qed.

(** The first node that makes the scan answer decides the answer.  When
    that node, in the order of [ast.walk], is the keyword
    [inplace=True], [validate_code] answers [(True, warning)] whatever
    the nodes after it are and whatever the code contains: an import of
    a restricted module further on is not looked at, nor is the text
    searched for ["exec("] and ["eval("]. *)
Theorem warning_ends_the_scan parse code allow tree before node after :
  parse code = Parsed tree ->
  walk tree = before ++ node :: after ->
  (forall m, m ∈ before -> check_node allow m = None) ->
  sets_inplace node = true ->
  validate_code parse code allow = Returned (true, WARNING ++ py " 'inplace=True' detected").
Proof.
  intros Hp Hw Hq Hn. unfold validate_code. rewrite Hp, Hw.
  rewrite scan_app_quiet by exact Hq. cbn [scan].
  unfold sets_inplace in Hn. unfold check_node.
  destruct (kind_of node) as [names|module|attr|arg is_true|]; try discriminate Hn.
  rewrite Hn. reflexivity.
Qed.

Lemma warning_ends_the_scan_witness :
  validate_code Cases.sample_parse Cases.sneaky_code true
    = Returned (true, WARNING ++ py " 'inplace=True' detected") /\
  existsb imports_restricted (nodes Cases.sneaky_tree) = true.
Proof.
  split; [|vm_compute; reflexivity].
  apply (warning_ends_the_scan Cases.sample_parse Cases.sneaky_code true Cases.sneaky_tree
           (take 8 (walk Cases.sneaky_tree))
           (Nd (KKeyword (Some (py "inplace")) true) [Cases.leaf])
           (drop 9 (walk Cases.sneaky_tree))).
  - vm_compute. reflexivity.
  - vm_compute. reflexivity.
  - intros m Hm. apply list_elem_of_In in Hm.
    assert (Hall : forallb (fun m => match check_node true m with None => true | _ => false end)
                     (take 8 (walk Cases.sneaky_tree)) = true) by (vm_compute; reflexivity).
    rewrite forallb_forall in Hall. specialize (Hall m Hm).
    destruct (check_node true m); [discriminate Hall|reflexivity].
  - vm_compute. reflexivity.
Defined.

(** *** The installer *)

(** [install_package] runs pip at most once, and exactly when the user
    answered [y] (in either case, blanks around it aside); otherwise it
    returns the text of the refusal and nothing is installed.  A
    failure of pip is returned as text: the only exceptions that leave
    [install_package] are those of [input()] and a user interrupt. *)
Theorem install_needs_consent sh package_name d :
  (pip_runs (snd (install_package sh package_name d)) = pip_runs d ++ [package_name] <->
   exists answer, user_input sh (inputs_read d) = Returned answer /\
                  lower (strip answer) = py "y") /\
  (pip_runs (snd (install_package sh package_name d)) = pip_runs d \/
   pip_runs (snd (install_package sh package_name d)) = pip_runs d ++ [package_name]) /\
  (forall answer,
      user_input sh (inputs_read d) = Returned answer -> lower (strip answer) <> py "y" ->
      install_package sh package_name d
      = (Ok (py "User denied installation of package '" ++ package_name ++ py "'."),
         {| inputs_read := S (inputs_read d); pip_runs := pip_runs d |})) /\
  (forall cls msg,
      fst (install_package sh package_name d) = Raise (Exception cls msg) ->
      user_input sh (inputs_read d) = Failed (Exception cls msg)).
Proof.
  assert (Hgrow : forall l : list str, l <> l ++ [package_name]).
  { intros l H. apply (f_equal length) in H. rewrite length_app in H. cbn in H. lia. }
  unfold install_package.
  destruct (user_input sh (inputs_read d)) as [answer|e] eqn:Hin; cbn [fst snd pip_runs].
  - case_bool_decide as Hy; cbn [negb fst snd pip_runs].
    + assert (Hrun : forall r : Result str * Desk,
                 r = (let d2 := {| inputs_read := S (inputs_read d);
                                   pip_runs := pip_runs d ++ [package_name] |} in
                      match pip sh (length (pip_runs d)) package_name with
                      | Returned _ =>
                          (Ok (py "Successfully installed '" ++ package_name ++ py "'."), d2)
                      | Failed KeyboardInterrupt => (Raise KeyboardInterrupt, d2)
                      | Failed (Exception cls e) =>
                          if bool_decide (cls = py "CalledProcessError")
                          then (Ok (py "Failed to install '" ++ package_name ++
                                    py "'. Error: " ++ e), d2)
                          else (Ok (py "Error installing package: " ++ e), d2)
                      end) ->
                 pip_runs (snd r) = pip_runs d ++ [package_name] /\
                 forall cls msg, fst r <> Raise (Exception cls msg)).
      { intros r ->. cbv zeta.
        destruct (pip sh (length (pip_runs d)) package_name) as [[]|[|cls e]];
          [| |destruct (bool_decide (cls = py "CalledProcessError"))];
          (split; [reflexivity|intros c m H; discriminate H]). }
      destruct (Hrun _ eq_refl) as [Hp He].
      split; [|split; [|split]].
      * split; [intros _; exists answer; split; [reflexivity|exact Hy]|intros _; exact Hp].
      * right. exact Hp.
      * intros a [= <-] Hn. contradiction.
      * intros cls msg H. now apply He in H.
    + split; [|split; [|split]].
      * split; [intros H; now apply Hgrow in H|].
        intros (a & [= <-] & Ha). contradiction.
      * now left.
      * intros a _ _. reflexivity.
      * intros cls msg H. discriminate H.
  - split; [|split; [|split]].
    + split; [intros H; now apply Hgrow in H|]. intros (a & Ha & _). discriminate Ha.
    + now left.
    + intros a Ha. discriminate Ha.
    + intros cls msg [= ->]. reflexivity.
Qed.

Lemma install_needs_consent_witness :
  install_package Cases.declining (py "seaborn") Cases.idle_desk
  = (Ok (py "User denied installation of package 'seaborn'."),
     {| inputs_read := 1; pip_runs := [] |}).
Proof.
  apply (proj1 (proj2 (proj2 (install_needs_consent Cases.declining (py "seaborn")
                                Cases.idle_desk))) (py "no") eq_refl).
  intros Heq. vm_compute in Heq. discriminate Heq.
Defined.

End ToolFacts.

(** ** Cold memory: properties *)

Module ColdFacts.

Import Json Eff Cold.
Local Open Scope eff_scope.

#[local] Arguments py : simpl never.
#[local] Arguments lower : simpl never.
#[local] Arguments upper : simpl never.
#[local] Arguments memory_text : simpl never.
#[local] Arguments store_arguments : simpl never.
#[local] Arguments AGENT_ROLES : simpl never.

Definition stored (text : str) (v : Vault) : Vault :=
  {| mcp_calls := mcp_calls v ++ [stores text];
     logger_calls := logger_calls v;
     stamps_read := S (stamps_read v) |}.

(** What the loop does after it has built the text of a record. *)
Definition resume (cl : Cloud) (agent : str) (text : str) (rest : list value)
    (count : nat) (errors : list str) (v : Vault) : Result (nat * list str) * Vault :=
  match mcp cl (length (mcp_calls v)) (py "qdrant-store") (store_arguments text CHAT_LOGS) with
  | Returned _ => log_loop cl agent rest (S count) errors (stored text v)
  | Failed (Exception _ e) => log_loop cl agent rest count (errors ++ [e]) (stored text v)
  | Failed KeyboardInterrupt => (Raise KeyboardInterrupt, stored text v)
  end.

Lemma loggable_inv (m : value) :
  loggable m = true ->
  exists d, m = VDict d /\
    (dict_get d (py "role") = None \/ exists raw, dict_get d (py "role") = Some (VStr raw)).
Proof.
  destruct m as [| | | | | |d]; try discriminate. cbn.
  destruct (dict_get d (py "role")) as [[| | | |s| |]|] eqn:Hr; try discriminate; intros _.
  - exists d. split; [reflexivity|]. right. now exists s.
  - exists d. split; [reflexivity|]. now left.
Qed.

Definition ticked (v : Vault) : Vault :=
  {| mcp_calls := mcp_calls v; logger_calls := logger_calls v;
     stamps_read := S (stamps_read v) |}.

Lemma store_and_go (cl : Cloud) (agent text : str) (rest : list value)
    (count : nat) (errors : list str) (v : Vault) :
  (outcome <-
     rescue (run_tool_sync cl (py "qdrant-store") (store_arguments text CHAT_LOGS) ;;;
             pure (S count, errors))
            (fun _ e => pure (count, errors ++ [e])) ;;
   log_loop cl agent rest (fst outcome) (snd outcome)) (ticked v)
  = resume cl agent text rest count errors v.
Proof.
  unfold resume, and_then, rescue, run_tool_sync, and_then, peek, poke, pure, throw, ticked, stored.
  cbn [mcp_calls logger_calls stamps_read].
  destruct (mcp cl (length (mcp_calls v)) (py "qdrant-store") (store_arguments text CHAT_LOGS))
    as [r|[|cls e]]; reflexivity.
Qed.

Lemma log_loop_step (cl : Cloud) (agent : str) (m : value) (rest : list value) (v : Vault) :
  loggable m = true -> Forall (fun x => loggable x = true) rest ->
  exists text rest',
    (rest' = rest \/ exists x, rest = x :: rest') /\
    forall count errors,
      log_loop cl agent (m :: rest) count errors v = resume cl agent text rest' count errors v.
Proof.
  intros Hm Hrest.
  destruct (loggable_inv m Hm) as (d & -> & Hrole).
  set (raw := match dict_get d (py "role") with Some (VStr s) => s | _ => py "unknown" end).
  assert (Hraw : default (VStr (py "unknown")) (dict_get d (py "role")) = VStr raw).
  { subst raw. destruct Hrole as [-> | (s & ->)]; reflexivity. }
  clearbody raw.
  cbn [log_loop]. unfold and_then at 1. cbn [get_or pure]. rewrite Hraw.
  unfold and_then at 1. cbn [as_text pure].
  unfold and_then at 1. cbn [get_or pure].
  unfold and_then at 1. unfold now_isoformat at 1. unfold and_then at 1, peek at 1.
  unfold and_then at 1, poke at 1. unfold pure at 1.
  fold (ticked v).
  unfold and_then at 1. unfold pure at 1.
  unfold and_then at 1. unfold pure at 1.
  destruct (bool_decide (lower raw = py "user")) eqn:Huser.
  - destruct rest as [|next rest].
    + unfold and_then at 1. unfold pure at 1. cbn iota.
      eexists _, []. split; [now left|]. intros count errors. apply store_and_go.
    + pose proof (Forall_inv Hrest) as Hnext.
      destruct (loggable_inv next Hnext) as (d' & -> & Hrole').
      set (raw' := match dict_get d' (py "role") with Some (VStr s) => s | _ => [] end).
      assert (Hraw' : default (VStr []) (dict_get d' (py "role")) = VStr raw').
      { subst raw'. destruct Hrole' as [-> | (s & ->)]; reflexivity. }
      clearbody raw'.
      unfold and_then at 1. unfold and_then at 1. cbn [get_or pure]. rewrite Hraw'.
      unfold and_then at 1. cbn [as_text pure].
      destruct (bool_decide (lower raw' ∈ AGENT_ROLES)).
      * unfold and_then at 1. unfold pure at 1.
        unfold and_then at 1. unfold pure at 1.
        unfold and_then at 1.
        destruct (negb (truthy (default (VStr []) (dict_get d (py "summary"))))).
        -- cbn [get_or]. unfold pure at 1. unfold pure at 1. cbn iota.
           eexists _, rest. split; [right; now eexists|]. intros count errors. apply store_and_go.
        -- unfold pure at 1. unfold pure at 1. cbn iota.
           eexists _, rest. split; [right; now eexists|]. intros count errors. apply store_and_go.
      * unfold pure at 1. cbn iota.
        eexists _, _. split; [now left|]. intros count errors. apply store_and_go.
  - unfold and_then at 1. unfold pure at 1. cbn iota.
    destruct (bool_decide (lower raw ∈ AGENT_ROLES)).
    + eexists _, _. split; [now left|]. intros count errors. apply store_and_go.
    + eexists _, _. split; [now left|]. intros count errors. apply store_and_go.
Qed.

Lemma log_loop_accounts (cl : Cloud) (agent : str) :
  unhurried cl ->
  forall n conversations count errors v,
    (length conversations <= n)%nat ->
    Forall (fun x => loggable x = true) conversations ->
    exists count' more new v',
      log_loop cl agent conversations count errors v = (Ok (count', errors ++ more), v') /\
      mcp_calls v' = mcp_calls v ++ new /\
      logger_calls v' = logger_calls v /\
      Forall is_store new /\
      (count' + length more = count + length new)%nat /\
      (length new <= length conversations <= 2 * length new)%nat.
Proof.
  intros Hcl. induction n as [|n IH]; intros conversations count errors v Hlen Hall.
  - destruct conversations; [|cbn in Hlen; lia].
    exists count, [], [], v. cbn. rewrite !app_nil_r.
    repeat split; try constructor; lia.
  - destruct conversations as [|m rest].
    { exists count, [], [], v. cbn. rewrite !app_nil_r.
      repeat split; try constructor; lia. }
    pose proof (Forall_inv Hall) as Hm. pose proof (Forall_inv_tail Hall) as Hrest.
    destruct (log_loop_step cl agent m rest v Hm Hrest) as (text & rest' & Hshape & Hstep).
    rewrite Hstep. unfold resume.
    assert (Hlen' : (length rest' <= n)%nat).
    { cbn in Hlen. destruct Hshape as [-> | (x & ->)]; cbn in *; lia. }
    assert (Hall' : Forall (fun x => loggable x = true) rest').
    { destruct Hshape as [-> | (x & ->)]; [assumption | exact (Forall_inv_tail Hrest)]. }
    assert (Hsize : (length rest' <= length rest <= S (length rest'))%nat).
    { destruct Hshape as [-> | (x & ->)]; cbn; lia. }
    destruct (mcp cl (length (mcp_calls v)) (py "qdrant-store") (store_arguments text CHAT_LOGS))
      as [r|[|cls e]] eqn:Hcall.
    + destruct (IH rest' (S count) errors (stored text v) Hlen' Hall')
        as (count' & more & new & v' & Hrun & Hcalls & Hlog & Hnew & Hsum & Hbound).
      exists count', more, (stores text :: new), v'.
      split; [exact Hrun|]. split; [|split; [|split; [|split]]].
      * rewrite Hcalls. cbn. now rewrite <- app_assoc.
      * exact Hlog.
      * constructor; [now exists text | exact Hnew].
      * cbn. lia.
      * cbn. lia.
    + exfalso. exact (Hcl _ _ _ Hcall).
    + destruct (IH rest' count (errors ++ [e]) (stored text v) Hlen' Hall')
        as (count' & more & new & v' & Hrun & Hcalls & Hlog & Hnew & Hsum & Hbound).
      exists count', (e :: more), (stores text :: new), v'.
      split; [|split; [|split; [|split; [|split]]]].
      * rewrite Hrun. now rewrite <- app_assoc.
      * rewrite Hcalls. cbn. now rewrite <- app_assoc.
      * exact Hlog.
      * constructor; [now exists text | exact Hnew].
      * cbn. lia.
      * cbn. lia.
Qed.

Lemma log_batch_chat_report (cl : Cloud) (conversations : list value) (agent : str)
    (count : nat) (errors : list str) (v v' : Vault) :
  log_loop cl agent conversations 0 [] v = (Ok (count, errors), v') ->
  log_batch_chat cl conversations agent v = (Ok (report count errors), v').
Proof.
  intros Hrun. unfold log_batch_chat, and_then. rewrite Hrun. unfold pure, report.
  destruct errors; reflexivity.
Qed.

Lemma patchy_unhurried : unhurried Cases.patchy.
Proof.
  intros n tool_name arguments. unfold Cases.patchy. cbn [mcp].
  destruct (bool_decide (tool_name = py "qdrant-find")); [discriminate|].
  destruct (Nat.even n); discriminate.
Defined.

Lemma throttled_unhurried : unhurried Cases.throttled.
Proof. exact patchy_unhurried. Defined.

Lemma exchange_loggable : Forall (fun m => loggable m = true) Cases.exchange.
Proof. repeat constructor. Defined.

(** Every message of a batch is accounted for: [log_batch_chat] on
    dict messages whose roles are strings returns, whatever the store
    answers; the calls it makes are stores in the collection of the
    chat logs, one per record; each call is either counted or leaves an
    error, and the status is [ok] exactly when no call failed; a record
    covers one message or two, so a batch of [n] messages makes between
    [n/2] and [n] calls. *)
Theorem log_batch_chat_accounts (cl : Cloud) (conversations : list value) (agent : str)
    (v : Vault) :
  unhurried cl ->
  Forall (fun m => loggable m = true) conversations ->
  exists count errors new v',
    log_batch_chat cl conversations agent v = (Ok (report count errors), v') /\
    mcp_calls v' = mcp_calls v ++ new /\
    Forall is_store new /\
    (count + length errors = length new)%nat /\
    (length new <= length conversations <= 2 * length new)%nat.
Proof.
  intros Hcl Hall.
  destruct (log_loop_accounts cl agent Hcl (length conversations) conversations 0 [] v
              (le_n _) Hall)
    as (count & more & new & v' & Hrun & Hcalls & _ & Hnew & Hsum & Hbound).
  exists count, more, new, v'. cbn in Hrun.
  split; [exact (log_batch_chat_report _ _ _ _ _ _ _ Hrun)|].
  repeat split; try assumption; lia.
Qed.

Lemma log_batch_chat_accounts_witness :
  exists count errors new v',
    log_batch_chat Cases.patchy Cases.exchange (py "Archived_Agent") empty_vault
      = (Ok (report count errors), v') /\
    mcp_calls v' = mcp_calls empty_vault ++ new /\
    Forall is_store new /\
    (count + length errors = length new)%nat /\
    (length new <= length Cases.exchange <= 2 * length new)%nat.
Proof.
  exact (log_batch_chat_accounts Cases.patchy Cases.exchange (py "Archived_Agent") empty_vault
           patchy_unhurried exchange_loggable).
Defined.

Lemma log_loop_pair (cl : Cloud) (agent : str) (du da : list (str * value)) (ru ra : str)
    (rest : list value) (count : nat) (errors : list str) (v : Vault) :
  dict_get du (py "role") = Some (VStr ru) -> lower ru = py "user" ->
  dict_get da (py "role") = Some (VStr ra) -> lower ra ∈ AGENT_ROLES ->
  log_loop cl agent (VDict du :: VDict da :: rest) count errors v
  = resume cl agent
      (memory_text cl
         (default (VStr (stamp cl (stamps_read v))) (dict_get du (py "timestamp")))
         (field du (py "content")) (VStr ra) (field da (py "content"))
         (if truthy (field du (py "summary")) then field du (py "summary")
          else field da (py "summary")))
      rest count errors v.
Proof.
  intros Hu Hru Ha Hra.
  assert (Hraw : default (VStr (py "unknown")) (dict_get du (py "role")) = VStr ru)
    by (rewrite Hu; reflexivity).
  assert (Hraw' : forall x, default (VStr x) (dict_get da (py "role")) = VStr ra)
    by (intros; rewrite Ha; reflexivity).
  cbn [log_loop]. unfold and_then at 1. cbn [get_or pure]. rewrite Hraw.
  unfold and_then at 1. cbn [as_text pure].
  unfold and_then at 1. cbn [get_or pure].
  unfold and_then at 1. unfold now_isoformat at 1. unfold and_then at 1, peek at 1.
  unfold and_then at 1, poke at 1. unfold pure at 1.
  fold (ticked v).
  unfold and_then at 1. unfold pure at 1.
  unfold and_then at 1. unfold pure at 1.
  rewrite Hru. rewrite bool_decide_eq_true_2 by reflexivity.
  unfold and_then at 1. unfold and_then at 1. cbn [get_or pure]. rewrite !Hraw'.
  unfold and_then at 1. cbn [as_text pure].
  rewrite (bool_decide_eq_true_2 _ Hra).
  unfold and_then at 1. unfold pure at 1.
  unfold and_then at 1. unfold pure at 1.
  unfold and_then at 1. unfold field.
  destruct (truthy (default (VStr []) (dict_get du (py "summary")))).
  - cbn [negb]. unfold pure at 1. unfold pure at 1. cbn iota. apply store_and_go.
  - cbn [negb get_or]. unfold pure at 1. unfold pure at 1. cbn iota. apply store_and_go.
Qed.

(** A question and the answer that follows it share one record.  When
    a message of role [user] (in any case) is followed by one whose
    role is [ai], [assistant], [contextor] or [analyst],
    [log_batch_chat] stores the two as a single record, which carries
    the question's timestamp, the question, the answerer's role as it
    was written, the answer, and the question's summary or else the
    answer's; the answer gets no record of its own: the calls that
    follow are for the later messages. *)
Theorem question_and_answer_share_a_record (cl : Cloud) (agent : str)
    (du da : list (str * value)) (ru ra : str) (rest : list value) (v : Vault) :
  unhurried cl ->
  Forall (fun m => loggable m = true) rest ->
  dict_get du (py "role") = Some (VStr ru) -> lower ru = py "user" ->
  dict_get da (py "role") = Some (VStr ra) -> lower ra ∈ AGENT_ROLES ->
  exists count errors new v',
    log_batch_chat cl (VDict du :: VDict da :: rest) agent v
      = (Ok (report count errors), v') /\
    mcp_calls v' =
      mcp_calls v ++
      stores (memory_text cl
                (default (VStr (stamp cl (stamps_read v))) (dict_get du (py "timestamp")))
                (field du (py "content")) (VStr ra) (field da (py "content"))
                (if truthy (field du (py "summary")) then field du (py "summary")
                 else field da (py "summary")))
      :: new /\
    Forall is_store new /\
    (length new <= length rest)%nat /\
    (count + length errors = S (length new))%nat.
Proof.
  intros Hcl Hrest Hu Hru Ha Hra.
  set (text := memory_text _ _ _ _ _ _).
  assert (Hstep : forall count errors,
             log_loop cl agent (VDict du :: VDict da :: rest) count errors v
             = resume cl agent text rest count errors v).
  { intros. exact (log_loop_pair cl agent du da ru ra rest _ _ v Hu Hru Ha Hra). }
  pose proof (Hstep 0%nat []) as H0. unfold resume in H0.
  destruct (mcp cl (length (mcp_calls v)) (py "qdrant-store") (store_arguments text CHAT_LOGS))
    as [r|[|cls e]] eqn:Hcall.
  - destruct (log_loop_accounts cl agent Hcl (length rest) rest 1 [] (stored text v)
                (le_n _) Hrest)
      as (count & more & new & v' & Hrun & Hcalls & _ & Hnew & Hsum & Hbound).
    rewrite <- H0 in Hrun. exists count, more, new, v'.
    change ([] ++ more) with more in Hrun.
    split; [exact (log_batch_chat_report _ _ _ _ _ _ _ Hrun)|].
    split; [|repeat split; try assumption; lia].
    rewrite Hcalls. cbn. now rewrite <- app_assoc.
  - exfalso. exact (Hcl _ _ _ Hcall).
  - destruct (log_loop_accounts cl agent Hcl (length rest) rest 0 ([] ++ [e]) (stored text v)
                (le_n _) Hrest)
      as (count & more & new & v' & Hrun & Hcalls & _ & Hnew & Hsum & Hbound).
    rewrite <- H0 in Hrun. exists count, (e :: more), new, v'.
    change (([] ++ [e]) ++ more) with (e :: more) in Hrun.
    split; [exact (log_batch_chat_report _ _ _ _ _ _ _ Hrun)|].
    split; [|repeat split; try assumption; cbn in *; lia].
    rewrite Hcalls. cbn. now rewrite <- app_assoc.
Qed.

Lemma question_and_answer_share_a_record_witness :
  exists count errors new v',
    log_batch_chat Cases.patchy Cases.exchange (py "Archived_Agent") empty_vault
      = (Ok (report count errors), v') /\
    mcp_calls v' =
      stores (py "[2025-01-01T09:00:00, clean the data, Contextor, Which column?, asks for the column]")
      :: new /\
    Forall is_store new /\
    (length new <= 1)%nat /\
    (count + length errors = S (length new))%nat.
Proof.
  refine (question_and_answer_share_a_record Cases.patchy (py "Archived_Agent")
            Cases.question Cases.answer (py "User") (py "Contextor")
            [VDict Cases.worker_report] empty_vault
            patchy_unhurried _ eq_refl eq_refl eq_refl _).
  - repeat constructor.
  - unfold AGENT_ROLES. vm_compute. do 2 right. left.
Defined.

(** The record of a message that has no partner. *)
Definition lone_record (cl : Cloud) (agent : str) (d : list (str * value)) (raw : str)
    (v : Vault) : str :=
  let ts := default (VStr (stamp cl (stamps_read v))) (dict_get d (py "timestamp")) in
  if bool_decide (lower raw = py "user") then
    memory_text cl ts (field d (py "content")) (VStr agent) (VStr []) (field d (py "summary"))
  else if bool_decide (lower raw ∈ AGENT_ROLES) then
    memory_text cl ts (VStr []) (VStr (lower raw)) (field d (py "content"))
      (field d (py "summary"))
  else
    memory_text cl ts
      (VStr (py "[" ++ tag_of cl raw ++ py "] " ++ fmt_value cl (field d (py "content"))))
      (VStr agent) (VStr []) (field d (py "summary")).

Lemma log_loop_single (cl : Cloud) (agent : str) (d : list (str * value)) (raw : str)
    (count : nat) (errors : list str) (v : Vault) :
  dict_get d (py "role") = Some (VStr raw) ->
  log_loop cl agent [VDict d] count errors v
  = resume cl agent (lone_record cl agent d raw v) [] count errors v.
Proof.
  intros Hrole.
  assert (Hraw : default (VStr (py "unknown")) (dict_get d (py "role")) = VStr raw)
    by (rewrite Hrole; reflexivity).
  cbn [log_loop]. unfold and_then at 1. cbn [get_or pure]. rewrite Hraw.
  unfold and_then at 1. cbn [as_text pure].
  unfold and_then at 1. cbn [get_or pure].
  unfold and_then at 1. unfold now_isoformat at 1. unfold and_then at 1, peek at 1.
  unfold and_then at 1, poke at 1. unfold pure at 1.
  fold (ticked v).
  unfold and_then at 1. unfold pure at 1.
  unfold and_then at 1. unfold pure at 1.
  unfold lone_record, field.
  destruct (bool_decide (lower raw = py "user")).
  - unfold and_then at 1. unfold pure at 1. cbn iota. apply store_and_go.
  - unfold and_then at 1. unfold pure at 1. cbn iota.
    destruct (bool_decide (lower raw ∈ AGENT_ROLES)); apply store_and_go.
Qed.

Definition summarised (role content ts : str) (summary : value) : list (str * value) :=
  [(py "role", VStr role); (py "content", VStr content); (py "timestamp", VStr ts);
   (py "summary", summary)].

Definition asked (v : Vault) : Vault :=
  {| mcp_calls := mcp_calls v; logger_calls := S (logger_calls v);
     stamps_read := stamps_read v |}.

Lemma dict_set_summary (role content ts : str) (summary : value) :
  dict_set [(py "role", VStr role); (py "content", VStr content); (py "timestamp", VStr ts)]
    (py "summary") summary
  = summarised role content ts summary.
Proof. reflexivity. Qed.

Definition fallback_summary (e : str) : str :=
  if contains (py "rate_limit") (lower e) || contains (py "429") (lower e)
  then RATE_LIMITED else SUMMARY_FAILED.

Lemma summarise_one (cl : Cloud) (role content ts : str) (v : Vault) :
  logger cl (logger_calls v) (summary_prompt cl (VStr content)) <> Failed KeyboardInterrupt ->
  summarise cl [Warm.msg_obj role content ts] v
  = (Ok [VDict (summarised role content ts
                  match logger cl (logger_calls v) (summary_prompt cl (VStr content)) with
                  | Returned s => s
                  | Failed (Exception _ e) => VStr (fallback_summary e)
                  | Failed KeyboardInterrupt => VNull
                  end)],
     asked v).
Proof.
  intros Hlog. unfold Warm.msg_obj.
  cbn [summarise]. unfold and_then at 1. unfold rescue.
  unfold and_then at 1. cbn [get_or pure].
  change (default (VStr []) (dict_get _ (py "content"))) with (VStr content).
  unfold pure at 1. unfold and_then at 1. unfold invoke_logger.
  unfold and_then at 1, peek at 1. unfold and_then at 1, poke at 1.
  fold (asked v).
  destruct (logger cl (logger_calls v) (summary_prompt cl (VStr content))) as [s|[|cls e]].
  - unfold pure at 1. cbn [set_item]. rewrite dict_set_summary. reflexivity.
  - now contradiction Hlog.
  - unfold throw at 1. unfold fallback_summary.
    destruct (contains (py "rate_limit") (lower e) || contains (py "429") (lower e));
      cbn [set_item]; rewrite dict_set_summary; reflexivity.
Qed.

Lemma archive_one (cl : Cloud) (role content ts : str) (summary : value) (v : Vault) :
  unhurried cl ->
  exists v',
    archive_batch cl [VDict (summarised role content ts summary)] v = (Ok tt, v') /\
    mcp_calls v' =
      mcp_calls v ++
      [stores (lone_record cl (py "Archived_Agent") (summarised role content ts summary)
                 role v)] /\
    logger_calls v' = logger_calls v.
Proof.
  intros Hcl. unfold archive_batch, rescue, and_then at 1, log_batch_chat, and_then at 1.
  rewrite (log_loop_single cl _ _ role) by reflexivity.
  unfold resume.
  set (text := lone_record _ _ _ _ _).
  destruct (mcp cl (length (mcp_calls v)) (py "qdrant-store") (store_arguments text CHAT_LOGS))
    as [r|[|cls e]] eqn:Hcall.
  - eexists. cbn. split; [reflexivity|]. split; reflexivity.
  - exfalso. exact (Hcl _ _ _ Hcall).
  - eexists. cbn. split; [reflexivity|]. split; reflexivity.
Qed.

(** A message that warm memory displaces is archived alone, as one
    record.  [_archive_oldest] on the batch of one message that
    [add_message] hands over asks for one summary and makes one store
    call, and returns whatever the store answers.  The record keeps the
    message's own timestamp and the summary; a user's message is filed
    as a question to [Archived_Agent] with an empty answer, a message
    of role [ai], [assistant], [contextor] or [analyst] as that role's
    answer to an empty question, and the message of any other role (a
    worker's name, say) as a question tagged with the role in capitals,
    with an empty answer. *)
Theorem displaced_message_is_archived_alone (cl : Cloud) (role content ts : str) (s : value)
    (v : Vault) :
  unhurried cl ->
  logger cl (logger_calls v) (summary_prompt cl (VStr content)) = Returned s ->
  exists text v',
    _archive_oldest cl [Warm.msg_obj role content ts] v = (Ok tt, v') /\
    mcp_calls v' = mcp_calls v ++ [stores text] /\
    logger_calls v' = S (logger_calls v) /\
    (lower role = py "user" ->
     text = memory_text cl (VStr ts) (VStr content) (VStr (py "Archived_Agent")) (VStr []) s) /\
    (lower role ∈ AGENT_ROLES ->
     text = memory_text cl (VStr ts) (VStr []) (VStr (lower role)) (VStr content) s) /\
    (lower role <> py "user" -> lower role ∉ AGENT_ROLES ->
     text = memory_text cl (VStr ts)
              (VStr (py "[" ++ tag_of cl role ++ py "] " ++ content))
              (VStr (py "Archived_Agent")) (VStr []) s).
Proof.
  intros Hcl Hlog.
  unfold _archive_oldest, and_then at 1.
  rewrite summarise_one by (rewrite Hlog; discriminate). rewrite Hlog.
  destruct (archive_one cl role content ts s (asked v) Hcl) as (v' & Hrun & Hcalls & Hl).
  eexists _, v'. split; [exact Hrun|]. split; [exact Hcalls|]. split; [exact Hl|].
  unfold lone_record.
  change (default _ (dict_get (summarised role content ts s) (py "timestamp"))) with (VStr ts).
  change (field (summarised role content ts s) (py "content")) with (VStr content).
  change (field (summarised role content ts s) (py "summary")) with s.
  split; [|split].
  - intros Hu. rewrite (bool_decide_eq_true_2 _ Hu). reflexivity.
  - intros Ha. destruct (bool_decide (lower role = py "user")) eqn:Hu.
    + apply bool_decide_eq_true_1 in Hu. rewrite Hu in Ha. exfalso.
      unfold AGENT_ROLES in Ha. clear -Ha.
      repeat (apply elem_of_cons in Ha; destruct Ha as [Ha|Ha]; [discriminate Ha|]).
      now apply elem_of_nil in Ha.
    + rewrite (bool_decide_eq_true_2 _ Ha). reflexivity.
  - intros Hu Ha. rewrite (bool_decide_eq_false_2 _ Hu), (bool_decide_eq_false_2 _ Ha).
    reflexivity.
Qed.

Lemma displaced_message_is_archived_alone_witness :
  exists v',
    _archive_oldest Cases.patchy
      [Warm.msg_obj (py "Cleaner") (py "Dropped 3 rows") (py "2025-01-01T09:05:00")]
      empty_vault = (Ok tt, v') /\
    mcp_calls v' =
      [stores (py "[2025-01-01T09:05:00, [CLEANER] Dropped 3 rows, Archived_Agent, , cleaning; nulls; median]")].
Proof.
  destruct (displaced_message_is_archived_alone Cases.patchy
              (py "Cleaner") (py "Dropped 3 rows") (py "2025-01-01T09:05:00")
              (VStr (py "cleaning; nulls; median")) empty_vault
              patchy_unhurried eq_refl)
    as (text & v' & Hrun & Hcalls & _ & _ & _ & Htext).
  exists v'. split; [exact Hrun|].
  rewrite Hcalls, Htext; [reflexivity| |].
  - vm_compute. discriminate.
  - vm_compute. intros Hin.
    repeat (apply elem_of_cons in Hin; destruct Hin as [Hin|Hin]; [discriminate Hin|]).
    now apply elem_of_nil in Hin.
Defined.

(** A summary that cannot be had does not stop the archival.  When the
    call for the summary raises, the displaced message is stored all
    the same, with a marker for summary: [[Summary skipped - rate
    limit]] when the text of the error, in lower case, contains
    [rate_limit] or [429], and [[Summary generation failed]]
    otherwise. *)
Theorem failed_summary_is_marked (cl : Cloud) (role content ts cls e : str) (v : Vault) :
  unhurried cl ->
  logger cl (logger_calls v) (summary_prompt cl (VStr content)) = Failed (Exception cls e) ->
  exists user_query agent_name agent_response marker v',
    _archive_oldest cl [Warm.msg_obj role content ts] v = (Ok tt, v') /\
    mcp_calls v' =
      mcp_calls v ++
      [stores (memory_text cl (VStr ts) user_query agent_name agent_response (VStr marker))] /\
    (contains (py "rate_limit") (lower e) || contains (py "429") (lower e) = true ->
     marker = RATE_LIMITED) /\
    (contains (py "rate_limit") (lower e) || contains (py "429") (lower e) = false ->
     marker = SUMMARY_FAILED).
Proof.
  intros Hcl Hlog.
  unfold _archive_oldest, and_then at 1.
  rewrite summarise_one by (rewrite Hlog; discriminate). rewrite Hlog.
  set (marker := fallback_summary e).
  destruct (archive_one cl role content ts (VStr marker) (asked v) Hcl)
    as (v' & Hrun & Hcalls & Hl).
  assert (Hshape : exists user_query agent_name agent_response,
             lone_record cl (py "Archived_Agent") (summarised role content ts (VStr marker))
               role (asked v)
             = memory_text cl (VStr ts) user_query agent_name agent_response (VStr marker)).
  { unfold lone_record.
    change (default _ (dict_get (summarised role content ts (VStr marker)) (py "timestamp")))
      with (VStr ts).
    change (field (summarised role content ts (VStr marker)) (py "summary"))
      with (VStr marker).
    destruct (bool_decide (lower role = py "user")); [now eexists _, _, _|].
    destruct (bool_decide (lower role ∈ AGENT_ROLES)); now eexists _, _, _. }
  destruct Hshape as (uq & an & ar & Hshape). rewrite Hshape in Hcalls.
  exists uq, an, ar, marker, v'. split; [exact Hrun|]. split; [exact Hcalls|].
  subst marker. unfold fallback_summary.
  split; intros ->; reflexivity.
Qed.

Lemma failed_summary_is_marked_witness :
  exists user_query agent_name agent_response v',
    _archive_oldest Cases.throttled
      [Warm.msg_obj (py "User") (py "clean the data") (py "2025-01-01T09:00:00")]
      empty_vault = (Ok tt, v') /\
    mcp_calls v' =
      [stores (memory_text Cases.throttled (VStr (py "2025-01-01T09:00:00"))
                 user_query agent_name agent_response (VStr RATE_LIMITED))].
Proof.
  destruct (failed_summary_is_marked Cases.throttled
              (py "User") (py "clean the data") (py "2025-01-01T09:00:00")
              (py "RateLimitError") (py "Error code: 429 - Rate_Limit_Exceeded") empty_vault
              throttled_unhurried eq_refl)
    as (uq & an & ar & marker & v' & Hrun & Hcalls & Hlimit & _).
  exists uq, an, ar, v'. split; [exact Hrun|].
  rewrite Hcalls, (Hlimit eq_refl). reflexivity.
Defined.

Lemma length_join_le (sep : str) (bound : nat) (parts : list str) :
  Forall (fun x => (length x <= bound)%nat) parts ->
  (length (join sep parts) <= (bound + length sep) * length parts)%nat.
Proof.
  induction 1 as [|x parts Hx _ IH]; [cbn; lia|].
  cbn [join length]. rewrite length_app.
  destruct parts as [|y parts]; [cbn; lia|].
  rewrite length_app. cbn [length] in *. lia.
Qed.

Lemma length_clip (text : str) : (length (clip text) <= 1015)%nat.
Proof.
  unfold clip. destruct (1000 <? length text)%nat eqn:Hlong.
  - rewrite length_app, length_take. change (length TRUNCATED) with 15%nat. lia.
  - apply Nat.ltb_ge in Hlong. lia.
Qed.

Lemma clip_short (text : str) : (length text <= 1000)%nat -> clip text = text.
Proof.
  intros Hshort. unfold clip.
  destruct (1000 <? length text)%nat eqn:Hlong; [|reflexivity].
  apply Nat.ltb_lt in Hlong. lia.
Qed.

(** A search of the chat history is one call and a bounded answer.
    [search_chat_history] asks the store once and returns whatever
    happens: the empty list when the call raises, and otherwise a list
    of one entry.  When the store answers a list of items, the text of
    the entry is at most 1017 characters per item (an item longer than
    1000 characters is cut there and marked as truncated), and is the
    items' texts joined by blank lines when none of them is that
    long. *)
Theorem search_chat_history_is_bounded (cl : Cloud) (query : str) (v : Vault) :
  unhurried cl ->
  exists r v',
    search_chat_history cl query v = (Ok r, v') /\
    mcp_calls v' = mcp_calls v ++ [finds query] /\
    (forall cls e,
        mcp cl (length (mcp_calls v)) (py "qdrant-find") (find_arguments query CHAT_LOGS)
          = Failed (Exception cls e) ->
        r = VList []) /\
    (forall result items,
        mcp cl (length (mcp_calls v)) (py "qdrant-find") (find_arguments query CHAT_LOGS)
          = Returned result ->
        content result = Some items ->
        exists text,
          r = VList [VDict [(py "text", VStr text); (py "metadata", VDict [])]] /\
          (length text <= 1017 * length items)%nat /\
          (Forall (fun item => (length (item_text item) <= 1000)%nat) items ->
           text = join [10; 10] (map item_text items))).
Proof.
  intros Hcl.
  unfold search_chat_history, rescue, and_then at 1, run_tool_sync, and_then at 1, peek at 1,
    and_then at 1, poke at 1.
  destruct (mcp cl (length (mcp_calls v)) (py "qdrant-find") (find_arguments query CHAT_LOGS))
    as [res|[|cls e]] eqn:Hcall.
  - eexists _, _. split; [reflexivity|]. split; [reflexivity|].
    split; [intros ? ? Heq; discriminate Heq|].
    intros result items [= <-] Hitems. rewrite Hitems.
    eexists. split; [reflexivity|]. split.
    + pose proof (length_join_le [10; 10] 1015
                    (map (fun item => clip (item_text item)) items)) as Hlen.
      rewrite length_map in Hlen. cbn [length] in Hlen.
      etransitivity; [apply Hlen|lia].
      apply List.Forall_forall. intros x Hx. apply in_map_iff in Hx.
      destruct Hx as (item & <- & _). apply length_clip.
    + intros Hshort. f_equal. apply map_ext_in. intros item Hin.
      apply clip_short. rewrite List.Forall_forall in Hshort. now apply Hshort.
  - exfalso. exact (Hcl _ _ _ Hcall).
  - eexists _, _. split; [reflexivity|]. split; [reflexivity|].
    split; [reflexivity|]. intros ? ? Heq; discriminate Heq.
Qed.

Lemma search_chat_history_is_bounded_witness :
  exists text v',
    search_chat_history Cases.patchy (py "median") empty_vault
      = (Ok (VList [VDict [(py "text", VStr text); (py "metadata", VDict [])]]), v') /\
    mcp_calls v' = [finds (py "median")] /\
    (length text <= 2034)%nat.
Proof.
  destruct (search_chat_history_is_bounded Cases.patchy (py "median") empty_vault
              patchy_unhurried)
    as (r & v' & Hrun & Hcalls & _ & Hfound).
  destruct (Hfound _ _ eq_refl eq_refl) as (text & -> & Hlen & _).
  exists text, v'. split; [exact Hrun|]. split; [exact Hcalls|]. exact Hlen.
Defined.

End ColdFacts.

(** ** The model manager: properties *)

Module ModelFacts.

Import Json Eff Models.
Local Open Scope eff_scope.

#[local] Arguments py : simpl never.

Definition constructed (named : list str) (fl : Floor) : Floor :=
  {| override := override fl; constructions := S (constructions fl); names := named |}.

(** What [_create_model_instance] does for an entry of the table. *)
Definition created (pl : Plant) (self : ModelManager) (id : str) (s : Spec) (fl : Floor)
  : Result (option Handle) * Floor :=
  let named := <[self := id]> (names fl) in
  match construct pl (constructions fl) s with
  | Returned _ =>
      (Ok (Some {| built := constructions fl; spec := s |}), constructed named fl)
  | Failed KeyboardInterrupt => (Raise KeyboardInterrupt, constructed named fl)
  | Failed (Exception _ _) =>
      let renamed := <[self := py "gemini-2.5-flash"]> named in
      match construct pl (S (constructions fl)) GEMINI_FLASH with
      | Returned _ =>
          (Ok (Some {| built := S (constructions fl); spec := GEMINI_FLASH |}),
           constructed renamed (constructed named fl))
      | Failed e => (Raise e, constructed renamed (constructed named fl))
      end
  end.

Lemma create_known (pl : Plant) (self : ModelManager) (id : str) (config : Config)
    (t : value) (s : Spec) (fl : Floor) :
  config_of models_config id = Some config ->
  spec_for pl config t = Some s ->
  _create_model_instance pl self (Some id) t fl = created pl self id s fl.
Proof.
  intros Hc Hs. unfold _create_model_instance, lookup_config. rewrite Hc.
  unfold and_then at 1, set_current at 1, poke at 1. unfold rescue. rewrite Hs.
  unfold and_then at 1, build at 1, and_then at 1, peek at 1, and_then at 1, poke at 1.
  unfold created. cbn [constructions names override].
  destruct (construct pl (constructions fl) s) as [[]|[|cls e]].
  - reflexivity.
  - reflexivity.
  - unfold throw at 1. unfold and_then at 1, set_current at 1, poke at 1.
    unfold and_then at 1, build at 1, and_then at 1, peek at 1, and_then at 1, poke at 1.
    cbn [constructions names override]. fold GEMINI_FLASH.
    destruct (construct pl (S (constructions fl)) GEMINI_FLASH) as [[]|e']; reflexivity.
Qed.

Lemma create_unknown (pl : Plant) (self : ModelManager) (model_id : option str)
    (t : value) (fl : Floor) :
  lookup_config model_id = None ->
  _create_model_instance pl self model_id t fl
  = (Raise (Exception (py "ValueError") (py "Model " ++ fmt_id model_id ++ py " not found.")),
     fl).
Proof. intros Hc. unfold _create_model_instance. rewrite Hc. reflexivity. Qed.

Lemma known_types (id : str) (config : Config) (pl : Plant) (t : value) :
  config_of models_config id = Some config ->
  exists s, spec_for pl config t = Some s.
Proof.
  unfold models_config. cbn [config_of].
  repeat (destruct (bool_decide _); [intros [= <-]; eexists; reflexivity|]).
  discriminate.
Qed.

Lemma known_key (id : str) (config : Config) :
  config_of models_config id = Some config -> id ∈ known_ids.
Proof.
  unfold known_ids, models_config. cbn [config_of map fst].
  repeat (case_bool_decide;
          [intros _; subst id;
           repeat (first [apply list_elem_of_here | apply list_elem_of_further])|]).
  discriminate.
Qed.

Lemma known_config (id : str) :
  id ∈ known_ids -> exists config, config_of models_config id = Some config.
Proof.
  unfold known_ids, models_config. cbn [map fst]. intros Hin.
  repeat (apply elem_of_cons in Hin; destruct Hin as [->|Hin]; [eexists; reflexivity|]).
  now apply elem_of_nil in Hin.
Qed.

Lemma take_own_names (l : list str) (x y : str) :
  take (length l) (<[length l := x]> (l ++ [y])) = l.
Proof. rewrite take_insert_ge by lia. now rewrite take_app_length. Qed.

Lemma take_own_names2 (l : list str) (x y z : str) :
  take (length l) (<[length l := z]> (<[length l := x]> (l ++ [y]))) = l.
Proof. rewrite take_insert_ge by lia. apply take_own_names. Qed.

Definition hired (fl : Floor) : Floor :=
  {| override := override fl; constructions := constructions fl;
     names := names fl ++ [py "qwen3-32b"] |}.

(** What [switch_to_provider] does once the model is chosen. *)
Lemma switch_known (pl : Plant) (provider : str) (model_id : option str) (id : str)
    (config : Config) (s : Spec) (fl : Floor) :
  (if no_id model_id then
     if bool_decide (provider = py "gemini") then Some (py "gemini-2.5-flash")
     else if bool_decide (provider = py "groq") then Some (py "qwen3-32b")
     else if bool_decide (provider = py "openrouter") then Some (py "llama-3.3-70b")
     else if bool_decide (provider = py "cerebras") then Some (py "qwen-3-32b")
     else model_id
   else model_id) = Some id ->
  config_of models_config id = Some config ->
  spec_for pl config (VInt 0) = Some s ->
  switch_to_provider pl provider model_id fl
  = match created pl (length (names fl)) id s (hired fl) with
    | (Ok m, fl') =>
        (Ok tt, {| override := m; constructions := constructions fl'; names := names fl' |})
    | (Raise (Exception _ _), fl') => (Ok tt, fl')
    | (Raise KeyboardInterrupt, fl') => (Raise KeyboardInterrupt, fl')
    | (OutOfFuel, fl') => (OutOfFuel, fl')
    end.
Proof.
  intros Hid Hc Hs.
  unfold switch_to_provider, and_then at 1, new_manager, and_then at 1, peek at 1,
    and_then at 1, poke at 1, pure at 1.
  fold (hired fl). rewrite Hid. unfold rescue, and_then at 1.
  rewrite (create_known pl _ id config (VInt 0) s (hired fl) Hc Hs).
  destruct (created pl (length (names fl)) id s (hired fl)) as [[m|[|cls e]|] fl'];
    reflexivity.
Qed.

Lemma switch_unknown (pl : Plant) (provider : str) (model_id : option str) (fl : Floor) :
  lookup_config
    (if no_id model_id then
       if bool_decide (provider = py "gemini") then Some (py "gemini-2.5-flash")
       else if bool_decide (provider = py "groq") then Some (py "qwen3-32b")
       else if bool_decide (provider = py "openrouter") then Some (py "llama-3.3-70b")
       else if bool_decide (provider = py "cerebras") then Some (py "qwen-3-32b")
       else model_id
     else model_id) = None ->
  switch_to_provider pl provider model_id fl = (Ok tt, hired fl).
Proof.
  intros Hid.
  unfold switch_to_provider, and_then at 1, new_manager, and_then at 1, peek at 1,
    and_then at 1, poke at 1, pure at 1.
  fold (hired fl). unfold rescue, and_then at 1.
  rewrite create_unknown by exact Hid. reflexivity.
Qed.

Lemma default_of_provider (pl : Plant) (provider : str) (s : Spec) :
  default_spec pl provider = Some s ->
  exists id config,
    (if bool_decide (provider = py "gemini") then Some (py "gemini-2.5-flash")
     else if bool_decide (provider = py "groq") then Some (py "qwen3-32b")
     else if bool_decide (provider = py "openrouter") then Some (py "llama-3.3-70b")
     else if bool_decide (provider = py "cerebras") then Some (py "qwen-3-32b")
     else None) = Some id /\
    config_of models_config id = Some config /\
    spec_for pl config (VInt 0) = Some s.
Proof.
  unfold default_spec.
  repeat (destruct (bool_decide (provider = _));
          [intros [= <-]; eexists _, _; repeat split; reflexivity|]).
  discriminate.
Qed.

Lemma no_default_of_provider (pl : Plant) (provider : str) :
  default_spec pl provider = None ->
  (if bool_decide (provider = py "gemini") then Some (py "gemini-2.5-flash")
   else if bool_decide (provider = py "groq") then Some (py "qwen3-32b")
   else if bool_decide (provider = py "openrouter") then Some (py "llama-3.3-70b")
   else if bool_decide (provider = py "cerebras") then Some (py "qwen-3-32b")
   else None) = None.
Proof.
  unfold default_spec.
  repeat (destruct (bool_decide (provider = _)); [discriminate|]).
  reflexivity.
Qed.

Lemma switch_outcomes (pl : Plant) (provider : str) (fl : Floor) :
  steady pl ->
  exists fl',
    switch_to_provider pl provider None fl = (Ok tt, fl') /\
    take (length (names fl)) (names fl') = names fl /\
    (default_spec pl provider = None ->
     override fl' = override fl /\ constructions fl' = constructions fl) /\
    (forall s,
        default_spec pl provider = Some s ->
        (construct pl (constructions fl) s = Returned tt ->
         override fl' = Some {| built := constructions fl; spec := s |}) /\
        (forall cls e,
            construct pl (constructions fl) s = Failed (Exception cls e) ->
            (construct pl (S (constructions fl)) GEMINI_FLASH = Returned tt ->
             override fl' = Some {| built := S (constructions fl); spec := GEMINI_FLASH |}) /\
            (forall cls' e',
                construct pl (S (constructions fl)) GEMINI_FLASH = Failed (Exception cls' e') ->
                override fl' = override fl))).
Proof.
  intros Hpl.
  destruct (default_spec pl provider) as [s|] eqn:Hd.
  - destruct (default_of_provider pl provider s Hd) as (id & config & Hid & Hc & Hs).
    rewrite (switch_known pl provider None id config s fl Hid Hc Hs).
    unfold created. cbn [hired constructions names override].
    destruct (construct pl (constructions fl) s) as [[]|[|cls e]] eqn:H1.
    + eexists. split; [reflexivity|]. cbn [names override constructed].
      split; [apply take_own_names|]. split; [discriminate|].
      intros s' [= <-]. split; [reflexivity|]. intros; congruence.
    + exfalso. exact (Hpl _ _ H1).
    + destruct (construct pl (S (constructions fl)) GEMINI_FLASH) as [[]|[|cls2 e2]] eqn:H2.
      * eexists. split; [reflexivity|]. cbn [names override constructed].
        split; [apply take_own_names2|]. split; [discriminate|].
        intros s' [= <-]. split; [intros; congruence|].
        intros ? ? _. split; [reflexivity|]. intros; congruence.
      * exfalso. exact (Hpl _ _ H2).
      * eexists. split; [reflexivity|]. cbn [names override constructed].
        split; [apply take_own_names2|]. split; [discriminate|].
        intros s' [= <-]. split; [intros; congruence|].
        intros ? ? _. split; [intros; congruence|]. reflexivity.
  - rewrite switch_unknown.
    + eexists. split; [reflexivity|]. cbn [hired names override constructions].
      split; [now rewrite take_app_length|].
      split; [now split|]. intros s Heq. discriminate Heq.
    + cbn [no_id]. now rewrite (no_default_of_provider pl provider Hd).
Qed.

Lemma get_model_override (pl : Plant) (self : ModelManager) (model_id : option str)
    (t : value) (m : Handle) (fl : Floor) :
  override fl = Some m -> get_model pl self model_id t fl = (Ok (Some m), fl).
Proof. intros Ho. unfold get_model, and_then, peek. now rewrite Ho. Qed.

(** A switch of provider never fails aloud, and may land on Gemini.
    [switch_to_provider(provider)], given no model, returns normally
    whatever happens and leaves the managers that exist as they are.
    For a provider it does not know (anything but gemini, groq,
    openrouter and cerebras) it constructs nothing and the override
    stays as it was.  For one it knows, the override becomes the
    provider's default model at temperature 0 when that can be built;
    when it cannot, the override becomes Gemini 2.5 Flash instead; and
    when that cannot be built either, the override stays as it was.
    Whatever model the override holds afterwards, [get_model] returns
    that very object to every manager, for every model and temperature
    asked for, and constructs nothing. *)
Theorem switch_lands_on_default_or_gemini (pl : Plant) (provider : str) (fl : Floor) :
  steady pl ->
  exists fl',
    switch_to_provider pl provider None fl = (Ok tt, fl') /\
    take (length (names fl)) (names fl') = names fl /\
    (default_spec pl provider = None ->
     override fl' = override fl /\ constructions fl' = constructions fl) /\
    (forall s,
        default_spec pl provider = Some s ->
        (construct pl (constructions fl) s = Returned tt ->
         override fl' = Some {| built := constructions fl; spec := s |}) /\
        (forall cls e,
            construct pl (constructions fl) s = Failed (Exception cls e) ->
            (construct pl (S (constructions fl)) GEMINI_FLASH = Returned tt ->
             override fl' = Some {| built := S (constructions fl); spec := GEMINI_FLASH |}) /\
            (forall cls' e',
                construct pl (S (constructions fl)) GEMINI_FLASH = Failed (Exception cls' e') ->
                override fl' = override fl))) /\
    (forall m,
        override fl' = Some m ->
        forall self model_id t, get_model pl self model_id t fl' = (Ok (Some m), fl')).
Proof.
  intros Hpl.
  destruct (switch_outcomes pl provider fl Hpl) as (fl' & Hrun & Hnames & Hnone & Hsome).
  exists fl'. split; [exact Hrun|]. split; [exact Hnames|]. split; [exact Hnone|].
  split; [exact Hsome|].
  intros m Ho self model_id t. now apply get_model_override.
Qed.

Lemma keyless_steady : steady Cases.keyless.
Proof.
  intros n s. unfold Cases.keyless. cbn [construct].
  destruct (maker s); [discriminate|]. destruct (api_key s); discriminate.
Defined.

Lemma switch_lands_on_default_or_gemini_witness :
  exists fl',
    switch_to_provider Cases.keyless (py "groq") None fresh_floor = (Ok tt, fl') /\
    override fl' = Some {| built := 1%nat; spec := GEMINI_FLASH |}.
Proof.
  destruct (switch_lands_on_default_or_gemini Cases.keyless (py "groq") fresh_floor
              keyless_steady)
    as (fl' & Hrun & _ & _ & Hknown & _).
  exists fl'. split; [exact Hrun|].
  destruct (Hknown _ eq_refl) as (_ & Hfail).
  destruct (Hfail _ _ eq_refl) as (Hgemini & _).
  exact (Hgemini eq_refl).
Defined.

Lemma created_well_named (pl : Plant) (self : ModelManager) (id : str) (s : Spec) (fl : Floor) :
  id ∈ known_ids -> well_named fl -> well_named (snd (created pl self id s fl)).
Proof.
  intros Hid Hfl. unfold created, well_named in *.
  assert (Hflash : py "gemini-2.5-flash" ∈ known_ids) by apply list_elem_of_here.
  destruct (construct pl (constructions fl) s) as [[]|[|cls e]]; cbn [snd constructed names].
  - now apply Forall_insert.
  - now apply Forall_insert.
  - destruct (construct pl (S (constructions fl)) GEMINI_FLASH) as [[]|e'];
      cbn [snd constructed names]; apply Forall_insert; try assumption;
      now apply Forall_insert.
Qed.

Lemma create_well_named (pl : Plant) (self : ModelManager) (model_id : option str)
    (t : value) (fl : Floor) :
  well_named fl -> well_named (snd (_create_model_instance pl self model_id t fl)).
Proof.
  intros Hfl.
  destruct (lookup_config model_id) as [[id config]|] eqn:Hl.
  - unfold lookup_config in Hl. destruct model_id as [id'|]; [|discriminate].
    destruct (config_of models_config id') as [c|] eqn:Hc; [|discriminate].
    injection Hl as -> ->.
    destruct (known_types id config pl t Hc) as (s & Hs).
    rewrite (create_known pl self id config t s fl Hc Hs).
    apply created_well_named; [exact (known_key id config Hc)|exact Hfl].
  - rewrite create_unknown by exact Hl. exact Hfl.
Qed.

Lemma hired_well_named (fl : Floor) : well_named fl -> well_named (hired fl).
Proof.
  intros Hfl. unfold well_named, hired. cbn [names]. apply Forall_app. split; [exact Hfl|].
  constructor; [|constructor].
  unfold known_ids, models_config. cbn [map fst].
  do 3 apply list_elem_of_further. apply list_elem_of_here.
Qed.

(** A manager's current model is always one of the table.  Creating a
    manager, switching the provider and asking for a model keep every
    manager's [current_model_name] among the identifiers of
    [models_config], whatever is asked and whatever fails.  So
    [get_model()] with no model named never raises the [ValueError] of
    an unknown model and never returns [None]: it returns a model
    object, unless building both the current model and the Gemini
    fallback failed, in which case it raises the fallback's error. *)
Theorem managers_keep_a_known_model (pl : Plant) (fl : Floor) :
  well_named fl ->
  well_named (snd (new_manager fl)) /\
  (forall provider model_id,
      well_named (snd (switch_to_provider pl provider model_id fl))) /\
  (forall self model_id t, well_named (snd (get_model pl self model_id t fl))) /\
  (forall self t,
      steady pl -> (self < length (names fl))%nat ->
      (exists m, fst (get_model pl self None t fl) = Ok (Some m)) \/
      (exists cls e,
          fst (get_model pl self None t fl) = Raise (Exception cls e) /\
          construct pl (S (constructions fl)) GEMINI_FLASH = Failed (Exception cls e))).
Proof.
  intros Hfl. split; [|split; [|split]].
  - exact (hired_well_named fl Hfl).
  - intros provider model_id.
    unfold switch_to_provider, and_then at 1, new_manager, and_then at 1, peek at 1,
      and_then at 1, poke at 1, pure at 1.
    fold (hired fl). unfold rescue, and_then at 1.
    match goal with
    | |- context [_create_model_instance pl ?m ?i ?t (hired fl)] =>
        pose proof (create_well_named pl m i t (hired fl) (hired_well_named fl Hfl)) as Hw;
        destruct (_create_model_instance pl m i t (hired fl)) as [[x|[|cls e]|] fl']
    end; exact Hw.
  - intros self model_id t. unfold get_model, and_then at 1, peek at 1.
    destruct (override fl) as [m|]; [exact Hfl|].
    unfold and_then at 1, peek at 1. now apply create_well_named.
  - intros self t Hpl Hself.
    destruct (override fl) as [m|] eqn:Ho.
    { left. exists m. unfold get_model, and_then, peek. now rewrite Ho. }
    destruct (lookup_lt_is_Some_2 (names fl) self Hself) as (name & Hname).
    assert (Hin : name ∈ known_ids).
    { unfold well_named in Hfl. rewrite Forall_lookup in Hfl. exact (Hfl _ _ Hname). }
    destruct (known_config name Hin) as (config & Hc).
    destruct (known_types name config pl t Hc) as (s & Hs).
    assert (Hget : get_model pl self None t fl = created pl self name s fl).
    { unfold get_model, and_then at 1, peek at 1. rewrite Ho.
      unfold and_then at 1, peek at 1. unfold current_model_name, ModelManager.
      rewrite Hname.
      exact (create_known pl self name config t s fl Hc Hs). }
    rewrite Hget. unfold created.
    destruct (construct pl (constructions fl) s) as [[]|[|cls e]] eqn:H1.
    + left. now eexists.
    + exfalso. exact (Hpl _ _ H1).
    + destruct (construct pl (S (constructions fl)) GEMINI_FLASH) as [[]|[|cls2 e2]] eqn:H2.
      * left. now eexists.
      * exfalso. exact (Hpl _ _ H2).
      * right. now exists cls2, e2.
Qed.

Lemma fresh_floor_well_named : well_named fresh_floor.
Proof.
  constructor; [|constructor]. do 3 apply list_elem_of_further. apply list_elem_of_here.
Defined.

Lemma managers_keep_a_known_model_witness :
  well_named (snd (get_model Cases.keyless 0%nat (Some (py "no-such-model")) (VInt 0)
                     fresh_floor)) /\
  exists m, fst (get_model Cases.keyless 0%nat None (VInt 0) fresh_floor) = Ok (Some m).
Proof.
  destruct (managers_keep_a_known_model Cases.keyless fresh_floor fresh_floor_well_named)
    as (_ & _ & Hget & Hdefault).
  split; [apply Hget|].
  destruct (Hdefault 0%nat (VInt 0) keyless_steady) as [Hm|(cls & e & Hr & _)].
  - cbn. lia.
  - exact Hm.
  - vm_compute in Hr. discriminate Hr.
Defined.

End ModelFacts.

(** ** The interactive loop: properties *)

Module ChatFacts.

Import Json Warm Agent Workers Chat AgentFacts WorkerFacts.
Local Open Scope prog_scope.

#[local] Arguments py : simpl never.

Lemma answer_tools_insistent E self fuel :
  insistent E -> calm E ->
  forall ai_msg messages w,
    snd ai_msg <> [] ->
    exists w',
      answer_tools E fuel self ai_msg messages w = (OutOfFuel, w') /\
      tool_rounds w' = (tool_rounds w + fuel)%nat.
Proof.
  intros Hins Hc. induction fuel as [|fuel IH]; intros ai msgs w Hai; cbn [answer_tools];
    rewrite bool_decide_eq_false_2 by exact Hai; cbn [negb].
  - exists w. split; [reflexivity|lia].
  - unfold bind at 1. unfold modify at 1.
    set (w1 := set_tool_rounds (S (tool_rounds w)) w).
    destruct (run_tools_ok E self (snd ai) w1 Hc) as (outs & w2 & H2 & S2 & L2 & R2).
    unfold bind at 1. rewrite H2.
    destruct (Hins (llm_attempts w2) Current (msgs ++ outs)) as (c & tcs & Hl & Htcs).
    unfold bind at 1. rewrite (robust_invoke_answers E _ w2 _ Hl).
    set (w3 := set_llm_attempts (S (llm_attempts w2)) w2).
    cbn [fst snd].
    destruct (IH (c, tcs) ((msgs ++ outs) ++ [AIMessage c tcs]) w3 Htcs) as (w' & Hrun & R3).
    exists w'. split; [exact Hrun|].
    assert (Rw3 : tool_rounds w3 = S (tool_rounds w)) by (cbn; rewrite R2; reflexivity).
    lia.
Qed.

(** The interactive loop puts no limit on the rounds of tools.  With a
    model that asks for a tool in every answer, a line typed at the
    prompt of [run] starts a turn that does not end: however many
    steps it is given, it is still running tools, one more round for
    each step, where [run_task] stops after [MAX_LOOPS] rounds. *)
Theorem chat_loop_has_no_round_limit E console self line w :
  insistent E -> calm E -> legible E -> ready self w ->
  console 0%nat = Returned line -> spoken line -> text line = true ->
  forall fuel,
    exists w',
      run E console (S fuel) self 0 w = (OutOfFuel, w') /\
      tool_rounds w' = (tool_rounds w + fuel)%nat.
Proof.
  intros Hins Hc Hnow Hready Hline [Hexit Hblank] Htext fuel.
  cbn [run]. rewrite Hline.
  rewrite bool_decide_eq_false_2 by exact Hexit.
  rewrite bool_decide_eq_false_2 by exact Hblank.
  destruct (run_task_prologue E self line w Hnow Hready Htext)
    as (msgs0 & w1 & w2 & q & Hadd & Hbuild & _ & L2 & R2).
  unfold bind at 1. unfold turn. unfold bind at 1. rewrite Hadd.
  unfold bind at 1. rewrite Hbuild. unfold try_except.
  destruct (Hins (llm_attempts w2) Current msgs0) as (c0 & tcs0 & Hl0 & Htcs0).
  unfold bind at 1. rewrite (robust_invoke_answers E _ w2 _ Hl0).
  set (w3 := set_llm_attempts (S (llm_attempts w2)) w2). cbn [fst snd].
  destruct (answer_tools_insistent E self fuel Hins Hc (c0, tcs0)
              (msgs0 ++ [AIMessage c0 tcs0]) w3 Htcs0) as (w4 & Hloop & R4).
  unfold bind at 1. rewrite Hloop.
  exists w4. split; [reflexivity|].
  assert (Rw3 : tool_rounds w3 = tool_rounds w) by (cbn; rewrite R2; reflexivity).
  lia.
Qed.

Lemma chat_loop_has_no_round_limit_witness :
  exists w',
    run Samples.tool_hungry Cases.demanding 41 (Router.cleaner_agent Samples.tool_hungry) 0
      Samples.fresh = (OutOfFuel, w') /\
    tool_rounds w' = 40%nat.
Proof.
  refine (chat_loop_has_no_round_limit Samples.tool_hungry Cases.demanding
            (Router.cleaner_agent Samples.tool_hungry) (py "drop nulls") Samples.fresh
            _ _ _ _ eq_refl _ eq_refl 40).
  - intros n t msgs. eexists _, _. split; [reflexivity|]. intros Heq; discriminate Heq.
  - split; intros; intros Heq; discriminate Heq.
  - intros n. reflexivity.
  - exists []. split; [|reflexivity]. split; [split; reflexivity|].
    intros Heq; discriminate Heq.
  - split.
    + vm_compute. intros Hin.
      repeat (apply elem_of_cons in Hin; destruct Hin as [Hin|Hin]; [discriminate Hin|]).
      now apply elem_of_nil in Hin.
    + vm_compute. discriminate.
Defined.

(** Blank lines are passed over and a word of exit ends the loop, with
    nothing done.  When the prompts of [run] give any number of blank
    lines and then [exit] or [quit] in any case, the end of the input
    or an interrupt, [run] returns and the world is as it was: nothing
    is written to memory and no model is invoked. *)
Theorem chat_loop_leaves_quietly E console self k fuel w :
  (forall i, (i < k)%nat -> blank (console i) /\ ~ leaves (console i)) ->
  leaves (console k) ->
  (k < fuel)%nat ->
  run E console fuel self 0 w = (Ok tt, w).
Proof.
  intros Hblank Hleave Hfuel.
  assert (Hgen : forall j n f, (n + j = k)%nat -> (j < f)%nat ->
                               run E console f self n w = (Ok tt, w)).
  { induction j as [|j IH]; intros n f Hn Hf.
    - assert (n = k) as -> by lia.
      destruct f as [|f]; [lia|]. cbn [run]. unfold leaves in Hleave.
      destruct (console k) as [line|[|cls msg]].
      + now rewrite bool_decide_eq_true_2 by exact Hleave.
      + reflexivity.
      + now rewrite bool_decide_eq_true_2 by exact Hleave.
    - destruct f as [|f]; [lia|]. cbn [run].
      destruct (Hblank n ltac:(lia)) as ((line & Hline & Hstrip) & Hstay).
      rewrite Hline in *. cbn [leaves] in Hstay.
      rewrite bool_decide_eq_false_2 by exact Hstay.
      rewrite bool_decide_eq_true_2 by exact Hstrip.
      apply IH; lia. }
  apply (Hgen k 0%nat fuel); lia.
Qed.

Lemma chat_loop_leaves_quietly_witness :
  run Samples.tool_hungry Cases.undecided 3 (Router.cleaner_agent Samples.tool_hungry) 0
    Samples.fresh = (Ok tt, Samples.fresh).
Proof.
  refine (chat_loop_leaves_quietly Samples.tool_hungry Cases.undecided
            (Router.cleaner_agent Samples.tool_hungry) 2 3 Samples.fresh _ _ _).
  - intros i Hi.
    assert (Hsilent : forall line, lower line = line -> line <> py "exit" ->
                                   line <> py "quit" -> lower line ∉ EXIT_WORDS).
    { intros line -> H1 H2 Hin.
      apply elem_of_cons in Hin. destruct Hin as [Hin|Hin]; [now apply H1|].
      apply elem_of_cons in Hin. destruct Hin as [Hin|Hin]; [now apply H2|].
      now apply elem_of_nil in Hin. }
    destruct i as [|[|i]]; [| |lia].
    + split; [now exists (py "   ")|]. apply Hsilent; [reflexivity|discriminate|discriminate].
    + split; [now exists []|]. apply Hsilent; [reflexivity|discriminate|discriminate].
  - apply list_elem_of_further, list_elem_of_here.
  - lia.
Defined.

(** A turn that fails does not end the loop.  When every provider is
    unreachable, the line typed at the prompt is logged under [User],
    nothing is logged for the agent, and [run] goes on to the next
    prompt. *)
Theorem failed_turn_does_not_end_the_loop E console self line w q fuel :
  unreachable E -> legible E ->
  at_rest (warm_memory self) w q -> forallb readable q = true ->
  console 0%nat = Returned line -> spoken line -> text line = true ->
  exists w',
    run E console (S fuel) self 0 w = run E console fuel self 1 w' /\
    held (warm_memory self) w' (window (q ++ [user_entry E line w])) /\
    clock_reads w' = S (clock_reads w).
Proof.
  intros Hu Hnow Hq Hread Hline [Hexit Hblank] Htext.
  cbn [run]. rewrite Hline.
  rewrite bool_decide_eq_false_2 by exact Hexit.
  rewrite bool_decide_eq_false_2 by exact Hblank.
  destruct (run_task_prologue_exact E self line w q Hnow Hq Hread Htext)
    as (msgs0 & w1 & w2 & Hadd & Hbuild & [Hq2 Hd2] & _ & L2 & C2).
  unfold bind at 1. unfold turn. unfold bind at 1. rewrite Hadd.
  unfold bind at 1. rewrite Hbuild. unfold try_except. unfold bind at 1.
  rewrite robust_invoke_all_fail by now apply unreachable_all_fail.
  eexists. split; [reflexivity|]. split; [|exact C2].
  eapply held_same_store; [|exact Hq2]. repeat split.
Qed.

Lemma failed_turn_does_not_end_the_loop_witness :
  exists w',
    run Samples.offline Cases.demanding 3 (Router.cleaner_agent Samples.offline) 0
      Samples.fresh
    = run Samples.offline Cases.demanding 2 (Router.cleaner_agent Samples.offline) 1 w' /\
    held (warm_memory (Router.cleaner_agent Samples.offline)) w'
      (window ([] ++ [user_entry Samples.offline (py "drop nulls") Samples.fresh])).
Proof.
  destruct (failed_turn_does_not_end_the_loop Samples.offline Cases.demanding
              (Router.cleaner_agent Samples.offline) (py "drop nulls") Samples.fresh [] 2)
    as (w' & Hrun & Hheld & _).
  - intros n t msgs. eexists _, _. split; reflexivity.
  - intros n. reflexivity.
  - first [split; [split; reflexivity|]; intros Heq; discriminate Heq
          |split; [reflexivity|]; intros _; reflexivity].
  - reflexivity.
  - reflexivity.
  - split.
    + vm_compute. intros Hin.
      repeat (apply elem_of_cons in Hin; destruct Hin as [Hin|Hin]; [discriminate Hin|]).
      now apply elem_of_nil in Hin.
    + vm_compute. discriminate.
  - reflexivity.
  - exists w'. split; [exact Hrun|exact Hheld].
Defined.

(** An interrupt while the model answers ends the loop.  [run] catches
    the interrupt at the prompt only: when the user interrupts the
    model's answer to a line, [run] ends in [KeyboardInterrupt], the
    line already logged under [User]. *)
Theorem interrupt_ends_the_chat_loop E console self line w q fuel :
  (forall msgs, llm E (llm_attempts w) Current msgs = Failed KeyboardInterrupt) ->
  legible E ->
  at_rest (warm_memory self) w q -> forallb readable q = true ->
  console 0%nat = Returned line -> spoken line -> text line = true ->
  exists w',
    run E console (S fuel) self 0 w = (Raise KeyboardInterrupt, w') /\
    held (warm_memory self) w' (window (q ++ [user_entry E line w])).
Proof.
  intros Hint Hnow Hq Hread Hline [Hexit Hblank] Htext.
  cbn [run]. rewrite Hline.
  rewrite bool_decide_eq_false_2 by exact Hexit.
  rewrite bool_decide_eq_false_2 by exact Hblank.
  destruct (run_task_prologue_exact E self line w q Hnow Hq Hread Htext)
    as (msgs0 & w1 & w2 & Hadd & Hbuild & [Hq2 Hd2] & _ & L2 & C2).
  unfold bind at 1. unfold turn. unfold bind at 1. rewrite Hadd.
  unfold bind at 1. rewrite Hbuild. unfold try_except. unfold bind at 1.
  assert (Hinv : _robust_invoke E msgs0 w2
                 = (Raise KeyboardInterrupt, set_llm_attempts (S (llm_attempts w2)) w2)).
  { unfold _robust_invoke, invoke, try_except, bind, gets, modify.
    cbn [fst snd llm_attempts set_llm_attempts]. rewrite L2, Hint. reflexivity. }
  rewrite Hinv.
  eexists. split; [reflexivity|].
  eapply held_same_store; [|exact Hq2]. repeat split.
Qed.

Lemma interrupt_ends_the_chat_loop_witness :
  exists w',
    run Cases.interrupted Cases.demanding 3 (Router.cleaner_agent Cases.interrupted) 0
      Samples.fresh = (Raise KeyboardInterrupt, w').
Proof.
  destruct (interrupt_ends_the_chat_loop Cases.interrupted Cases.demanding
              (Router.cleaner_agent Cases.interrupted) (py "drop nulls") Samples.fresh [] 2)
    as (w' & Hrun & _).
  - intros msgs. reflexivity.
  - intros n. reflexivity.
  - first [split; [split; reflexivity|]; intros Heq; discriminate Heq
          |split; [reflexivity|]; intros _; reflexivity].
  - reflexivity.
  - reflexivity.
  - split.
    + vm_compute. intros Hin.
      repeat (apply elem_of_cons in Hin; destruct Hin as [Hin|Hin]; [discriminate Hin|]).
      now apply elem_of_nil in Hin.
    + vm_compute. discriminate.
  - reflexivity.
  - exists w'. exact Hrun.
Defined.

End ChatFacts.

(** ** The Contextor's history: properties *)

Module ContextorFacts.

Import Json Warm Agent Contextor WarmFacts AgentFacts.
Local Open Scope prog_scope.

#[local] Arguments py : simpl never.
#[local] Arguments lower : simpl never.
#[local] Arguments AI_ROLES : simpl never.

Lemma turns_heard (validate : Validator) (msgs : list value) (w : World) :
  lenient validate -> forallb readable msgs = true ->
  turns validate msgs w = (Ok (flat_map heard msgs), w).
Proof.
  intros Hv. induction msgs as [|m msgs IH]; intros Hread; [reflexivity|].
  cbn [forallb] in Hread. apply andb_true_iff in Hread as [Hm Hrest].
  destruct m as [| | | | | |d]; try discriminate Hm. cbn [readable] in Hm.
  cbn [turns flat_map heard].
  destruct (dict_get d (py "role")) as [[| | | |role| |]|] eqn:Hr; try discriminate Hm.
  destruct (dict_get d (py "content")) as [[| | | |content| |]|] eqn:Hc; try discriminate Hm.
  unfold bind at 1. cbn [get]. rewrite Hr. unfold ret at 1.
  unfold bind at 1. rewrite Hc. unfold ret at 1.
  change (default VNull (Some (VStr role))) with (VStr role).
  change (default VNull (Some (VStr content))) with (VStr content).
  unfold bind at 1. cbn [lowered]. unfold ret at 1.
  unfold bind at 1.
  destruct (bool_decide (lower role = py "user")).
  - unfold bind at 1, construct. rewrite Hv. unfold ret at 1. unfold ret at 1.
    unfold bind at 1. rewrite (IH Hrest). reflexivity.
  - destruct (bool_decide (lower role ∈ AI_ROLES)).
    + unfold bind at 1, construct. rewrite Hv. unfold ret at 1. unfold ret at 1.
      unfold bind at 1. rewrite (IH Hrest). reflexivity.
    + unfold ret at 1. unfold bind at 1. rewrite (IH Hrest). reflexivity.
Qed.

Lemma length_heard (msgs : list value) : (length (flat_map heard msgs) <= length msgs)%nat.
Proof.
  induction msgs as [|m msgs IH]; [cbn; lia|].
  cbn [flat_map length]. rewrite length_app.
  assert (length (heard m) <= 1)%nat; [|lia].
  unfold heard. destruct m as [| | | | | |d]; cbn; try lia.
  destruct (dict_get d (py "role")) as [[| | | |role| |]|]; cbn; try lia.
  destruct (dict_get d (py "content")) as [[| | | |content| |]|]; cbn; try lia.
  destruct (bool_decide (lower role = py "user")); cbn; [lia|].
  destruct (bool_decide (lower role ∈ AI_ROLES)); cbn; lia.
Qed.

Lemma length_window (q : list value) (m : value) :
  (length q <= ARCHIVE_THRESHOLD)%nat -> (length (window (q ++ [m])) <= ARCHIVE_THRESHOLD)%nat.
Proof.
  intros Hq. unfold window.
  destruct (ARCHIVE_THRESHOLD <? length (q ++ [m]))%nat eqn:Hlong.
  - rewrite length_drop, length_app. unfold ARCHIVE_BATCH_SIZE. cbn [length]. lia.
  - apply Nat.ltb_ge in Hlong. exact Hlong.
Qed.



End ContextorFacts.
